(** * compare50: the command-line driver ([compare50/__main__.py])

    A shallow embedding of the driver of compare50: the exception hook,
    the submission factory, the argument parser's error path and [main],
    with the properties of its error handling, submission collection and
    pass orchestration.

    Collaborators that live outside [__main__.py] ([_api.rank],
    [_api.compare], [_renderer.render], [lib50.files], the pass registry,
    the file system) are fields of an environment record [Env]. *)

From stdpp Require Import base option list gmap strings sorting pretty.

Local Open Scope Z_scope.

(** ** Python exception classes *)

(** The exception classes the driver can meet.  [UserClass n b] is a class
    named [n] declared with the single base [b]. *)
Inductive pyclass :=
  | BaseException
  | Exception
  | SystemExit
  | KeyboardInterrupt
  | GeneratorExit
  | OSError
  | FileNotFoundError
  | IsADirectoryError
  | PermissionError
  | EOFError
  | RuntimeError
  | LookupError
  | KeyError
  | IndexError
  | ValueError
  | UnicodeError
  | UnicodeDecodeError
  | api_Error        (* compare50._api.Error *)
  | lib50_Error      (* lib50.Error *)
  | UserClass (name : string) (base : pyclass).

Global Instance pyclass_eq_dec : EqDecision pyclass.
Proof. solve_decision. Defined.

(** The classes a class derives from, itself first (its MRO without
    [object]).  [_api.Error] and [lib50.Error] are declared outside
    [__main__.py]; both derive from [Exception]. *)
Fixpoint mro (c : pyclass) : list pyclass :=
  match c with
  | BaseException => [BaseException]
  | Exception => [Exception; BaseException]
  | SystemExit => [SystemExit; BaseException]
  | KeyboardInterrupt => [KeyboardInterrupt; BaseException]
  | GeneratorExit => [GeneratorExit; BaseException]
  | OSError => [OSError; Exception; BaseException]
  | FileNotFoundError => [FileNotFoundError; OSError; Exception; BaseException]
  | IsADirectoryError => [IsADirectoryError; OSError; Exception; BaseException]
  | PermissionError => [PermissionError; OSError; Exception; BaseException]
  | EOFError => [EOFError; Exception; BaseException]
  | RuntimeError => [RuntimeError; Exception; BaseException]
  | LookupError => [LookupError; Exception; BaseException]
  | KeyError => [KeyError; LookupError; Exception; BaseException]
  | IndexError => [IndexError; LookupError; Exception; BaseException]
  | ValueError => [ValueError; Exception; BaseException]
  | UnicodeError => [UnicodeError; ValueError; Exception; BaseException]
  | UnicodeDecodeError =>
      [UnicodeDecodeError; UnicodeError; ValueError; Exception; BaseException]
  | api_Error => [api_Error; Exception; BaseException]
  | lib50_Error => [lib50_Error; Exception; BaseException]
  | UserClass _ b => c :: mro b
  end.

(** [issubclass(c, d)] *)
Definition issubclass (c d : pyclass) : bool := bool_decide (d ∈ mro c).

(** ** Exception objects *)

(** Python's [repr] of a [str], exact for strings without quote, backslash
    or non-printable characters (class names are such strings). *)
Definition py_repr_str (s : string) : string := "'" +:+ s +:+ "'".

Fixpoint py_join (sep : string) (l : list string) : string :=
  match l with
  | [] => EmptyString
  | [x] => x
  | x :: l' => x +:+ sep +:+ py_join sep l'
  end.

(** [str] of a list of [str]: [['a', 'b']]. *)
Definition py_str_list (l : list string) : string :=
  "[" +:+ py_join ", " (py_repr_str <$> l) +:+ "]".

(** The arguments that exceptions are raised with: a [str], an [int] or
    [None]. *)
Inductive pyval :=
  | PyStr (s : string)
  | PyInt (n : Z)
  | PyNone.

Global Instance pyval_eq_dec : EqDecision pyval.
Proof. solve_decision. Defined.

(** [str] and [repr] of such a value *)
Definition py_str (v : pyval) : string :=
  match v with
  | PyStr s => s
  | PyInt n => pretty n
  | PyNone => "None"
  end.

Definition py_repr (v : pyval) : string :=
  match v with
  | PyStr s => py_repr_str s
  | PyInt n => pretty n
  | PyNone => "None"
  end.

(** [repr] of a tuple; a one-element tuple keeps its comma. *)
Definition py_repr_tuple (l : list pyval) : string :=
  match l with
  | [x] => "(" +:+ py_repr x +:+ ",)"
  | _ => "(" +:+ py_join ", " (py_repr <$> l) +:+ ")"
  end.

(** An exception object: its class, its [args] and, for an [OSError], its
    [filename] attribute ([None] when the object has none set). *)
Record exc := mk_exc {
  exc_type : pyclass;
  exc_args : list pyval;
  exc_filename : option string;
}.

(** [BaseException.__str__] *)
Definition exc_str (e : exc) : string :=
  match exc_args e with
  | [] => EmptyString
  | [a] => py_str a
  | l => py_repr_tuple l
  end.

(** [isinstance(exc, c)] *)
Definition isinstance (e : exc) (c : pyclass) : bool := issubclass (exc_type e) c.

(** [str.format] of an optional string: [None] prints as [None]. *)
Definition py_format_opt (o : option string) : string :=
  match o with
  | Some s => s
  | None => "None"
  end.

(** [_api.Error(msg)] *)
Definition Error (msg : string) : exc := mk_exc api_Error [PyStr msg] None.

(** ** Output, and how a call ends *)

Inductive stream := stdout | stderr.

(** What the hook and the argument parser write. *)
Inductive output :=
  | Cprint (text color : string) (file : stream)   (* termcolor.cprint *)
  | PyPrint (text : string)                         (* print *)
  | StreamWrite (text : string) (file : stream)     (* sys.stderr.write *)
  | PrintHelp                                       (* parser.print_help() *)
  | PrintException (cls : pyclass) (e : exc).       (* traceback.print_exception *)

(** ** [excepthook] *)

Definition sorry_message : string :=
  "Sorry, something's wrong! Let sysadmins@cs50.harvard.edu know!".

(** The result of [excepthook(cls, exc, tb)] when [excepthook.verbose] is
    [verbose]: what it wrote, and [Some code] when it ended in
    [sys.exit(code)], [None] when it returned. *)
Definition excepthook (verbose : bool) (cls : pyclass) (e : exc)
  : list output * option Z :=
  let finish (report : list output) :=
    (report ++ (if verbose then [PrintException cls e] else []), Some 1) in
  if (issubclass cls api_Error || issubclass cls lib50_Error)
     && negb (bool_decide (exc_args e = [])) then
    finish [Cprint (exc_str e) "red" stderr]
  else if bool_decide (cls = FileNotFoundError) then
    finish [Cprint (py_format_opt (exc_filename e) +:+ " not found") "red" stderr]
  else if negb (issubclass cls Exception) && negb (isinstance e KeyboardInterrupt) then
    ([], None)
  else
    finish [Cprint sorry_message "red" stderr].

(** ** [ArgParser.error] *)

Definition newline : string := String (Ascii.ascii_of_nat 10) EmptyString.

Definition ArgParser_error (message : string) : list output * option Z :=
  ([PrintHelp; StreamWrite ("error: " +:+ message +:+ newline) stderr], Some 2).

(** ** [SystemExit] at the top level *)

(** The status of a process that ends in [exit(n)], as a POSIX system
    with a 64-bit C [long] reports it: the low byte of [n], and the low
    byte of -1 when [n] does not fit a [long]. *)
Definition exit_status (n : Z) : Z :=
  if bool_decide (- 2 ^ 63 ≤ n < 2 ^ 63) then n `mod` 256 else 255.

(** What the interpreter does with a [SystemExit] that nothing caught; the
    hook is not called for it.  The [code] of the exception is [None]
    when it was raised without arguments, its argument when it was raised
    with one, the tuple of its arguments otherwise.  The process ends
    with status 0 for [None] and with the status of the integer for an
    integer; any other [code] is written to stderr and the process ends
    with status 1. *)
Definition handle_system_exit (e : exc) : list output * Z :=
  match exc_args e with
  | [] | [PyNone] => ([], 0)
  | [PyInt n] => ([], exit_status n)
  | [PyStr s] => ([StreamWrite (s +:+ newline) stderr], 1)
  | l => ([StreamWrite (py_repr_tuple l +:+ newline) stderr], 1)
  end.

(** ** Paths ([pathlib.Path]) *)

(** A path is the sequence of its parts ([path.parts]): the first part of
    an absolute path is its root, which starts with a slash; no other part
    holds a slash; the empty sequence is [Path(".")]. *)
Definition Path := list string.

(** [path.is_absolute()] *)
Definition Path_is_absolute (p : Path) : bool :=
  match p with
  | root :: _ => String.prefix "/" root
  | [] => false
  end.

(** [path.name]: the last part, unless the path is only a root *)
Definition Path_name (p : Path) : string :=
  match p with
  | [root] => if String.prefix "/" root then EmptyString else root
  | _ => List.last p EmptyString
  end.

(** [path.parent]: the parent of a root is the root *)
Definition Path_parent (p : Path) : Path :=
  match p with
  | [root] => if String.prefix "/" root then p else []
  | _ => removelast p
  end.

(** [path / file_path], for a relative [file_path] *)
Definition Path_join (p : Path) (file_path : string) : Path := p ++ [file_path].

(** [str(path)]: the parts joined by slashes, the root standing before
    the first of them *)
Definition Path_str (p : Path) : string :=
  match p with
  | [] => "."
  | root :: rest =>
      if String.prefix "/" root then root +:+ py_join "/" rest
      else py_join "/" p
  end.

(** ** File patterns ([lib50.config]) *)

Inductive PatternType := Included | Excluded.

Record FilePattern := mk_FilePattern {
  pattern_type : PatternType;
  pattern : string;
}.

(** ** [SubmissionFactory]: the pattern list

    [self.submissions] is set to an empty dict by [__init__] and never
    read or written afterwards; the factory's state is its pattern list. *)
Record SubmissionFactory := mk_SubmissionFactory {
  patterns : list FilePattern;
}.

Definition SubmissionFactory_init : SubmissionFactory := mk_SubmissionFactory [].

Definition SubmissionFactory_include (self : SubmissionFactory) (pat : string)
  : SubmissionFactory :=
  mk_SubmissionFactory (patterns self ++ [mk_FilePattern Included pat]).

Definition SubmissionFactory_exclude (self : SubmissionFactory) (pat : string)
  : SubmissionFactory :=
  mk_SubmissionFactory (patterns self ++ [mk_FilePattern Excluded pat]).

(** ** The data the driver handles *)

Section Driver.

(** The token streams of [_data], the scores that [_api.rank] returns and
    the results that [_api.compare] returns: opaque to the driver. *)
Context {Tokens Scores Results : Type}.

(** [Preprocessor]: the composed preprocessor (an [attr.s] class with the
    single attribute [preprocessors]). *)
Record Preprocessor := mk_Preprocessor {
  preprocessors : list (Tokens → Tokens);
}.

(** [Preprocessor.__call__] *)
Definition Preprocessor_call (self : Preprocessor) (tokens : Tokens) : Tokens :=
  foldl (λ tokens preprocessor, preprocessor tokens) tokens (preprocessors self).

(** A pass of the registry, as far as the driver reads it: [__name__],
    [__doc__] and [preprocessors]. *)
Record Pass := mk_Pass {
  pass_name : string;
  pass_doc : option string;
  pass_preprocessors : list (Tokens → Tokens);
}.

(** [_data.Submission(path, files, preprocessor=preprocessor)]: the three
    attributes that the driver gives to the constructor, the last of which
    it assigns to later. *)
Record Submission := mk_Submission {
  sub_path : Path;
  sub_files : list string;
  sub_preprocessor : Preprocessor;
}.

(** [object.__setattr__(sub, "preprocessor", preprocessor)] *)
Definition setattr_preprocessor (preprocessor : Preprocessor) (sub : Submission)
  : Submission :=
  mk_Submission (sub_path sub) (sub_files sub) preprocessor.

(** Submission objects live in a store and are handled by reference: sets
    of submissions and the scores hold references into the store. *)
Definition ref := nat.

Inductive Executor := PoolExecutor | FauxExecutor.

(** What is left at [args.output]. *)
Inductive entry := RegularFile | Directory.

(** ** The environment of a run *)

Record Env := mk_Env {
  (** [path.is_file()] *)
  is_file : Path → bool;
  (** [open(path).read()]: [None] when the file reads as text, [Some e]
      when opening or reading raises [e] *)
  open_read : Path → option exc;
  (** [lib50.files(patterns, root=path, always_exclude=[])]: the included
      and the excluded files, two sets of relative paths (file discovery is
      free of duplicates), or the exception it raises *)
  lib50_files : list FilePattern → Path → exc + (gset string * gset string);
  (** [_data.Pass._get_all()]: the registered passes, in registration order *)
  Pass_get_all : list Pass;
  (** [__eq__] (with [__hash__]) of [_data.Submission], as [set] uses it *)
  Submission_eq : Submission → Submission → bool;
  (** [_api.rank(subs, archive_subs, ignored_files, pass_, n=n)], given the
      store and [_api.Executor] *)
  api_rank : list Submission → Executor → list ref → list ref → gset string →
             Pass → Z → exc + Scores;
  (** [_api.compare(scores, ignored_files, pass_)], given the store (which
      the scores refer to) and [_api.Executor] *)
  api_compare : list Submission → Executor → Scores → gset string → Pass →
                exc + Results;
  (** [_renderer.render(pass_to_results, dest=dest)] *)
  renderer_render : list (Pass * Results) → Path → exc + Path;
  (** [args.output.exists()], and what is there *)
  output_entry : Path → option entry;
  (** the line [input] reads; [None] when it raises [EOFError] *)
  input_line : option string;
  (** [os.remove(path)]: [None] when it removes the file, [Some e] when it
      raises [e] ([IsADirectoryError] for a directory, on Linux) *)
  os_remove : Path → option exc;
  (** [shutil.rmtree(path)]: [None] when it removes the tree, [Some e]
      when it raises [e] *)
  shutil_rmtree : Path → option exc;
  (** [termcolor.colored(text, None, attrs=attrs)]: the text between the
      escape sequences of the attributes, or the text as it is when
      colours are switched off *)
  termcolor_colored : string → list string → string;
  (** [from line_profiler import LineProfiler]: [Some e] when the import
      raises [e] (the package is not installed with compare50) *)
  import_line_profiler : option exc;
  (** [int(time.time())] when [profile()] is entered *)
  time_time : Z;
  (** [open(outfile, "w")] and the printing of the statistics to the
      file: [Some e] when that raises [e] *)
  open_write : string → option exc;
  (** [os.getcwd()], an absolute path, which [path.absolute()] puts before
      a relative path *)
  getcwd : Path;
}.

(** [path.absolute()] *)
Definition Path_absolute (E : Env) (p : Path) : Path :=
  if Path_is_absolute p then p else getcwd E ++ p.

(** Modelled from the spec: the pass registry of [_data], "a name bound to a
    (comparator variant, ordered preprocessor list) pair, resolved from a
    static registry", of which "unknown name fails".  [Pass._get(name)] is
    the lookup of [name] among the registered passes and raises
    [KeyError(name)] when there is none. *)
Definition Pass_get (E : Env) (name : string) : exc + Pass :=
  match List.find (λ p, String.eqb (pass_name p) name) (Pass_get_all E) with
  | Some p => inr p
  | None => inl (mk_exc KeyError [PyStr name] None)
  end.

(** ** [SubmissionFactory._get] *)

(** The loop over [included]: the files that read as text, in the order
    met; a [UnicodeDecodeError] skips the file, any other exception leaves
    the loop. *)
Fixpoint decodable_files (E : Env) (path : Path) (included : list string)
  : exc + list string :=
  match included with
  | [] => inr []
  | file_path :: rest =>
      match open_read E (Path_join path file_path) with
      | Some e =>
          if isinstance e UnicodeDecodeError then decodable_files E path rest
          else inl e
      | None =>
          match decodable_files E path rest with
          | inr files => inr (file_path :: files)
          | inl e => inl e
          end
      end
  end.

(** The root of the submission and the files found: the file itself, below
    its parent, for a regular file; what [lib50.files] includes otherwise
    (a set, walked in the order [elements] gives). *)
Definition discover (E : Env) (self : SubmissionFactory) (path : Path)
  : exc + (Path * list string) :=
  if is_file E path then inr (Path_parent path, [Path_name path])
  else
    match lib50_files E (patterns self) path with
    | inr (included, excluded) => inr (path, elements included)
    | inl e => inl e
    end.

(** [sorted] on a list of [str]: by code points, which for the bytes of
    UTF-8 text is the order of [String.le]. *)
Definition sorted (l : list string) : list string := merge_sort String.le l.

Definition SubmissionFactory__get (E : Env) (self : SubmissionFactory)
    (path : Path) (preprocessor : Preprocessor) : exc + Submission :=
  match discover E self path with
  | inl e => inl e
  | inr (path, included) =>
      match decodable_files E path included with
      | inl e => inl e
      | inr [] => inl (Error ("Empty submission: " +:+ Path_str path))
      | inr files => inr (mk_Submission path (sorted files) preprocessor)
      end
  end.

(** ** The state of a run, and the monad of the driver *)

(** What a run does that is seen from outside, in the order it happens. *)
Inductive event :=
  | Output (o : output)
  | Input (prompt : string)                 (* input(prompt) *)
  | OsRemove (p : Path)                     (* os.remove *)
  | ShutilRmtree (p : Path)                 (* shutil.rmtree *)
  | ProfilerEnable                          (* profiler.enable_by_count() *)
  | ProfilerStats (outfile : string)        (* the statistics written to outfile *)
  | ProgressBar (message : string)          (* _api._ProgressBar(message) entered *)
  | ProgressUpdate (amount : Z)             (* progress_bar.update *)
  | ProgressNew (message : string)          (* progress_bar.new *)
  | ProgressExit                            (* the progress bar left *)
  | CallRank (objects : list Submission) (subs archive_subs : list ref)
             (ignored_files : gset string) (pass_ : Pass) (n : Z)
  | CallCompare (objects : list Submission) (scores : Scores)
                (ignored_files : gset string) (pass_ : Pass)
  | CallRender (pass_to_results : list (Pass * Results)) (dest : Path).

(** The mutable state: the store of submission objects, the function
    attribute [excepthook.verbose], the module attribute [_api.Executor],
    and the events so far (latest last). *)
Record state := mk_state {
  objects : list Submission;
  excepthook_verbose : bool;
  api_Executor : Executor;
  events : list event;
}.

(** How a call ends: it returns, it raises, or [sys.exit] ends the run
    ([SystemExit], which nothing in the driver catches). *)
Inductive outcome (A : Type) :=
  | Returns (a : A)
  | Raises (e : exc)
  | SysExit (code : Z).
Global Arguments Returns {A} a.
Global Arguments Raises {A} e.
Global Arguments SysExit {A} code.

Definition M (A : Type) : Type := state → outcome A * state.

Global Instance M_ret : MRet M := λ A a st, (Returns a, st).
Global Instance M_bind : MBind M := λ A B f m st,
  match m st with
  | (Returns a, st') => f a st'
  | (Raises e, st') => (Raises e, st')
  | (SysExit code, st') => (SysExit code, st')
  end.

Definition raise {A} (e : exc) : M A := λ st, (Raises e, st).
Definition sys_exit {A} (code : Z) : M A := λ st, (SysExit code, st).
Definition emit (ev : event) : M unit := λ st,
  (Returns (), mk_state (objects st) (excepthook_verbose st) (api_Executor st)
                        (events st ++ [ev])).
Definition set_verbose (b : bool) : M unit := λ st,
  (Returns (), mk_state (objects st) b (api_Executor st) (events st)).
Definition set_Executor (x : Executor) : M unit := λ st,
  (Returns (), mk_state (objects st) (excepthook_verbose st) x (events st)).
Definition set_objects (objs : list Submission) : M unit := λ st,
  (Returns (), mk_state objs (excepthook_verbose st) (api_Executor st) (events st)).
Definition get_state : M state := λ st, (Returns st, st).

(** A result of a collaborator, returned or raised. *)
Definition lift {A} (r : exc + A) : M A :=
  match r with
  | inr a => mret a
  | inl e => raise e
  end.

(** ** [SubmissionFactory.get_all] *)

(** [sub in subs], for a set [subs] of references into the store [objs]:
    some element of the set equals [sub]. *)
Definition set_mem (E : Env) (objs : list Submission) (sub : Submission)
    (subs : list ref) : bool :=
  existsb (λ r, match objs !! r with
                | Some sub' => Submission_eq E sub' sub
                | None => false
                end) subs.

(** [subs.add(sub)], for a submission just built: when the set holds an
    equal submission it is unchanged and the new object is dropped;
    otherwise the object enters the store and its reference the set.  The
    set is kept as the list of its elements in the order they were added. *)
Definition set_add (E : Env) (sub : Submission) (subs : list ref) : M (list ref) :=
  st ← get_state;
  if set_mem E (objects st) sub subs then mret subs
  else
    set_objects (objects st ++ [sub]);;
    mret (subs ++ [length (objects st)]).

(** The loop of [get_all], from the set [subs] built so far. *)
Fixpoint get_all_from (E : Env) (self : SubmissionFactory) (paths : list Path)
    (preprocessor : Preprocessor) (subs : list ref) : M (list ref) :=
  match paths with
  | [] => mret subs
  | sub_path :: rest =>
      match SubmissionFactory__get E self sub_path preprocessor with
      | inr sub =>
          subs' ← set_add E sub subs;
          get_all_from E self rest preprocessor subs'
      | inl e =>
          if isinstance e api_Error
          then get_all_from E self rest preprocessor subs
          else raise e
      end
  end.

Definition SubmissionFactory_get_all (E : Env) (self : SubmissionFactory)
    (paths : list Path) (preprocessor : Preprocessor) : M (list ref) :=
  get_all_from E self paths preprocessor [].

(** ** The command line *)

(** What [parse_args] read: for each option, the value given on the
    command line, or [None] when the option was not given; the [-i] and
    [-x] options in the order they were given, each with its patterns. *)
Record cmdline := mk_cmdline {
  cl_submissions : list Path;
  cl_archive : option (list Path);
  cl_distro : option (list Path);
  cl_passes : option (list string);
  cl_patterns : list (PatternType * list string);
  cl_output : option Path;
  cl_verbose : bool;
  cl_n : option Z;
  cl_profile : bool;
  cl_debug : bool;
}.

(** The namespace [args]. *)
Record Namespace := mk_Namespace {
  args_submissions : list Path;
  args_archive : list Path;
  args_distro : list Path;
  args_passes : list string;
  args_output : Path;
  args_verbose : bool;
  args_n : Z;
  args_profile : bool;
  args_debug : bool;
}.

(** The defaults of the [add_argument] calls. *)
Definition namespace_of (E : Env) (cl : cmdline) : Namespace :=
  mk_Namespace
    (cl_submissions cl)
    (default [] (cl_archive cl))
    (default [] (cl_distro cl))
    (default (pass_name <$> Pass_get_all E) (cl_passes cl))
    (default ["results"] (cl_output cl))
    (cl_verbose cl)
    (default 50 (cl_n cl))
    (cl_profile cl)
    (cl_debug cl).

(** [IncludeExcludeAction.__call__]: the callback on every value. *)
Definition IncludeExcludeAction_call (self : SubmissionFactory)
    (action : PatternType * list string) : SubmissionFactory :=
  foldl (λ self v,
           match action.1 with
           | Included => SubmissionFactory_include self v
           | Excluded => SubmissionFactory_exclude self v
           end) self action.2.

(** The factory once [parse_args] has run the [-i] and [-x] actions. *)
Definition factory_of (cl : cmdline) : SubmissionFactory :=
  foldl IncludeExcludeAction_call SubmissionFactory_init (cl_patterns cl).

(** ** [main] *)

(** The list comprehension [[_data.Pass._get(pass_) for pass_ in args.passes]] *)
Fixpoint get_passes (E : Env) (names : list string) : exc + list Pass :=
  match names with
  | [] => inr []
  | name :: rest =>
      match Pass_get E name with
      | inl e => inl e
      | inr pass_ =>
          match get_passes E rest with
          | inl e => inl e
          | inr passes => inr (pass_ :: passes)
          end
      end
  end.

Definition not_a_pass (E : Env) (name : string) : string :=
  name +:+ " is not a pass, try one of these: "
       +:+ py_str_list (pass_name <$> Pass_get_all E).

(** Lines 239-243: the passes, or the error that names the unknown pass. *)
Definition resolve_passes (E : Env) (names : list string) : M (list Pass) :=
  match get_passes E names with
  | inr passes => mret passes
  | inl e =>
      if isinstance e KeyError then
        match exc_args e with
        | name :: _ => raise (Error (not_a_pass E (py_str name)))
        | [] => raise (mk_exc IndexError [PyStr "tuple index out of range"] None)
        end
      else raise e
  end.

(** [not resp or resp.lower().startswith("y")] *)
Definition accepted (resp : string) : bool :=
  match resp with
  | EmptyString => true
  | String c _ =>
      bool_decide (String c EmptyString = "y") || bool_decide (String c EmptyString = "Y")
  end.

(** The question of line 258, with the path underlined. *)
Definition removal_question (E : Env) (output : Path) : string :=
  "File path " +:+ termcolor_colored E (Path_str output) ["underline"] +:+
  " already exists. Do you want to remove it? [Y/n] ".

(** Lines 265-268: [os.remove], and [shutil.rmtree] when that raises
    [IsADirectoryError]; any other exception is raised further. *)
Definition remove_output (E : Env) (output : Path) : M unit :=
  emit (OsRemove output);;
  match os_remove E output with
  | None => mret ()
  | Some e =>
      if isinstance e IsADirectoryError then
        emit (ShutilRmtree output);;
        match shutil_rmtree E output with
        | None => mret ()
        | Some e' => raise e'
        end
      else raise e
  end.

(** Lines 256-271: when something is at [args.output] the user is asked;
    it is removed when the user agrees, and the run ends with code 1
    otherwise. *)
Definition clear_output (E : Env) (output : Path) : M unit :=
  match output_entry E output with
  | None => mret ()
  | Some _ =>
      emit (Input (removal_question E output));;
      resp ← match input_line E with
             | Some line => mret line
             | None => emit (Output (PyPrint EmptyString));; mret "n"
             end;
      if accepted resp then remove_output E output
      else
        emit (Output (PyPrint "Quitting..."));;
        sys_exit 1
  end.

(** Leaving a [with] block or a [try] with [finally]: [leave] runs however
    [body] ends; the block ends as [body] did when [leave] returns, and as
    [leave] does otherwise. *)
Definition leaving {A} (body : M A) (leave : M unit) : M A := λ st,
  let (o, st') := body st in
  match leave st' with
  | (Returns _, st'') => (o, st'')
  | (Raises e, st'') => (Raises e, st'')
  | (SysExit code, st'') => (SysExit code, st'')
  end.

(** [profile()], lines 152-169.  The file of the statistics is named
    after the time of entry. *)
Definition profile_outfile (E : Env) : string :=
  "compare50_profile_" +:+ pretty (time_time E) +:+ ".txt".

(** Up to [yield]: the import of [line_profiler], which may fail, and the
    start of the profiler. *)
Definition profile_enter (E : Env) : M unit :=
  match import_line_profiler E with
  | Some e => raise e
  | None => emit ProfilerEnable
  end.

(** The [finally] clause: the statistics are written and the file is
    announced. *)
Definition profile_exit (E : Env) : M unit :=
  match open_write E (profile_outfile E) with
  | Some e => raise e
  | None =>
      emit (ProfilerStats (profile_outfile E));;
      emit (Output (Cprint ("Profiling data written to " +:+ profile_outfile E)
                           "yellow" stdout))
  end.

(** [with profiler(), _api._ProgressBar("Preparing") as _api.progress_bar]:
    the profiler is entered first, then the progress bar, which is not
    entered when the profiler fails to start; the progress bar is left
    first, then the profiler, which writes its statistics;
    [contextlib.suppress()] does nothing. *)
Definition enter_with (E : Env) (profiling : bool) : M unit :=
  (if profiling then profile_enter E else mret ());;
  emit (ProgressBar "Preparing").

Definition leave_with (E : Env) (profiling : bool) : M unit :=
  emit ProgressExit;;
  if profiling then profile_exit E else mret ().

Definition with_profiler_progress {A} (E : Env) (profiling : bool) (body : M A)
  : M A :=
  enter_with E profiling;;
  leaving body (leave_with E profiling).

(** [{f for sub in ignored_subs for f in sub.files}] *)
Definition files_of (objs : list Submission) (subs : list ref) : gset string :=
  list_to_set (flat_map (λ r, match objs !! r with
                              | Some sub => sub_files sub
                              | None => []
                              end) subs).

(** Lines 297-298: every submission of the three sets gets the pass's
    preprocessor, in place. *)
Definition set_preprocessors (preprocessor : Preprocessor) (subs : list ref)
    (objs : list Submission) : list Submission :=
  foldl (λ objs r, alter (setattr_preprocessor preprocessor) r objs) objs subs.

(** [pass_to_results[pass_] = results]: a dict keeps its keys in the order
    they were first set.  The keys are passes of the registry, which holds
    one pass per name. *)
Fixpoint dict_set (d : list (Pass * Results)) (pass_ : Pass) (results : Results)
  : list (Pass * Results) :=
  match d with
  | [] => [(pass_, results)]
  | (k, v) :: d' =>
      if String.eqb (pass_name k) (pass_name pass_) then (k, results) :: d'
      else (k, v) :: dict_set d' pass_ results
  end.

(** [pass_to_results[pass_]] *)
Fixpoint dict_get (d : list (Pass * Results)) (pass_ : Pass) : option Results :=
  match d with
  | [] => None
  | (k, v) :: d' =>
      if String.eqb (pass_name k) (pass_name pass_) then Some v
      else dict_get d' pass_
  end.

Definition call_rank (E : Env) (subs archive_subs : list ref)
    (ignored_files : gset string) (pass_ : Pass) (n : Z) : M Scores :=
  st ← get_state;
  emit (CallRank (objects st) subs archive_subs ignored_files pass_ n);;
  lift (api_rank E (objects st) (api_Executor st) subs archive_subs
                 ignored_files pass_ n).

Definition call_compare (E : Env) (scores : Scores)
    (ignored_files : gset string) (pass_ : Pass) : M Results :=
  st ← get_state;
  emit (CallCompare (objects st) scores ignored_files pass_);;
  lift (api_compare E (objects st) (api_Executor st) scores ignored_files pass_).

Definition call_render (E : Env) (pass_to_results : list (Pass * Results))
    (dest : Path) : M Path :=
  emit (CallRender pass_to_results dest);;
  lift (renderer_render E pass_to_results dest).

(** Lines 294-299: the loop over the passes. *)
Fixpoint compare_passes (E : Env) (passes : list Pass) (all_subs : list ref)
    (scores : Scores) (ignored_files : gset string)
    (pass_to_results : list (Pass * Results)) : M (list (Pass * Results)) :=
  match passes with
  | [] => mret pass_to_results
  | pass_ :: rest =>
      emit (ProgressNew ("Comparing (" +:+ pass_name pass_ +:+ ")"));;
      let preprocessor := mk_Preprocessor (pass_preprocessors pass_) in
      st ← get_state;
      set_objects (set_preprocessors preprocessor all_subs (objects st));;
      results ← call_compare E scores ignored_files pass_;
      compare_passes E rest all_subs scores ignored_files
                     (dict_set pass_to_results pass_ results)
  end.

Definition too_few : string :=
  "At least two non-empty submissions are required for a comparison.".

(** Lines 277-282: the three sets of submissions and the ignored files. *)
Definition collect (E : Env) (submission_factory : SubmissionFactory)
    (args : Namespace) (preprocessor : Preprocessor)
  : M (list ref * list ref * list ref * gset string) :=
  subs ← SubmissionFactory_get_all E submission_factory
           (args_submissions args) preprocessor;
  emit (ProgressUpdate 33);;
  archive_subs ← SubmissionFactory_get_all E submission_factory
                   (args_archive args) preprocessor;
  emit (ProgressUpdate 33);;
  ignored_subs ← SubmissionFactory_get_all E submission_factory
                   (args_distro args) preprocessor;
  st ← get_state;
  mret (subs, archive_subs, ignored_subs, files_of (objects st) ignored_subs).

(** Lines 287-303: ranking by the first pass, comparing by every pass,
    rendering. *)
Definition rank_compare_render (E : Env) (args : Namespace)
    (passes : list Pass) (first : Pass)
    (subs archive_subs ignored_subs : list ref) (ignored_files : gset string)
  : M Path :=
  emit (ProgressNew ("Scoring (" +:+ pass_name first +:+ ")"));;
  scores ← call_rank E subs archive_subs ignored_files first (args_n args);
  pass_to_results ← compare_passes E passes
                      (subs ++ archive_subs ++ ignored_subs)
                      scores ignored_files [];
  emit (ProgressNew "Rendering");;
  call_render E pass_to_results (args_output args).

(** Lines 276-303: the body of the [with] statement. *)
Definition main_body (E : Env) (submission_factory : SubmissionFactory)
    (args : Namespace) (passes : list Pass) (first : Pass)
    (preprocessor : Preprocessor) : M Path :=
  collected ← collect E submission_factory args preprocessor;
  let '(subs, archive_subs, ignored_subs, ignored_files) := collected in
  if bool_decide (length subs + length archive_subs < 2)%nat then
    raise (Error too_few)
  else
    rank_compare_render E args passes first
                        subs archive_subs ignored_subs ignored_files.

(** Lines 235-271: the verbosity of the hook, the passes and the first
    of them, the executor, the output path. *)
Definition main_setup (E : Env) (args : Namespace) : M (list Pass * Pass) :=
  set_verbose (args_verbose args);;
  passes ← resolve_passes E (args_passes args);
  match passes with
  | [] => raise (mk_exc IndexError [PyStr "list index out of range"] None)
  | first :: _ =>
      let debug := args_profile args || args_debug args in
      (if debug then set_Executor FauxExecutor else mret ());;
      clear_output E (args_output args);;
      mret (passes, first)
  end.

(** [main()], from the command line that [parse_args] read. *)
Definition main (E : Env) (cl : cmdline) : M unit :=
  let submission_factory := factory_of cl in
  let args := namespace_of E cl in
  ready ← main_setup E args;
  let '(passes, first) := ready in
  let preprocessor := mk_Preprocessor (pass_preprocessors first) in
  index ← with_profiler_progress E (args_profile args)
            (main_body E submission_factory args passes first preprocessor);
  emit (Output (Cprint ("Done! Visit file://" +:+
                        Path_str (Path_absolute E index) +:+
                        " in a web browser to see the results.")
                       "green" stdout)).

(** ** The process *)

Definition initial_state : state := mk_state [] true PoolExecutor [].

(** What [parse_args] does with the command line: it reports a usage
    error through [ArgParser.error], it ends the run itself ([--list],
    [--version], [--help]), or it returns the options read. *)
Inductive parsed :=
  | UsageError (message : string)
  | ParserExit
  | Parsed (cl : cmdline).

(** The run of the program: what it wrote and did, and the exit code of
    the process.  When [main] returns the code is 0.  A [SystemExit] ends
    the process with its code: the one of [sys.exit(code)] in [main], or
    what [handle_system_exit] makes of a [SystemExit] that a collaborator
    raised; the hook is not called.  For any other exception the
    interpreter calls the hook, and ends the process with code 1 when the
    hook returns instead of ending in [sys.exit]. *)
Definition run (E : Env) (p : parsed) : list event * option Z :=
  match p with
  | UsageError message =>
      let (out, code) := ArgParser_error message in (Output <$> out, code)
  | ParserExit => ([], Some 0)
  | Parsed cl =>
      match main E cl initial_state with
      | (Returns _, st) => (events st, Some 0)
      | (SysExit code, st) => (events st, Some code)
      | (Raises e, st) =>
          if isinstance e SystemExit then
            let (out, code) := handle_system_exit e in
            (events st ++ (Output <$> out), Some code)
          else
            let (out, code) := excepthook (excepthook_verbose st) (exc_type e) e in
            (events st ++ (Output <$> out), Some (default 1 code))
      end
  end.

End Driver.

(** ** A sample run

    Five submission paths, one of them a distribution: [alice] holds a
    source file and an image that does not decode, [bob] two source files,
    [empty] only a binary; [carol.py] is a regular file; [distro] holds
    the distribution code.  Any other path does not exist.  Three passes
    are registered. *)

Definition sample_structure : @Pass (list nat) :=
  mk_Pass "structure" (Some "Compares code structure") [@tail nat; @rev nat].

Definition sample_text : @Pass (list nat) := mk_Pass "text" None [@rev nat].

Definition sample_exact : @Pass (list nat) := mk_Pass "exact" None [].

Definition sample_passes : list (@Pass (list nat)) :=
  [sample_structure; sample_text; sample_exact].

Definition sample_undecodable : exc :=
  mk_exc UnicodeDecodeError [PyStr "utf-8"; PyStr "invalid start byte"] None.

(** [line_profiler] is not installed. *)
Definition sample_no_profiler : exc :=
  mk_exc (UserClass "ModuleNotFoundError" (UserClass "ImportError" Exception))
         [PyStr "No module named 'line_profiler'"] None.

Definition sample_env : @Env (list nat) (list (ref * ref * Z)) nat :=
  mk_Env
    (λ p, bool_decide (p = ["carol.py"]))
    (λ p, if bool_decide (p ∈ [["alice"; "logo.png"]; ["empty"; "a.bin"]])
          then Some sample_undecodable else None)
    (λ _ root,
       if bool_decide (root = ["alice"]) then inr ({["hello.py"; "logo.png"]}, ∅)
       else if bool_decide (root = ["bob"]) then inr ({["util.py"; "hello.py"]}, ∅)
       else if bool_decide (root = ["empty"]) then inr ({["a.bin"]}, ∅)
       else if bool_decide (root = ["distro"]) then inr ({["util.py"]}, ∅)
       else inl (mk_exc FileNotFoundError [PyInt 2; PyStr "No such file or directory"]
                        (Some (Path_str root))))
    sample_passes
    (λ a b, bool_decide (sub_path a = sub_path b ∧ sub_files a = sub_files b))
    (λ objs _ subs archive_subs _ _ n, inr [(0%nat, 1%nat, n)])
    (λ objs _ _ _ pass_, inr (length (pass_preprocessors pass_)))
    (λ _ dest, inr (dest ++ ["index.html"]))
    (λ _, None)
    None
    (λ _, None)
    (λ _, None)
    (λ text _, text)
    (Some sample_no_profiler)
    1700000000
    (λ _, None)
    ["/"; "home"; "cs50"].

(** [compare50 alice bob empty alice carol.py -d distro -p structure text -x "*.md"] *)
Definition sample_cl : cmdline :=
  mk_cmdline [["alice"]; ["bob"]; ["empty"]; ["alice"]; ["carol.py"]]
             None (Some [["distro"]]) (Some ["structure"; "text"])
             [(Excluded, ["*.md"])] None false None false false.

(** The store of the sample run when [rank] is called, and the files of
    its distribution. *)
Definition sample_built : list (@Submission (list nat)) :=
  let pre := mk_Preprocessor (pass_preprocessors sample_structure) in
  [ mk_Submission ["alice"] ["hello.py"] pre;
    mk_Submission ["bob"] ["hello.py"; "util.py"] pre;
    mk_Submission [] ["carol.py"] pre;
    mk_Submission ["distro"] ["util.py"] pre ].

Definition sample_ignored : gset string := {["util.py"]}.

(** [compare50 alice empty] *)
Definition few_cl : cmdline :=
  mk_cmdline [["alice"]; ["empty"]] None None None [] None false None false false.

(** [compare50 alice bob -p structure txt -v] *)
Definition wrong_pass_cl : cmdline :=
  mk_cmdline [["alice"]; ["bob"]] None None (Some ["structure"; "txt"]) []
             None true None false false.

(** [compare50 alice nope bob -n 10] *)
Definition missing_cl : cmdline :=
  mk_cmdline [["alice"]; ["nope"]; ["bob"]] None None None [] None false (Some 10)
             false false.

(** The sample with a directory at [results], the default of [-o], and
    the reply read from the terminal. *)
Definition sample_env_results (reply : option string)
  : @Env (list nat) (list (ref * ref * Z)) nat :=
  mk_Env (is_file sample_env) (open_read sample_env) (lib50_files sample_env)
         (Pass_get_all sample_env) (Submission_eq sample_env)
         (api_rank sample_env) (api_compare sample_env)
         (renderer_render sample_env)
         (λ p, if bool_decide (p = ["results"]) then Some Directory else None)
         reply
         (λ p, Some (mk_exc IsADirectoryError [PyInt 21; PyStr "Is a directory"]
                            (Some (Path_str p))))
         (λ _, None)
         (termcolor_colored sample_env) (import_line_profiler sample_env)
         (time_time sample_env) (open_write sample_env) (getcwd sample_env).

(** The sample in which [bob/util.py] may not be read. *)
Definition sample_denied : exc :=
  mk_exc PermissionError [PyInt 13; PyStr "Permission denied"] (Some "bob/util.py").

Definition sample_env_locked : @Env (list nat) (list (ref * ref * Z)) nat :=
  mk_Env (is_file sample_env)
         (λ p, if bool_decide (p = ["bob"; "util.py"]) then Some sample_denied
               else open_read sample_env p)
         (lib50_files sample_env)
         (Pass_get_all sample_env) (Submission_eq sample_env)
         (api_rank sample_env) (api_compare sample_env)
         (renderer_render sample_env) (output_entry sample_env)
         (input_line sample_env) (os_remove sample_env)
         (shutil_rmtree sample_env) (termcolor_colored sample_env)
         (import_line_profiler sample_env) (time_time sample_env)
         (open_write sample_env) (getcwd sample_env).

(** A stand-in for [textwrap.wrap] in the sample: one line, cut at the
    width. *)
Fixpoint take_chars (n : nat) (s : string) : string :=
  match n, s with
  | S n', String c s' => String c (take_chars n' s')
  | _, _ => EmptyString
  end.

Definition sample_wrap (text : string) (width : nat) : list string :=
  [take_chars width text].

(** The dict of the sample run: [compare] returns, in the sample, the
    number of preprocessors of the pass. *)
Definition sample_results : list (@Pass (list nat) * nat) :=
  [(sample_structure, 2%nat); (sample_text, 1%nat)].

(** A class derived from [FileNotFoundError]. *)
Definition sample_missing_class : pyclass :=
  UserClass "ConfigNotFound" FileNotFoundError.

(** [compare50 alice bob --profile] *)
Definition profile_cl : cmdline :=
  mk_cmdline [["alice"]; ["bob"]] None None None [] None false None true false.

(** ** Three sentences of the specification that the code does not meet *)

(** [get_all] returns a set whatever the paths: every path that fails is
    dropped. *)
Definition drops_every_failing_path {Tokens Scores Results : Type}
    (E : @Env Tokens Scores Results) : Prop :=
  ∀ self paths preprocessor st,
    ∃ subs st',
      SubmissionFactory_get_all E self paths preprocessor st = (Returns subs, st').

(** The hook has two ways to report: the message of a domain error that
    carries one, the fixed message for every other exception; it prints
    the traceback exactly in verbose mode and always exits with code 1. *)
Definition reports_in_two_classes : Prop :=
  ∀ (verbose : bool) (cls : pyclass) (e : exc),
    let domain := (issubclass cls api_Error || issubclass cls lib50_Error)
                  && negb (bool_decide (exc_args e = [])) in
    excepthook verbose cls e =
      ([Cprint (if domain then exc_str e else sorry_message) "red" stderr]
         ++ (if verbose then [PrintException cls e] else []),
       Some 1).

(** The submissions that [compare] is given are, field by field, the
    submissions as [rank] was given them: nothing was assigned to since. *)
Definition submissions_never_assigned {Tokens Scores Results : Type}
    (evs : list (@event Tokens Scores Results)) : Prop :=
  ∀ built subs archive_subs ignored_files first n
    seen scores ignored_files' pass_,
    CallRank built subs archive_subs ignored_files first n ∈ evs →
    CallCompare seen scores ignored_files' pass_ ∈ evs →
    seen = built.

(** ** Vocabulary of the properties *)

Section Vocabulary.

Context {Tokens Scores Results : Type}.

(** The submissions that a set of references holds, read from the store. *)
Definition deref (objs : list (@Submission Tokens)) (subs : list ref)
  : list Submission :=
  omap (λ r, objs !! r) subs.

(** The submissions that [get_all] adds to a set holding [held]: the
    submission of each path that builds, unless an equal one is held
    already. *)
Fixpoint kept (E : @Env Tokens Scores Results) (self : SubmissionFactory)
    (preprocessor : Preprocessor) (paths : list Path) (held : list Submission)
  : list Submission :=
  match paths with
  | [] => []
  | path :: rest =>
      match SubmissionFactory__get E self path preprocessor with
      | inr sub =>
          if existsb (λ sub', Submission_eq E sub' sub) held
          then kept E self preprocessor rest held
          else sub :: kept E self preprocessor rest (held ++ [sub])
      | inl _ => kept E self preprocessor rest held
      end
  end.

Definition is_rank (ev : @event Tokens Scores Results) : bool :=
  match ev with CallRank _ _ _ _ _ _ => true | _ => false end.

Definition is_compare (ev : @event Tokens Scores Results) : bool :=
  match ev with CallCompare _ _ _ _ => true | _ => false end.

Definition is_render (ev : @event Tokens Scores Results) : bool :=
  match ev with CallRender _ _ => true | _ => false end.

Definition is_call (ev : @event Tokens Scores Results) : bool :=
  is_rank ev || is_compare ev || is_render ev.

(** The calls to the three collaborators among the events. *)
Definition calls (evs : list (@event Tokens Scores Results)) : list event :=
  List.filter is_call evs.

(** An event that is no call to a collaborator. *)
Definition no_call (ev : @event Tokens Scores Results) : Prop :=
  is_call ev = false.

(** A computation that leaves [excepthook.verbose] as it is and whose
    events all satisfy [Q], however it ends. *)
Definition steady (Q : @event Tokens Scores Results → Prop) {A} (m : M A) : Prop :=
  ∀ st, excepthook_verbose (m st).2 = excepthook_verbose st
        ∧ ∃ new, events (m st).2 = events st ++ new ∧ Forall Q new.

(** A call to [compare] as the loop over [passes] makes it, from the
    store [built]: the submissions of [all_subs] carry the preprocessor of
    the pass compared; no other call is made. *)
Definition compare_as_driven (built : list (@Submission Tokens))
    (all_subs : list ref) (scores : Scores) (ignored_files : gset string)
    (passes : list Pass) (ev : @event Tokens Scores Results) : Prop :=
  match ev with
  | CallCompare seen scores' ignored_files' pass_ =>
      seen = set_preprocessors (mk_Preprocessor (pass_preprocessors pass_))
                               all_subs built
      ∧ scores' = scores ∧ ignored_files' = ignored_files ∧ pass_ ∈ passes
  | CallRank _ _ _ _ _ _ | CallRender _ _ => False
  | _ => True
  end.

(** A call as lines 287-303 make it, from the store [built]: [rank] is
    given the store as built, the two sets, the first pass and [n];
    [compare] is given the scores of [rank] and the store in which the
    submissions of the three sets carry the preprocessor of its pass. *)
Definition call_as_driven (E : @Env Tokens Scores Results)
    (built : list Submission) (executor : Executor)
    (subs archive_subs ignored_subs : list ref) (ignored_files : gset string)
    (passes : list Pass) (first : Pass) (n : Z)
    (ev : @event Tokens Scores Results) : Prop :=
  match ev with
  | CallRank seen subs' archive_subs' ignored_files' pass_ n' =>
      seen = built ∧ subs' = subs ∧ archive_subs' = archive_subs
      ∧ ignored_files' = ignored_files ∧ pass_ = first ∧ n' = n
  | CallCompare seen scores ignored_files' pass_ =>
      seen = set_preprocessors (mk_Preprocessor (pass_preprocessors pass_))
                               (subs ++ archive_subs ++ ignored_subs) built
      ∧ api_rank E built executor subs archive_subs ignored_files first n
        = inr scores
      ∧ ignored_files' = ignored_files ∧ pass_ ∈ passes
  | _ => True
  end.

(** The same state with other objects. *)
Definition with_objects (objs : list Submission)
    (st : @state Tokens Scores Results) : state :=
  mk_state objs (excepthook_verbose st) (api_Executor st) (events st).

(** No submission of the list equals one that stands before it. *)
Definition fresh_each (E : @Env Tokens Scores Results) (l : list Submission)
  : Prop :=
  ∀ i j a b, l !! i = Some a → l !! j = Some b → (i < j)%nat →
             Submission_eq E a b = false.

(** The names of the registered passes. *)
Definition registered (E : @Env Tokens Scores Results) : list string :=
  pass_name <$> Pass_get_all E.

End Vocabulary.

(** ** [ListAction] and the kinds of events *)

Section Listing.

Context {Tokens Scores Results : Type}.

(** [" " * 4] *)
Definition indentation : string := "    ".

(** [pass_.__doc__ or "No description provided"]: a pass without a
    docstring, or with an empty one, gets the default. *)
Definition doc_or_default (pass_ : @Pass Tokens) : string :=
  match pass_doc pass_ with
  | Some (String c s) => String c s
  | Some EmptyString | None => "No description provided"
  end.

(** [ListAction.__call__], given [textwrap.wrap] (text and width to
    lines): what it prints, and the exit code of [parser.exit()]. *)
Definition ListAction_call (wrap : string → nat → list string)
    (E : @Env Tokens Scores Results) : list output * option Z :=
  (flat_map (λ pass_,
       PyPrint (pass_name pass_)
       :: ((λ line, PyPrint (indentation +:+ line))
             <$> wrap (doc_or_default pass_) (80 - String.length indentation)%nat))
     (Pass_get_all E),
   Some 0).

(** The events of lines 256-271: the prompt, what [print] writes, the
    removal of what is at [args.output]. *)
Definition setup_event (ev : @event Tokens Scores Results) : bool :=
  match ev with
  | Input _ | OsRemove _ | ShutilRmtree _ | Output (PyPrint _) => true
  | _ => false
  end.

(** The events of the body of the [with] statement. *)
Definition body_event (ev : @event Tokens Scores Results) : bool :=
  match ev with
  | ProgressUpdate _ | ProgressNew _
  | CallRank _ _ _ _ _ _ | CallCompare _ _ _ _ | CallRender _ _ => true
  | _ => false
  end.

(** The state with more events. *)
Definition add_events (evs : list (@event Tokens Scores Results))
    (st : @state Tokens Scores Results) : state :=
  mk_state (objects st) (excepthook_verbose st) (api_Executor st) (events st ++ evs).

(** The question asked when [args.output] exists. *)
Definition prompt (E : @Env Tokens Scores Results) (output : Path)
  : @event Tokens Scores Results :=
  Input (removal_question E output).

(** The calls of lines 265-268: [os.remove], and [shutil.rmtree] when
    that raised [IsADirectoryError]. *)
Definition removal (E : @Env Tokens Scores Results) (output : Path)
  : list (@event Tokens Scores Results) :=
  OsRemove output ::
  match os_remove E output with
  | Some e => if isinstance e IsADirectoryError then [ShutilRmtree output] else []
  | None => []
  end.

(** What lines 265-268 raise, if anything. *)
Definition removal_error (E : @Env Tokens Scores Results) (output : Path)
  : option exc :=
  match os_remove E output with
  | Some e => if isinstance e IsADirectoryError then shutil_rmtree E output
              else Some e
  | None => None
  end.

(** What lines 256-271 do when the user agrees: nothing when nothing is
    at [args.output]; the question and the removal otherwise. *)
Definition cleared (E : @Env Tokens Scores Results) (output : Path)
  : list (@event Tokens Scores Results) :=
  match output_entry E output with
  | None => []
  | Some _ => prompt E output :: removal E output
  end.

(** What the start of the profiler raises with [--profile], and what the
    writing of its statistics raises, if anything. *)
Definition profiler_error (E : @Env Tokens Scores Results) (profiling : bool)
  : option exc :=
  if profiling then import_line_profiler E else None.

Definition statistics_error (E : @Env Tokens Scores Results) (profiling : bool)
  : option exc :=
  if profiling then open_write E (profile_outfile E) else None.

(** What entering and leaving the [with] statement adds to the events
    when nothing fails, and the last message of a run. *)
Definition enter_events (profiling : bool) : list (@event Tokens Scores Results) :=
  (if profiling then [ProfilerEnable] else []) ++ [ProgressBar "Preparing"].

Definition statistics_events (E : @Env Tokens Scores Results) (profiling : bool)
  : list (@event Tokens Scores Results) :=
  if profiling then
    [ProfilerStats (profile_outfile E);
     Output (Cprint ("Profiling data written to " +:+ profile_outfile E)
                    "yellow" stdout)]
  else [].

Definition leave_events (E : @Env Tokens Scores Results) (profiling : bool)
  : list (@event Tokens Scores Results) :=
  ProgressExit :: statistics_events E profiling.

Definition done_event (E : @Env Tokens Scores Results) (index : Path)
  : @event Tokens Scores Results :=
  Output (Cprint ("Done! Visit file://" +:+ Path_str (Path_absolute E index) +:+
                  " in a web browser to see the results.") "green" stdout).

(** A computation that never ends in [sys.exit]. *)
Definition never_exits {A} (m : @M Tokens Scores Results A) : Prop :=
  ∀ st code, (m st).1 ≠ SysExit code.

End Listing.


(** The traceback the hook adds in verbose mode. *)
Definition traceback (verbose : bool) (cls : pyclass) (e : exc) : list output :=
  if verbose then [PrintException cls e] else [].

(** * Properties *)

(** ** Classes and the exception hook *)

(** The hook, case by case: a domain error that carries a message is
    reported by that message; [FileNotFoundError] itself by the name of
    the file; any other [Exception], and [KeyboardInterrupt], by the fixed
    message; each of these is followed by the traceback exactly in verbose
    mode, and by [sys.exit(1)].  Any other [BaseException] is let go:
    nothing is written and the hook returns. *)
Lemma excepthook_cases (verbose : bool) (cls : pyclass) (e : exc) :
  let domain := (issubclass cls api_Error || issubclass cls lib50_Error)
                && negb (bool_decide (exc_args e = [])) in
  (domain = true →
     excepthook verbose cls e =
       (Cprint (exc_str e) "red" stderr :: traceback verbose cls e, Some 1))
  ∧ (domain = false → cls = FileNotFoundError →
     excepthook verbose cls e =
       (Cprint (py_format_opt (exc_filename e) +:+ " not found") "red" stderr
          :: traceback verbose cls e, Some 1))
  ∧ (domain = false → cls ≠ FileNotFoundError →
     issubclass cls Exception || isinstance e KeyboardInterrupt = true →
     excepthook verbose cls e =
       (Cprint sorry_message "red" stderr :: traceback verbose cls e, Some 1))
  ∧ (domain = false → cls ≠ FileNotFoundError →
     issubclass cls Exception || isinstance e KeyboardInterrupt = false →
     excepthook verbose cls e = ([], None)).
Proof.
  intros domain. unfold excepthook. fold domain.
  repeat split; intros; repeat case_bool_decide; subst; try done;
    destruct domain; try done;
    destruct (issubclass cls Exception), (isinstance e KeyboardInterrupt);
    simpl in *; done.
Qed.

Lemma excepthook_reported (verbose : bool) (cls : pyclass) (e : exc) :
  issubclass cls Exception || isinstance e KeyboardInterrupt = true →
  (excepthook verbose cls e).2 = Some 1.
Proof.
  unfold excepthook. intros H.
  destruct (issubclass cls Exception), (isinstance e KeyboardInterrupt);
    try discriminate; simpl;
    repeat (match goal with |- context [if ?b then _ else _] => destruct b end);
    reflexivity.
Qed.

(** ** [SubmissionFactory._get] *)

Section Get.

Context {Tokens Scores Results : Type}.
Variable E : @Env Tokens Scores Results.

(** The files kept by the loop are the files that read as text, in the
    order met; the loop ends normally only if every other file raised a
    decoding error. *)
Lemma decodable_files_inr (root : Path) (included files : list string) :
  decodable_files E root included = inr files →
  sublist files included
  ∧ (∀ f, f ∈ files ↔ f ∈ included ∧ open_read E (Path_join root f) = None)
  ∧ (∀ f e, f ∈ included → open_read E (Path_join root f) = Some e →
            isinstance e UnicodeDecodeError = true).
Proof.
  revert files. induction included as [|f0 rest IH]; simpl; intros files H.
  - injection H as <-. split; [constructor|]. split; [|intros ?? Hin; inversion Hin].
    intros f. split; [intros Hin; inversion Hin | intros [Hin _]; inversion Hin].
  - destruct (open_read E (Path_join root f0)) as [e0|] eqn:Hread.
    + destruct (isinstance e0 UnicodeDecodeError) eqn:Hdec; [|discriminate].
      destruct (IH _ H) as (Hsub & Hiff & Hexc).
      split; [by apply sublist_cons|]. split.
      * intros f. rewrite Hiff, elem_of_cons. split; [tauto|].
        intros [[->|?] Hnone]; [congruence | tauto].
      * intros f e [->|Hin]%elem_of_cons Hf; [congruence | eauto].
    + destruct (decodable_files E root rest) as [e|files'] eqn:Hrest; [discriminate|].
      injection H as <-. destruct (IH _ eq_refl) as (Hsub & Hiff & Hexc).
      split; [by apply sublist_skip|]. split.
      * intros f. rewrite !elem_of_cons, Hiff. split; [|tauto].
        intros [->|?]; tauto.
      * intros f e [->|Hin]%elem_of_cons Hf; [congruence | eauto].
Qed.

(** Conversely the loop ends normally when nothing but decoding errors is
    raised. *)
Lemma decodable_files_returns (root : Path) (included : list string) :
  (∀ f e, f ∈ included → open_read E (Path_join root f) = Some e →
          isinstance e UnicodeDecodeError = true) →
  ∃ files, decodable_files E root included = inr files.
Proof.
  induction included as [|f0 rest IH]; simpl; intros H; [eauto|].
  destruct IH as [files Hfiles].
  { intros f e Hin. apply H. by right. }
  rewrite Hfiles.
  destruct (open_read E (Path_join root f0)) as [e0|] eqn:Hread; [|eauto].
  rewrite (H f0 e0); [eauto | by left | done].
Qed.

(** The files found under a submission path hold no duplicate. *)
Lemma discover_NoDup (self : SubmissionFactory) (path root : Path)
    (included : list string) :
  discover E self path = inr (root, included) → NoDup included.
Proof.
  unfold discover. destruct (is_file E path).
  - intros [= <- <-]. apply NoDup_singleton.
  - destruct (lib50_files E (patterns self) path) as [e|[inc exc']]; [discriminate|].
    intros [= <- <-]. apply NoDup_elements.
Qed.

Lemma sorted_Permutation (l : list string) : sorted l ≡ₚ l.
Proof. apply merge_sort_Permutation. Qed.

Lemma sorted_StronglySorted (l : list string) : StronglySorted String.le (sorted l).
Proof. apply (StronglySorted_merge_sort String.le). Qed.

(** What [_get] returns, read off its three steps. *)
Lemma get_inr (self : SubmissionFactory) (path : Path)
    (preprocessor : Preprocessor) (sub : Submission) :
  SubmissionFactory__get E self path preprocessor = inr sub →
  ∃ root included files,
    discover E self path = inr (root, included)
    ∧ decodable_files E root included = inr files
    ∧ files ≠ []
    ∧ sub = mk_Submission root (sorted files) preprocessor.
Proof.
  unfold SubmissionFactory__get.
  destruct (discover E self path) as [e|[root included]]; [discriminate|].
  destruct (decodable_files E root included) as [e|[|f files]] eqn:Hfiles;
    try discriminate.
  intros [= <-]. by exists root, included, (f :: files).
Qed.

(** C7. The file list of a submission that [_get] builds holds exactly the
    files found under the path that read as text, so none of those that
    raise a decoding error; it is sorted and without duplicates. *)
Theorem get_files_sorted_decodable (self : SubmissionFactory) (path : Path)
    (preprocessor : Preprocessor) (sub : Submission) :
  SubmissionFactory__get E self path preprocessor = inr sub →
  ∃ root included,
    discover E self path = inr (root, included)
    ∧ sub_path sub = root
    ∧ (∀ f, f ∈ sub_files sub ↔
            f ∈ included ∧ open_read E (Path_join root f) = None)
    ∧ (∀ f e, f ∈ included → open_read E (Path_join root f) = Some e →
              isinstance e UnicodeDecodeError = true ∧ f ∉ sub_files sub)
    ∧ StronglySorted String.le (sub_files sub)
    ∧ NoDup (sub_files sub).
Proof.
  intros (root & included & files & Hdisc & Hfiles & _ & ->)%get_inr.
  destruct (decodable_files_inr _ _ _ Hfiles) as (Hsub & Hiff & Hexc).
  exists root, included. simpl. split_and!; [done..| | | |].
  - intros f. rewrite sorted_Permutation. apply Hiff.
  - intros f e Hin Hread. split; [eauto|].
    rewrite sorted_Permutation, Hiff. intros [_ ?]. congruence.
  - apply sorted_StronglySorted.
  - rewrite sorted_Permutation. apply (sublist_NoDup files included); [|done].
    by eapply discover_NoDup.
Qed.

(** C9. For a path that is a regular file, [_get] looks at that file only:
    when it reads as text the submission is rooted at the parent directory
    and holds the file's name and nothing else; the patterns of the
    factory play no part. *)
Theorem get_regular_file (self : SubmissionFactory) (path : Path)
    (preprocessor : Preprocessor) :
  is_file E path = true →
  SubmissionFactory__get E self path preprocessor =
    match open_read E (Path_join (Path_parent path) (Path_name path)) with
    | None => inr (mk_Submission (Path_parent path) [Path_name path] preprocessor)
    | Some e =>
        if isinstance e UnicodeDecodeError
        then inl (Error ("Empty submission: " +:+ Path_str (Path_parent path)))
        else inl e
    end
  ∧ ∀ other : SubmissionFactory,
      SubmissionFactory__get E other path preprocessor =
      SubmissionFactory__get E self path preprocessor.
Proof.
  intros Hfile. unfold SubmissionFactory__get, discover. rewrite Hfile. simpl.
  split; [|done].
  destruct (open_read E _) as [e|]; [|reflexivity].
  by destruct (isinstance e UnicodeDecodeError).
Qed.

End Get.

(** ** The monad *)

Section Run.

Context {Tokens Scores Results : Type}.
Variable E : @Env Tokens Scores Results.

Local Abbreviation M := (@M Tokens Scores Results).
Local Abbreviation state := (@state Tokens Scores Results).
Local Abbreviation event := (@event Tokens Scores Results).
Local Abbreviation Submission := (@Submission Tokens).
Local Abbreviation Preprocessor := (@Preprocessor Tokens).
Local Abbreviation Pass := (@Pass Tokens).
Local Abbreviation no_call := (@no_call Tokens Scores Results).
Local Abbreviation fresh_each := (fresh_each E).
Local Abbreviation registered := (registered E).

Lemma bind_eq {A B} (m : M A) (f : A → M B) (st : state) :
  (m ≫= f) st =
  match m st with
  | (Returns a, st') => f a st'
  | (Raises e, st') => (Raises e, st')
  | (SysExit code, st') => (SysExit code, st')
  end.
Proof. reflexivity. Qed.

Lemma steady_ret {A} (Q : event → Prop) (a : A) : steady Q (mret a : M A).
Proof. intros st. split; [done|]. exists []. by rewrite app_nil_r. Qed.

Lemma steady_raise {A} (Q : event → Prop) (e : exc) : steady Q (raise e : M A).
Proof. intros st. split; [done|]. exists []. by rewrite app_nil_r. Qed.

Lemma steady_sys_exit {A} (Q : event → Prop) (code : Z) :
  steady Q (sys_exit code : M A).
Proof. intros st. split; [done|]. exists []. by rewrite app_nil_r. Qed.

Lemma steady_lift {A} (Q : event → Prop) (r : exc + A) : steady Q (lift r).
Proof. destruct r; [apply steady_raise | apply steady_ret]. Qed.

Lemma steady_get_state (Q : event → Prop) : steady Q get_state.
Proof. intros st. split; [done|]. exists []. by rewrite app_nil_r. Qed.

Lemma steady_set_objects (Q : event → Prop) (objs : list Submission) :
  steady Q (set_objects objs).
Proof. intros st. split; [done|]. exists []. by rewrite app_nil_r. Qed.

Lemma steady_set_Executor (Q : event → Prop) (x : Executor) :
  steady Q (set_Executor x).
Proof. intros st. split; [done|]. exists []. by rewrite app_nil_r. Qed.

Lemma steady_emit (Q : event → Prop) (ev : event) : Q ev → steady Q (emit ev).
Proof. intros HQ st. split; [done|]. exists [ev]. split; [done|]. by constructor. Qed.

Lemma steady_bind {A B} (Q : event → Prop) (m : M A) (f : A → M B) :
  steady Q m → (∀ a, steady Q (f a)) → steady Q (m ≫= f).
Proof.
  intros Hm Hf st. rewrite bind_eq.
  destruct (Hm st) as (Hv & new & Hev & Hall).
  destruct (m st) as [[a|e|code] st1]; simpl in *; [|by eauto..].
  destruct (Hf a st1) as (Hv' & new' & Hev' & Hall').
  split; [congruence|]. exists (new ++ new'). split.
  - by rewrite Hev', Hev, app_assoc.
  - by apply Forall_app.
Qed.

Lemma steady_leaving {A} (Q : event → Prop) (body : M A) (leave : M unit) :
  steady Q body → steady Q leave → steady Q (leaving body leave).
Proof.
  intros Hb Hl st. unfold leaving.
  destruct (Hb st) as (Hv & new & Hev & Hall).
  destruct (body st) as [o st1]; simpl in *.
  destruct (Hl st1) as (Hv' & new' & Hev' & Hall').
  assert (Hgoal : excepthook_verbose (leave st1).2 = excepthook_verbose st
            ∧ ∃ new0, events (leave st1).2 = events st ++ new0 ∧ Forall Q new0).
  { split; [congruence|]. exists (new ++ new'). split.
    - by rewrite Hev', Hev, app_assoc.
    - by apply Forall_app. }
  by destruct (leave st1) as [[[]|e|code] st2].
Qed.

(** ** [SubmissionFactory.get_all] *)

Lemma set_mem_deref (objs : list Submission) (sub : Submission) (subs : list ref) :
  set_mem E objs sub subs =
  existsb (λ sub', Submission_eq E sub' sub) (deref objs subs).
Proof.
  unfold set_mem, deref. induction subs as [|r subs IH]; csimpl; [done|].
  destruct (objs !! r) as [sub'|]; csimpl; by rewrite IH.
Qed.

Lemma deref_app_l (objs more : list Submission) (subs : list ref) :
  (∀ r, r ∈ subs → (r < length objs)%nat) →
  deref (objs ++ more) subs = deref objs subs.
Proof.
  unfold deref. induction subs as [|r subs IH]; csimpl; intros Hvalid; [done|].
  rewrite lookup_app_l by (apply Hvalid; left).
  rewrite IH; [done|]. intros r' Hin. apply Hvalid. by right.
Qed.

Lemma deref_snoc (objs : list Submission) (sub : Submission) (subs : list ref) :
  (∀ r, r ∈ subs → (r < length objs)%nat) →
  deref (objs ++ [sub]) (subs ++ [length objs]) = deref objs subs ++ [sub].
Proof.
  intros Hvalid. unfold deref. rewrite omap_app. fold (deref (objs ++ [sub]) subs).
  rewrite deref_app_l by done. csimpl.
  by rewrite lookup_app_r, Nat.sub_diag by lia.
Qed.

(** [get_all] reports nothing and does not touch [excepthook.verbose]. *)
Lemma steady_get_all_from (Q : event → Prop) (self : SubmissionFactory)
    (paths : list Path) (preprocessor : Preprocessor) (subs : list ref) :
  steady Q (get_all_from E self paths preprocessor subs).
Proof.
  revert subs. induction paths as [|path rest IH]; intros subs; simpl.
  - apply steady_ret.
  - destruct (SubmissionFactory__get E self path preprocessor) as [e|sub].
    + destruct (isinstance e api_Error); [apply IH | apply steady_raise].
    + apply steady_bind; [|done]. unfold set_add.
      apply steady_bind; [apply steady_get_state|]. intros st.
      destruct (set_mem E (objects st) sub subs); [apply steady_ret|].
      apply steady_bind; [apply steady_set_objects|]. intros _. apply steady_ret.
Qed.

(** A path whose construction raises the domain error leaves the loop as
    it was. *)
Lemma get_all_from_skip (self : SubmissionFactory) (path : Path)
    (rest : list Path) (preprocessor : Preprocessor) (subs : list ref) (e : exc) :
  SubmissionFactory__get E self path preprocessor = inl e →
  isinstance e api_Error = true →
  get_all_from E self (path :: rest) preprocessor subs =
  get_all_from E self rest preprocessor subs.
Proof. intros Hget Herr. simpl. by rewrite Hget, Herr. Qed.

Lemma get_all_from_app (self : SubmissionFactory) (before after : list Path)
    (preprocessor : Preprocessor) (subs : list ref) (st : state) :
  get_all_from E self (before ++ after) preprocessor subs st =
  (get_all_from E self before preprocessor subs ≫=
     get_all_from E self after preprocessor) st.
Proof.
  revert subs st. induction before as [|path rest IH]; intros subs st; simpl.
  - reflexivity.
  - destruct (SubmissionFactory__get E self path preprocessor) as [e|sub].
    + destruct (isinstance e api_Error); [apply IH | reflexivity].
    + rewrite !bind_eq.
      destruct (set_add E sub subs st) as [[subs'|e|code] st1]; try reflexivity.
      rewrite IH. by rewrite bind_eq.
Qed.

(** Such a path, wherever it stands among the paths, changes nothing. *)
Lemma get_all_skip (self : SubmissionFactory) (before after : list Path)
    (path : Path) (preprocessor : Preprocessor) (e : exc) (st : state) :
  SubmissionFactory__get E self path preprocessor = inl e →
  isinstance e api_Error = true →
  SubmissionFactory_get_all E self (before ++ path :: after) preprocessor st =
  SubmissionFactory_get_all E self (before ++ after) preprocessor st.
Proof.
  intros Hget Herr. unfold SubmissionFactory_get_all.
  rewrite !get_all_from_app, !bind_eq.
  destruct (get_all_from E self before preprocessor [] st) as [[subs|?|?] st1];
    try reflexivity.
  by rewrite (get_all_from_skip _ _ _ _ _ e).
Qed.

(** When every path builds or raises the domain error, the loop returns:
    the store and the set grow by the submissions [kept]. *)
Lemma get_all_from_returns (self : SubmissionFactory) (paths : list Path)
    (preprocessor : Preprocessor) (subs : list ref) (st : state) :
  (∀ r, r ∈ subs → (r < length (objects st))%nat) →
  (∀ path e, path ∈ paths →
     SubmissionFactory__get E self path preprocessor = inl e →
     isinstance e api_Error = true) →
  let news := kept E self preprocessor paths (deref (objects st) subs) in
  get_all_from E self paths preprocessor subs st =
    (Returns (subs ++ seq (length (objects st)) (length news)),
     with_objects (objects st ++ news) st).
Proof.
  revert subs st. induction paths as [|path rest IH]; intros subs st Hvalid Hok; simpl.
  - rewrite !app_nil_r. by destruct st.
  - assert (Hrest : ∀ path e, path ∈ rest →
              SubmissionFactory__get E self path preprocessor = inl e →
              isinstance e api_Error = true).
    { intros p e Hin. apply Hok. by right. }
    destruct (SubmissionFactory__get E self path preprocessor) as [e|sub] eqn:Hget.
    + rewrite (Hok path e); [|by left|done]. by apply IH.
    + rewrite bind_eq. unfold set_add. rewrite bind_eq. simpl.
      rewrite set_mem_deref.
      destruct (existsb _ (deref (objects st) subs)) eqn:Hmem.
      * simpl. by apply IH.
      * rewrite bind_eq. simpl. rewrite IH; simpl; [| |done].
        -- rewrite deref_snoc by done.
           rewrite length_app, Nat.add_1_r, <- !app_assoc. done.
        -- intros r [Hin| ->%list_elem_of_singleton]%elem_of_app;
             rewrite length_app; [apply Hvalid in Hin|]; simpl; lia.
Qed.

(** *** The submissions kept *)

Lemma kept_built (self : SubmissionFactory) (preprocessor : Preprocessor)
    (paths : list Path) (held : list Submission) (sub : Submission) :
  sub ∈ kept E self preprocessor paths held →
  ∃ path, path ∈ paths ∧ SubmissionFactory__get E self path preprocessor = inr sub.
Proof.
  revert held. induction paths as [|path rest IH]; intros held; simpl.
  - intros Hin. inversion Hin.
  - destruct (SubmissionFactory__get E self path preprocessor) as [e|sub0] eqn:Hget.
    + intros (p & ? & ?)%IH. exists p. split; [by right|done].
    + destruct (existsb _ held).
      * intros (p & ? & ?)%IH. exists p. split; [by right|done].
      * intros [->|(p & ? & ?)%IH]%elem_of_cons.
        -- exists path. split; [by left|done].
        -- exists p. split; [by right|done].
Qed.

Lemma kept_covers (self : SubmissionFactory) (preprocessor : Preprocessor)
    (paths : list Path) (held : list Submission) (path : Path) (sub : Submission) :
  (∀ sub, Submission_eq E sub sub = true) →
  path ∈ paths →
  SubmissionFactory__get E self path preprocessor = inr sub →
  ∃ sub', sub' ∈ held ++ kept E self preprocessor paths held
          ∧ Submission_eq E sub' sub = true.
Proof.
  intros Hrefl. revert held. induction paths as [|path0 rest IH]; intros held Hin Hget.
  { inversion Hin. }
  simpl. apply elem_of_cons in Hin as [<-|Hin].
  - rewrite Hget. destruct (existsb _ held) eqn:Hmem.
    + apply existsb_exists in Hmem as (sub' & Hin' & Heq).
      exists sub'. split; [|done]. apply elem_of_app. left. by apply list_elem_of_In.
    + exists sub. split; [|done]. apply elem_of_app. right. by left.
  - destruct (SubmissionFactory__get E self path0 preprocessor) as [e|sub0]; [by apply IH|].
    destruct (existsb _ held); [by apply IH|].
    destruct (IH (held ++ [sub0]) Hin Hget) as (sub' & Hin' & Heq).
    exists sub'. split; [|done]. by rewrite <- app_assoc in Hin'.
Qed.

Lemma fresh_each_snoc (l : list Submission) (sub : Submission) :
  fresh_each l →
  existsb (λ sub', Submission_eq E sub' sub) l = false →
  fresh_each (l ++ [sub]).
Proof.
  intros Hl Hnew i j a b Hi Hj Hlt.
  destruct (decide (j < length l)%nat) as [Hj'|Hj'].
  - rewrite lookup_app_l in Hi, Hj by lia. eauto.
  - assert (j = length l) as ->.
    { apply lookup_lt_Some in Hj. rewrite length_app in Hj. simpl in Hj. lia. }
    rewrite lookup_app_l in Hi by lia.
    rewrite lookup_app_r, Nat.sub_diag in Hj by lia. injection Hj as <-.
    destruct (Submission_eq E a sub) eqn:Heq; [|done].
    rewrite <- Hnew. symmetry. apply existsb_exists. exists a. split; [|done].
    apply list_elem_of_In. by eapply list_elem_of_lookup_2.
Qed.

Lemma kept_fresh (self : SubmissionFactory) (preprocessor : Preprocessor)
    (paths : list Path) (held : list Submission) :
  fresh_each held → fresh_each (held ++ kept E self preprocessor paths held).
Proof.
  revert held. induction paths as [|path rest IH]; intros held Hheld; simpl.
  - by rewrite app_nil_r.
  - destruct (SubmissionFactory__get E self path preprocessor) as [e|sub]; [by apply IH|].
    destruct (existsb _ held) eqn:Hmem; [by apply IH|].
    rewrite (cons_middle sub), app_assoc. apply IH. by apply fresh_each_snoc.
Qed.

(** C8, amended.  Let every path of the list build a submission or raise
    the domain error (whatever the reason), and let equality of
    submissions be reflexive and symmetric.  Then [get_all] returns: it
    reports nothing, leaves the submissions of the store as they are and
    adds to the store the submissions of its result.  Every element of
    the result is the submission built from one of the paths; every
    submission built from a path has an equal in the result; no two
    elements of the result are equal.  A path that raises the domain
    error can be struck from the list with no change to what [get_all]
    does. *)
Theorem get_all_one_per_submission (self : SubmissionFactory)
    (paths : list Path) (preprocessor : Preprocessor) (st : state) :
  (∀ sub, Submission_eq E sub sub = true) →
  (∀ a b, Submission_eq E a b = Submission_eq E b a) →
  (∀ path e, path ∈ paths →
     SubmissionFactory__get E self path preprocessor = inl e →
     isinstance e api_Error = true) →
  ∃ subs news,
    let objs := objects st ++ news in
    SubmissionFactory_get_all E self paths preprocessor st =
      (Returns subs, with_objects objs st)
    ∧ NoDup subs
    ∧ (∀ r, r ∈ subs →
         ∃ path sub, path ∈ paths
           ∧ SubmissionFactory__get E self path preprocessor = inr sub
           ∧ objs !! r = Some sub)
    ∧ (∀ path sub, path ∈ paths →
         SubmissionFactory__get E self path preprocessor = inr sub →
         ∃ r sub', r ∈ subs ∧ objs !! r = Some sub'
                   ∧ Submission_eq E sub' sub = true)
    ∧ (∀ r1 r2 sub1 sub2, r1 ∈ subs → r2 ∈ subs →
         objs !! r1 = Some sub1 → objs !! r2 = Some sub2 →
         Submission_eq E sub1 sub2 = true → r1 = r2)
    ∧ (∀ before path after e, paths = before ++ path :: after →
         SubmissionFactory__get E self path preprocessor = inl e →
         SubmissionFactory_get_all E self (before ++ after) preprocessor st =
         SubmissionFactory_get_all E self paths preprocessor st).
Proof.
  intros Hrefl Hsym Hok.
  set (news := kept E self preprocessor paths []).
  exists (seq (length (objects st)) (length news)), news. cbv zeta.
  assert (Hlook : ∀ r, r ∈ seq (length (objects st)) (length news) →
            ∃ k, r = (length (objects st) + k)%nat ∧
                 (objects st ++ news) !! r = news !! k ∧ (k < length news)%nat).
  { intros r [Hge Hlt]%elem_of_seq. exists (r - length (objects st))%nat.
    split; [lia|]. split; [|lia]. apply lookup_app_r. lia. }
  split_and!.
  - unfold SubmissionFactory_get_all.
    rewrite get_all_from_returns; [done| |done]. intros r Hin. inversion Hin.
  - apply NoDup_seq.
  - intros r (k & -> & Hr & Hk)%Hlook.
    destruct (lookup_lt_is_Some_2 news k Hk) as [sub Hsub].
    destruct (kept_built self preprocessor paths [] sub) as (path & Hin & Hget).
    { by eapply list_elem_of_lookup_2. }
    exists path, sub. split_and!; [done..|]. by etrans.
  - intros path sub Hin Hget.
    destruct (kept_covers self preprocessor paths [] path sub Hrefl Hin Hget)
      as (sub' & Hin' & Heq).
    simpl in Hin'. apply list_elem_of_lookup in Hin' as [k Hk].
    exists (length (objects st) + k)%nat, sub'. split_and!; [|
      |done].
    + apply elem_of_seq. apply lookup_lt_Some in Hk. fold news in Hk. lia.
    + rewrite lookup_app_r by lia. rewrite <- Hk. f_equal. lia.
  - intros r1 r2 sub1 sub2 (k1 & -> & Hr1 & Hk1)%Hlook (k2 & -> & Hr2 & Hk2)%Hlook.
    intros H1 H2 Heq.
    assert (news !! k1 = Some sub1) as Hs1 by (by etrans).
    assert (news !! k2 = Some sub2) as Hs2 by (by etrans).
    pose proof (kept_fresh self preprocessor paths [] (λ i j a b H, ltac:(inversion H)))
      as Hfresh. simpl in Hfresh. fold news in Hfresh.
    destruct (Nat.lt_trichotomy k1 k2) as [Hlt|[->|Hlt]]; [|done|].
    + rewrite (Hfresh k1 k2 sub1 sub2) in Heq; done.
    + rewrite Hsym, (Hfresh k2 k1 sub2 sub1) in Heq; done.
  - intros before path after e -> Hget. symmetry.
    apply (get_all_skip self before after path preprocessor e st Hget).
    apply (Hok path e); [|done]. apply elem_of_app. right. by left.
Qed.

(** ** The steps of [main] that call no collaborator *)

Ltac steady_step :=
  first
    [ apply steady_ret | apply steady_raise | apply steady_sys_exit
    | apply steady_lift | apply steady_get_state | apply steady_set_objects
    | apply steady_set_Executor | apply steady_get_all_from
    | apply steady_emit; [try done]
    | apply steady_leaving
    | apply steady_bind; [|intros ?]
    | match goal with
      | |- steady _ (match ?x with _ => _ end) => destruct x
      end ].

Ltac steady := repeat steady_step.

Lemma steady_enter_with (profiling : bool) :
  steady no_call (enter_with E profiling : M unit).
Proof. unfold enter_with, profile_enter. steady. Qed.

Lemma steady_leave_with (profiling : bool) :
  steady no_call (leave_with E profiling : M unit).
Proof. unfold leave_with, profile_exit. steady. Qed.

(** Entering the [with] statement: the start of the profiler may fail,
    and nothing is entered then. *)
Lemma enter_with_eq (profiling : bool) (st : state) :
  enter_with E profiling st =
  match profiler_error E profiling with
  | Some e => (Raises e, st)
  | None => (Returns (), add_events (enter_events profiling) st)
  end.
Proof.
  unfold enter_with, profile_enter, profiler_error, add_events, enter_events.
  destruct profiling; [destruct (import_line_profiler E)|];
    repeat (rewrite bind_eq; simpl); unfold emit; simpl;
    rewrite <- ?app_assoc; done.
Qed.

(** Leaving it: the progress bar is left, and the writing of the
    statistics may fail. *)
Lemma leave_with_eq (profiling : bool) (st : state) :
  leave_with E profiling st =
  match statistics_error E profiling with
  | Some e => (Raises e, add_events [ProgressExit] st)
  | None => (Returns (), add_events (leave_events E profiling) st)
  end.
Proof.
  unfold leave_with, profile_exit, statistics_error, add_events, leave_events,
    statistics_events.
  destruct profiling; [destruct (open_write E _)|];
    repeat (rewrite bind_eq; simpl); unfold emit; simpl;
    rewrite <- ?app_assoc; done.
Qed.

Lemma steady_collect (self : SubmissionFactory) (args : Namespace)
    (preprocessor : Preprocessor) :
  steady no_call (collect E self args preprocessor).
Proof. unfold collect, SubmissionFactory_get_all. steady. Qed.

Lemma calls_app (evs evs' : list event) : calls (evs ++ evs') = calls evs ++ calls evs'.
Proof. apply List.filter_app. Qed.

Lemma calls_no_call (evs : list event) : Forall no_call evs → calls evs = [].
Proof.
  induction 1 as [|ev evs Hev _ IH]; [done|]. unfold calls in *. simpl.
  unfold no_call in Hev. by rewrite Hev.
Qed.

(** A step that calls no collaborator leaves the calls as they are. *)
Lemma steady_calls {A} (m : M A) (st : state) :
  steady no_call m → calls (events (m st).2) = calls (events st).
Proof.
  intros Hm. destruct (Hm st) as (_ & new & -> & Hnew).
  by rewrite calls_app, (calls_no_call new), app_nil_r.
Qed.

(** ** The loop over the passes *)

(** After lines 297-298 a submission of the sets has the new preprocessor,
    its path and files as before; any other object is as before. *)
Lemma set_preprocessors_lookup (pre : Preprocessor) (subs : list ref)
    (objs : list Submission) (r : ref) :
  set_preprocessors pre subs objs !! r =
  (if bool_decide (r ∈ subs) then setattr_preprocessor pre <$> objs !! r
   else objs !! r).
Proof.
  unfold set_preprocessors. revert objs.
  induction subs as [|r0 subs IH]; intros objs; cbn [foldl].
  - rewrite bool_decide_eq_false_2; [done|]. intros Hin. inversion Hin.
  - rewrite IH. destruct (decide (r0 = r)) as [->|Hne];
      [rewrite list_lookup_alter_eq | rewrite list_lookup_alter_ne by done].
    + rewrite (bool_decide_eq_true_2 (r ∈ r :: subs)) by (by left).
      case_bool_decide; [|done].
      rewrite <- option_fmap_compose. by apply option_fmap_ext.
    + rewrite (bool_decide_ext (r ∈ r0 :: subs) (r ∈ subs)); [done|].
      rewrite elem_of_cons. split; [intros [?|?]; [congruence|done] | auto].
Qed.

Lemma set_preprocessors_length (pre : Preprocessor) (subs : list ref)
    (objs : list Submission) :
  length (set_preprocessors pre subs objs) = length objs.
Proof.
  unfold set_preprocessors. revert objs.
  induction subs as [|r0 subs IH]; intros objs; simpl; [done|].
  by rewrite IH, length_alter.
Qed.

(** A second pass overwrites what the first one set. *)
Lemma set_preprocessors_twice (pre pre' : Preprocessor) (subs : list ref)
    (objs : list Submission) :
  set_preprocessors pre' subs (set_preprocessors pre subs objs) =
  set_preprocessors pre' subs objs.
Proof.
  apply list_eq. intros r. rewrite !set_preprocessors_lookup.
  case_bool_decide; [|done].
  rewrite <- option_fmap_compose. by apply option_fmap_ext.
Qed.

(** When the sets hold every object of the store, every object gets the
    new preprocessor. *)
Lemma set_preprocessors_all (pre : Preprocessor) (subs : list ref)
    (objs : list Submission) :
  (∀ r, (r < length objs)%nat → r ∈ subs) →
  set_preprocessors pre subs objs = setattr_preprocessor pre <$> objs.
Proof.
  intros Hall. apply list_eq. intros r.
  rewrite set_preprocessors_lookup, list_lookup_fmap.
  case_bool_decide as Hin; [done|].
  destruct (objs !! r) eqn:Hr; [|done].
  destruct Hin. apply Hall. by eapply lookup_lt_Some.
Qed.


(** Running a computation of the driver step by step, in a hypothesis. *)
Ltac mrun H := repeat (rewrite bind_eq in H; simpl in H).

(** When the loop returns, every pass was compared once, in order, each
    on the store in which the submissions of the sets carry that pass's
    preprocessor, and the results were stored under their passes. *)
Lemma compare_passes_Returns (passes : list Pass) (all_subs : list ref)
    (scores : Scores) (ignored_files : gset string)
    (d d' : list (Pass * Results)) (st st' : state) :
  compare_passes E passes all_subs scores ignored_files d st = (Returns d', st') →
  ∃ results,
    Forall2 (λ pass_ res,
               api_compare E
                 (set_preprocessors (mk_Preprocessor (pass_preprocessors pass_))
                                    all_subs (objects st))
                 (api_Executor st) scores ignored_files pass_ = inr res)
            passes results
    ∧ d' = foldl (λ d pr, dict_set d pr.1 pr.2) d (zip passes results)
    ∧ calls (events st') =
        calls (events st) ++
        ((λ pass_, CallCompare
                     (set_preprocessors (mk_Preprocessor (pass_preprocessors pass_))
                                        all_subs (objects st))
                     scores ignored_files pass_) <$> passes).
Proof.
  revert d st. induction passes as [|pass_ rest IH]; intros d st H; simpl in H.
  - injection H as <- <-. exists []. split_and!; [constructor|done|by rewrite app_nil_r].
  - unfold call_compare in H. mrun H.
    destruct (api_compare E _ _ scores ignored_files pass_) as [e|res] eqn:Hres;
      simpl in H; [discriminate|].
    apply IH in H as (results & Hall & -> & Hcalls). simpl in *.
    exists (res :: results). split_and!.
    + constructor; [done|].
      eapply Forall2_impl; [exact Hall|]. intros p r. simpl.
      by rewrite set_preprocessors_twice.
    + done.
    + rewrite Hcalls, !calls_app. simpl. rewrite app_nil_r, <- app_assoc. simpl.
      do 2 f_equal. apply list_fmap_ext. intros _ p _.
      by rewrite set_preprocessors_twice.
Qed.


(** Running a computation step by step, in the goal. *)
Ltac mrun_goal := repeat (rewrite bind_eq; simpl).

(** However the loop ends, the calls it made are calls to [compare], each
    on the store in which the submissions of the sets carry the
    preprocessor of the pass compared. *)
Lemma compare_passes_emits (passes : list Pass) (all_subs : list ref)
    (scores : Scores) (ignored_files : gset string)
    (d : list (Pass * Results)) (st : state) :
  let st' := (compare_passes E passes all_subs scores ignored_files d st).2 in
  excepthook_verbose st' = excepthook_verbose st
  ∧ ∃ new, events st' = events st ++ new
           ∧ Forall (compare_as_driven (objects st) all_subs scores
                                       ignored_files passes) new.
Proof.
  revert d st. induction passes as [|pass_ rest IH]; intros d st; simpl.
  - split; [done|]. exists []. by rewrite app_nil_r.
  - unfold call_compare. mrun_goal.
    destruct (api_compare E _ _ scores ignored_files pass_) as [e|res]; simpl.
    + split; [done|]. eexists. rewrite <- app_assoc. split; [done|].
      repeat constructor.
    + match goal with
      | |- context [compare_passes E rest all_subs scores ignored_files ?d' ?st1] =>
          destruct (IH d' st1) as (Hv & new & Hev & Hnew)
      end.
      simpl in *. split; [done|].
      eexists. rewrite Hev, <- !app_assoc. split; [done|].
      repeat constructor.
      eapply Forall_impl; [exact Hnew|].
      intros [] Hev'; simpl in *; try done.
      destruct Hev' as (-> & -> & -> & Hin).
      rewrite set_preprocessors_twice. split_and!; [done..|by right].
Qed.


(** ** Ranking, comparing, rendering *)

(** However lines 287-303 end, [rank] was called, and every call made is
    as [call_as_driven] says. *)
Lemma rank_compare_render_emits (args : Namespace) (passes : list Pass)
    (first : Pass) (subs archive_subs ignored_subs : list ref)
    (ignored_files : gset string) (st : state) :
  let st' := (rank_compare_render E args passes first subs archive_subs
                                  ignored_subs ignored_files st).2 in
  excepthook_verbose st' = excepthook_verbose st
  ∧ ∃ new, events st' = events st ++ new
      ∧ Forall (call_as_driven E (objects st) (api_Executor st) subs
                  archive_subs ignored_subs ignored_files passes first
                  (args_n args)) new
      ∧ CallRank (objects st) subs archive_subs ignored_files first (args_n args)
        ∈ new.
Proof.
  unfold rank_compare_render, call_rank, call_render. mrun_goal.
  destruct (api_rank E _ _ subs archive_subs ignored_files first (args_n args))
    as [e|scores] eqn:Hrank; simpl.
  { split; [done|]. eexists. rewrite <- app_assoc. split; [done|].
    split; [repeat constructor|]. right. by left. }
  rewrite !bind_eq.
  match goal with
  | |- context [compare_passes E passes ?all scores ignored_files [] ?st1] =>
      pose proof (compare_passes_emits passes all scores ignored_files [] st1)
        as (Hv & new & Hev & Hnew);
      destruct (compare_passes E passes all scores ignored_files [] st1)
        as [[d|e|code] st2]
  end; simpl in *.
  2,3: split; [done|]; eexists; rewrite Hev, <- !app_assoc; split; [done|];
       split; [|right; by left];
       repeat constructor;
       (eapply Forall_impl; [exact Hnew|]); intros [] Hev'; simpl in *; try done;
       by destruct Hev' as (-> & -> & -> & Hin).
  mrun_goal.
  assert (Hgoal :
    ∃ new0, (events st2 ++ [ProgressNew "Rendering"]) ++
              [CallRender d (args_output args)] = events st ++ new0
      ∧ Forall (call_as_driven E (objects st) (api_Executor st) subs
                  archive_subs ignored_subs ignored_files passes first
                  (args_n args)) new0
      ∧ CallRank (objects st) subs archive_subs ignored_files first (args_n args)
        ∈ new0).
  { eexists. rewrite Hev, <- !app_assoc. split; [done|].
    split; [|right; by left].
    repeat constructor. apply Forall_app. split; [|repeat constructor].
    eapply Forall_impl; [exact Hnew|]. intros [] Hev'; simpl in *; try done.
    by destruct Hev' as (-> & -> & -> & Hin). }
  destruct (renderer_render E d (args_output args)) as [e|index]; simpl;
    (split; [done|]); exact Hgoal.
Qed.

(** When lines 287-303 return, [rank] was called once, on the first pass,
    then [compare] once for every pass, in order, then [render] once, on
    the results stored under the passes. *)
Lemma rank_compare_render_Returns (args : Namespace) (passes : list Pass)
    (first : Pass) (subs archive_subs ignored_subs : list ref)
    (ignored_files : gset string) (st st' : state) (index : Path) :
  rank_compare_render E args passes first subs archive_subs ignored_subs
                      ignored_files st = (Returns index, st') →
  let store pass_ :=
    set_preprocessors (mk_Preprocessor (pass_preprocessors pass_))
                      (subs ++ archive_subs ++ ignored_subs) (objects st) in
  ∃ scores results d,
    api_rank E (objects st) (api_Executor st) subs archive_subs ignored_files
             first (args_n args) = inr scores
    ∧ Forall2 (λ pass_ res,
                 api_compare E (store pass_) (api_Executor st) scores
                             ignored_files pass_ = inr res) passes results
    ∧ d = foldl (λ d pr, dict_set d pr.1 pr.2) [] (zip passes results)
    ∧ renderer_render E d (args_output args) = inr index
    ∧ calls (events st') =
        calls (events st)
        ++ [CallRank (objects st) subs archive_subs ignored_files first (args_n args)]
        ++ ((λ pass_, CallCompare (store pass_) scores ignored_files pass_) <$> passes)
        ++ [CallRender d (args_output args)].
Proof.
  intros H. unfold rank_compare_render, call_rank, call_render in H. mrun H.
  destruct (api_rank E _ _ subs archive_subs ignored_files first (args_n args))
    as [e|scores] eqn:Hrank; simpl in H; [discriminate|].
  rewrite bind_eq in H.
  destruct (compare_passes E passes _ scores ignored_files [] _)
    as [[d|e|code] st2] eqn:Hloop; try discriminate.
  apply compare_passes_Returns in Hloop as (results & Hall & -> & Hcalls).
  simpl in *. mrun H.
  destruct (renderer_render E _ (args_output args)) as [e|index'] eqn:Hrender;
    simpl in H; [discriminate|].
  injection H as <- <-. simpl.
  eexists scores, results, _. split_and!; [done..|].
  rewrite !calls_app, Hcalls, !calls_app. simpl.
  by rewrite !app_nil_r, <- !app_assoc.
Qed.


(** ** [main], step by step *)

(** When the loop of [get_all] returns, the store and the set have grown
    by the same submissions. *)
Lemma get_all_from_Returns (self : SubmissionFactory) (paths : list Path)
    (preprocessor : Preprocessor) (subs subs' : list ref) (st st' : state) :
  get_all_from E self paths preprocessor subs st = (Returns subs', st') →
  ∃ news, subs' = subs ++ seq (length (objects st)) (length news)
          ∧ st' = with_objects (objects st ++ news) st.
Proof.
  revert subs st. induction paths as [|path rest IH]; intros subs st H; simpl in H.
  - injection H as <- <-. exists []. simpl. rewrite !app_nil_r. by destruct st.
  - destruct (SubmissionFactory__get E self path preprocessor) as [e|sub].
    + destruct (isinstance e api_Error); [by apply IH | discriminate].
    + unfold set_add in H. mrun H.
      destruct (set_mem E (objects st) sub subs); simpl in H; [by apply IH|].
      mrun H. apply IH in H as (news & -> & ->). simpl.
      exists (sub :: news). simpl.
      by rewrite length_app, Nat.add_1_r, <- !app_assoc.
Qed.

(** When the three sets are collected, they hold, one after the other,
    the objects that the store has gained. *)
Lemma collect_Returns (self : SubmissionFactory) (args : Namespace)
    (preprocessor : Preprocessor) (st st' : state)
    (subs archive_subs ignored_subs : list ref) (ignored_files : gset string) :
  collect E self args preprocessor st =
    (Returns (subs, archive_subs, ignored_subs, ignored_files), st') →
  subs ++ archive_subs ++ ignored_subs =
    seq (length (objects st)) (length (objects st') - length (objects st))
  ∧ (length (objects st) ≤ length (objects st'))%nat
  ∧ ignored_files = files_of (objects st') ignored_subs.
Proof.
  unfold collect, SubmissionFactory_get_all. intros H.
  rewrite bind_eq in H.
  destruct (get_all_from E self (args_submissions args) preprocessor [] st)
    as [[subs1|e|code] st1] eqn:H1; try discriminate.
  apply get_all_from_Returns in H1 as (news1 & -> & ->). mrun H.
  match type of H with
  | context [get_all_from E self (args_archive args) preprocessor [] ?s] =>
      destruct (get_all_from E self (args_archive args) preprocessor [] s)
        as [[subs2|e|code] st2] eqn:H2; try discriminate
  end.
  apply get_all_from_Returns in H2 as (news2 & -> & ->). simpl in H. mrun H.
  match type of H with
  | context [get_all_from E self (args_distro args) preprocessor [] ?s] =>
      destruct (get_all_from E self (args_distro args) preprocessor [] s)
        as [[subs3|e|code] st3] eqn:H3; try discriminate
  end.
  apply get_all_from_Returns in H3 as (news3 & -> & ->). simpl in H.
  injection H as <- <- <- <- <-. simpl.
  rewrite !length_app. split_and!; [|lia|done].
  replace (length (objects st) + length news1 + length news2 + length news3
           - length (objects st))%nat
    with (length news1 + (length news2 + length news3))%nat by lia.
  by rewrite !seq_app.
Qed.

Lemma main_body_eq (self : SubmissionFactory) (args : Namespace)
    (passes : list Pass) (first : Pass) (preprocessor : Preprocessor) (st : state) :
  main_body E self args passes first preprocessor st =
  match collect E self args preprocessor st with
  | (Returns (subs, archive_subs, ignored_subs, ignored_files), st1) =>
      if bool_decide (length subs + length archive_subs < 2)%nat
      then (Raises (Error too_few), st1)
      else rank_compare_render E args passes first subs archive_subs
                               ignored_subs ignored_files st1
  | (Raises e, st1) => (Raises e, st1)
  | (SysExit code, st1) => (SysExit code, st1)
  end.
Proof.
  unfold main_body. rewrite bind_eq.
  destruct (collect E self args preprocessor st) as [[[[[subs a] i] f]|e|code] st1];
    try reflexivity.
  by destruct (bool_decide _).
Qed.

Lemma main_eq (cl : cmdline) (st : state) :
  let args := namespace_of E cl in
  main E cl st =
  match main_setup E args st with
  | (Returns (passes, first), st1) =>
      match profiler_error E (args_profile args) with
      | Some e => (Raises e, st1)
      | None =>
          let (o, st2) :=
            main_body E (factory_of cl) args passes first
                      (mk_Preprocessor (pass_preprocessors first))
                      (add_events (enter_events (args_profile args)) st1) in
          match statistics_error E (args_profile args) with
          | Some e => (Raises e, add_events [ProgressExit] st2)
          | None =>
              match o with
              | Returns index =>
                  (Returns (),
                   add_events (leave_events E (args_profile args)
                                 ++ [done_event E index]) st2)
              | Raises e =>
                  (Raises e, add_events (leave_events E (args_profile args)) st2)
              | SysExit code =>
                  (SysExit code, add_events (leave_events E (args_profile args)) st2)
              end
          end
      end
  | (Raises e, st1) => (Raises e, st1)
  | (SysExit code, st1) => (SysExit code, st1)
  end.
Proof.
  intros args. unfold main. fold args. rewrite bind_eq.
  destruct (main_setup E args st) as [[[passes first]|e|code] st1]; try reflexivity.
  rewrite bind_eq. unfold with_profiler_progress. rewrite bind_eq, enter_with_eq.
  destruct (profiler_error E (args_profile args)) as [e|]; [reflexivity|].
  unfold leaving.
  destruct (main_body E _ args passes first _ _) as [o st2].
  rewrite leave_with_eq.
  destruct (statistics_error E (args_profile args)) as [e|]; [reflexivity|].
  destruct o as [index|e|code]; try reflexivity.
  unfold emit, add_events, done_event. simpl. by rewrite <- app_assoc.
Qed.

(** Lines 235-271 set [excepthook.verbose] to [args.verbose], call no
    collaborator and leave the store alone. *)
Lemma main_setup_state (args : Namespace) (st : state) :
  let st' := (main_setup E args st).2 in
  excepthook_verbose st' = args_verbose args
  ∧ objects st' = objects st
  ∧ ∃ new, events st' = events st ++ new ∧ Forall no_call new.
Proof.
  unfold main_setup, resolve_passes, clear_output, remove_output.
  rewrite bind_eq. simpl.
  assert (Hnil : ∀ evs : list event, evs = evs ++ []) by (intros; by rewrite app_nil_r).
  repeat (first
    [ rewrite bind_eq; simpl
    | match goal with
      | |- context [match ?x with _ => _ end] =>
          lazymatch type of x with
          | prod _ _ => fail
          | _ => destruct x; simpl
          end
      end ]);
    (split_and!; [done..|]);
    (eexists; rewrite <- ?app_assoc; split; [first [done | apply Hnil]|]);
    repeat constructor.
Qed.

Lemma main_setup_Returns (args : Namespace) (st st' : state)
    (passes : list Pass) (first : Pass) :
  main_setup E args st = (Returns (passes, first), st') →
  get_passes E (args_passes args) = inr passes ∧ head passes = Some first.
Proof.
  unfold main_setup, resolve_passes. intros H. mrun H.
  destruct (get_passes E (args_passes args)) as [e|passes'].
  - destruct (isinstance e KeyError); [destruct (exc_args e)|]; discriminate.
  - simpl in H. destruct passes' as [|first' rest]; [discriminate|].
    mrun H. destruct (args_profile args || args_debug args); simpl in H; mrun H.
    all: match type of H with
    | context [clear_output E ?o ?s] =>
        destruct (clear_output E o s) as [[[]|e|code] st1]; try discriminate
    end.
    all: by injection H as <- <- <-.
Qed.


Lemma call_as_driven_no_call (built : list Submission) (executor : Executor)
    (subs archive_subs ignored_subs : list ref) (ignored_files : gset string)
    (passes : list Pass) (first : Pass) (n : Z) (ev : event) :
  no_call ev →
  call_as_driven E built executor subs archive_subs ignored_subs ignored_files
                 passes first n ev.
Proof. by destruct ev. Qed.

Lemma steady_emits {A} (Q : event → Prop) (m : M A) (st : state) :
  steady Q m →
  excepthook_verbose (m st).2 = excepthook_verbose st
  ∧ ∃ new, events (m st).2 = events st ++ new ∧ Forall Q new.
Proof. intros H. apply H. Qed.

(** The events of a whole run.  Either no collaborator was called, or the
    run came to line 287: the passes were resolved, the three sets
    collected, at least two submissions are in the first two, the sets
    hold every object of the store, [rank] was called, and every call of
    the run is as [call_as_driven] says. *)
Lemma main_events (cl : cmdline) :
  let args := namespace_of E cl in
  let st' := (main E cl initial_state).2 in
  excepthook_verbose st' = cl_verbose cl
  ∧ (Forall no_call (events st')
     ∨ ∃ passes first st0 subs archive_subs ignored_subs ignored_files st1,
         main_setup E args initial_state = (Returns (passes, first), st0)
         ∧ collect E (factory_of cl) args
                   (mk_Preprocessor (pass_preprocessors first))
                   (add_events (enter_events (args_profile args)) st0)
           = (Returns (subs, archive_subs, ignored_subs, ignored_files), st1)
         ∧ (2 ≤ length subs + length archive_subs)%nat
         ∧ subs ++ archive_subs ++ ignored_subs = seq 0 (length (objects st1))
         ∧ Forall (call_as_driven E (objects st1) (api_Executor st1) subs
                     archive_subs ignored_subs ignored_files passes first
                     (args_n args)) (events st')
         ∧ CallRank (objects st1) subs archive_subs ignored_files first
                    (args_n args) ∈ events st').
Proof.
  intros args st'. subst st'. rewrite main_eq. fold args.
  change (cl_verbose cl) with (args_verbose args). clearbody args.
  destruct (main_setup_state args initial_state) as (Hv0 & Hobj0 & new0 & Hev0 & Hnew0).
  destruct (main_setup E args initial_state) as [[[passes first]|e|code] st0] eqn:Hsetup;
    cbn [snd] in Hv0, Hobj0, Hev0; simpl in Hobj0, Hev0;
    [|by (split; [done|left; cbn [snd]; rewrite Hev0])..].
  destruct (profiler_error E (args_profile args)) as [e|].
  { split; [done|]. left. cbn [snd]. by rewrite Hev0. }
  set (pre := mk_Preprocessor (pass_preprocessors first)).
  set (st1 := add_events (enter_events (args_profile args)) st0).
  assert (Henter : Forall no_call (enter_events (args_profile args))).
  { unfold enter_events. by destruct (args_profile args); repeat constructor. }
  assert (Hleave : Forall no_call (leave_events E (args_profile args))).
  { unfold leave_events, statistics_events.
    by destruct (args_profile args); repeat constructor. }
  assert (Hexit : Forall no_call [@ProgressExit Tokens Scores Results])
    by (by repeat constructor).
  assert (Hev1 : events st1 = new0 ++ enter_events (args_profile args)).
  { subst st1. simpl. by rewrite Hev0. }
  assert (Hobj1 : objects st1 = []) by done.
  assert (Hv1 : excepthook_verbose st1 = args_verbose args) by done.
  assert (Hpre : ∀ new, Forall no_call new → Forall no_call (events st1 ++ new)).
  { intros new Hnew. rewrite Hev1.
    apply Forall_app. split; [|done]. apply Forall_app. by split. }
  rewrite main_body_eq.
  destruct (steady_emits no_call (collect E (factory_of cl) args pre) st1
              (steady_collect _ _ _)) as (Hv2 & new2 & Hev2 & Hnew2).
  assert (Hquiet : ∀ (st2 : state) (tail : list event),
            excepthook_verbose st2 = args_verbose args →
            (∃ new, events st2 = events st1 ++ new ∧ Forall no_call new) →
            Forall no_call tail →
            ∀ P : Prop,
              excepthook_verbose (add_events tail st2) = args_verbose args
              ∧ (Forall no_call (events (add_events tail st2)) ∨ P)).
  { intros st2 tail Hv (new & Hev & Hnew) Htail P. split; [done|]. left.
    simpl. rewrite Hev, <- app_assoc. apply Hpre. by apply Forall_app. }
  destruct (collect E (factory_of cl) args pre st1)
    as [[[[[subs archive_subs] ignored_subs] ignored_files]|e|code] st2] eqn:Hcollect;
    cbn [snd] in Hv2, Hev2.
  2,3: destruct (statistics_error E (args_profile args)); cbn [snd];
       (apply Hquiet; [congruence|by exists new2|done]).
  case_bool_decide as Hfew.
  { destruct (statistics_error E (args_profile args)); cbn [snd];
      (apply Hquiet; [congruence|by exists new2|done]). }
  pose proof (rank_compare_render_emits args passes first subs archive_subs
                ignored_subs ignored_files st2) as (Hv3 & new3 & Hev3 & Hnew3 & Hrank).
  destruct (collect_Returns _ _ _ _ _ _ _ _ _ Hcollect) as (Hseq & _ & _).
  rewrite Hobj1 in Hseq. simpl in Hseq. rewrite Nat.sub_0_r in Hseq.
  assert (Hall : ∀ (st3 : state) (tail : list event),
            excepthook_verbose st3 = excepthook_verbose st2 →
            events st3 = events st2 ++ new3 →
            Forall no_call tail →
            excepthook_verbose (add_events tail st3) = args_verbose args
            ∧ (Forall no_call (events (add_events tail st3))
               ∨ ∃ passes' first' st0' subs' archive_subs' ignored_subs'
                   ignored_files' st1',
                   (Returns (passes, first), st0) = (Returns (passes', first'), st0')
                   ∧ collect E (factory_of cl) args
                       (mk_Preprocessor (pass_preprocessors first'))
                       (add_events (enter_events (args_profile args)) st0')
                     = (Returns (subs', archive_subs', ignored_subs', ignored_files'),
                        st1')
                   ∧ (2 ≤ length subs' + length archive_subs')%nat
                   ∧ subs' ++ archive_subs' ++ ignored_subs'
                     = seq 0 (length (objects st1'))
                   ∧ Forall (call_as_driven E (objects st1') (api_Executor st1')
                               subs' archive_subs' ignored_subs' ignored_files'
                               passes' first' (args_n args))
                            (events (add_events tail st3))
                   ∧ CallRank (objects st1') subs' archive_subs' ignored_files'
                              first' (args_n args)
                     ∈ events (add_events tail st3))).
  { intros st3 tail Hv Hev Htail. split; [simpl; congruence|]. right.
    exists passes, first, st0, subs, archive_subs, ignored_subs, ignored_files, st2.
    split_and!; [done|done|lia|done| |].
    - simpl. rewrite Hev, Hev2.
      apply Forall_app. split; [apply Forall_app; split; [apply Forall_app; split|]|].
      + eapply Forall_impl; [rewrite <- (app_nil_r (events st1)); apply Hpre;
                             constructor|].
        intros. by apply call_as_driven_no_call.
      + eapply Forall_impl; [exact Hnew2|]. intros. by apply call_as_driven_no_call.
      + done.
      + eapply Forall_impl; [exact Htail|]. intros. by apply call_as_driven_no_call.
    - simpl. rewrite Hev. apply elem_of_app. left. apply elem_of_app. by right. }
  destruct (rank_compare_render E args passes first subs archive_subs
              ignored_subs ignored_files st2) as [[index|e|code] st3];
    cbn [snd] in Hv3, Hev3;
    destruct (statistics_error E (args_profile args)); cbn [snd];
    (apply Hall; [done|done|]); try done.
  apply Forall_app. split; [done|]. by repeat constructor.
Qed.


(** ** Too few submissions *)

(** A path whose files all fail to decode raises the domain error. *)
Lemma get_empty (self : SubmissionFactory) (path root : Path)
    (included : list string) (preprocessor : Preprocessor) :
  discover E self path = inr (root, included) →
  decodable_files E root included = inr [] →
  SubmissionFactory__get E self path preprocessor =
    inl (Error ("Empty submission: " +:+ Path_str root)).
Proof. unfold SubmissionFactory__get. by intros -> ->. Qed.



(** ** The passes *)

Lemma Pass_get_inr (name : string) (pass_ : Pass) :
  Pass_get E name = inr pass_ → pass_ ∈ Pass_get_all E ∧ pass_name pass_ = name.
Proof.
  unfold Pass_get. destruct (List.find _ _) as [p|] eqn:Hfind; [|discriminate].
  intros [= <-]. apply List.find_some in Hfind as [Hin Heq].
  split; [by apply list_elem_of_In | by apply String.eqb_eq].
Qed.

Lemma Pass_get_registered (name : string) :
  name ∈ registered → ∃ pass_, Pass_get E name = inr pass_.
Proof.
  unfold registered, Pass_get. intros (p & -> & Hin)%list_elem_of_fmap.
  destruct (List.find _ _) as [q|] eqn:Hfind; [eauto|].
  apply List.find_none with (x := p) in Hfind; [|by apply list_elem_of_In].
  by rewrite String.eqb_refl in Hfind.
Qed.

Lemma Pass_get_unregistered (name : string) :
  name ∉ registered → Pass_get E name = inl (mk_exc KeyError [PyStr name] None).
Proof.
  intros Hnot. destruct (Pass_get E name) as [e|p] eqn:Hget.
  - unfold Pass_get in *. by destruct (List.find _ _).
  - apply Pass_get_inr in Hget as [Hin <-]. destruct Hnot.
    apply list_elem_of_fmap. eauto.
Qed.

Lemma get_passes_registered (names : list string) :
  Forall (λ name, name ∈ registered) names →
  ∃ passes, get_passes E names = inr passes
            ∧ pass_name <$> passes = names
            ∧ Forall (λ pass_, pass_ ∈ Pass_get_all E) passes.
Proof.
  induction 1 as [|name names Hname _ (passes & Hget & Hnames & Hall)]; simpl.
  - by exists [].
  - destruct (Pass_get_registered name Hname) as [p Hp]. rewrite Hp, Hget.
    apply Pass_get_inr in Hp as [Hin Heq].
    exists (p :: passes). split_and!; [done|by rewrite fmap_cons, Heq, Hnames|].
    by constructor.
Qed.

(** With an unknown name among them, the lookup of the names stops at the
    first unknown one. *)
Lemma get_passes_unregistered (names : list string) :
  Exists (λ name, name ∉ registered) names →
  ∃ before name after,
    names = before ++ name :: after
    ∧ Forall (λ name, name ∈ registered) before
    ∧ (name ∉ registered)
    ∧ get_passes E names = inl (mk_exc KeyError [PyStr name] None).
Proof.
  induction names as [|name names IH]; intros Hex; [by inversion Hex|].
  destruct (decide (name ∈ registered)) as [Hin|Hnot].
  - destruct IH as (before & bad & after & -> & Hbefore & Hbad & Hget).
    { by inversion Hex. }
    exists (name :: before), bad, after. split_and!; [done|by constructor|done|].
    simpl. destruct (Pass_get_registered name Hin) as [p ->]. by rewrite Hget.
  - exists [], name, names. split_and!; [done|constructor|done|].
    simpl. by rewrite Pass_get_unregistered.
Qed.

Lemma main_setup_unknown (args : Namespace) (st : state) (name : string) :
  get_passes E (args_passes args) = inl (mk_exc KeyError [PyStr name] None) →
  main_setup E args st =
    (Raises (Error (not_a_pass E name)),
     mk_state (objects st) (args_verbose args) (api_Executor st) (events st)).
Proof.
  intros Hget. unfold main_setup, resolve_passes. rewrite !bind_eq. simpl.
  by rewrite Hget.
Qed.

(** What the process does once [main] has ended. *)
Lemma run_Parsed (cl : cmdline) :
  run E (Parsed cl) =
  match main E cl initial_state with
  | (Returns _, st) => (events st, Some 0)
  | (SysExit code, st) => (events st, Some code)
  | (Raises e, st) =>
      if isinstance e SystemExit then
        (events st ++ (Output <$> (handle_system_exit e).1),
         Some (handle_system_exit e).2)
      else
        (events st ++
           (Output <$> (excepthook (excepthook_verbose st) (exc_type e) e).1),
         Some (default 1 (excepthook (excepthook_verbose st) (exc_type e) e).2))
  end.
Proof.
  unfold run. destruct (main E cl initial_state) as [[[]|e|code] st]; try done.
  destruct (isinstance e SystemExit).
  - by destruct (handle_system_exit e).
  - by destruct (excepthook _ _ _).
Qed.

(** An exception that is an [Exception] or a [KeyboardInterrupt] is no
    [SystemExit]: a class has one base. *)
Lemma Exception_not_SystemExit (cls : pyclass) :
  issubclass cls Exception || issubclass cls KeyboardInterrupt = true →
  issubclass cls SystemExit = false.
Proof.
  unfold issubclass. intros H. apply bool_decide_eq_false.
  apply orb_true_iff in H as [H|H]; apply bool_decide_eq_true in H;
    induction cls as [| | | | | | | | | | | | | | | | | | |name base IH];
    simpl in *;
    try (by (repeat (apply elem_of_cons in H as [H|H]; [discriminate H|]);
             by apply elem_of_nil in H));
    try (intros Hin;
         repeat (apply elem_of_cons in Hin as [Hin|Hin]; [discriminate Hin|]);
         by apply elem_of_nil in Hin).
  all: apply elem_of_cons in H as [H|H]; [discriminate H|];
       intros [Hin|Hin]%elem_of_cons; [discriminate Hin|]; by apply IH.
Qed.

(** C3. When a requested pass name is not registered, the run fails on
    the first such name: [main] raises the domain error whose message is
    that name, followed by " is not a pass, try one of these: " and the
    list of the names of all registered passes; the process prints that
    message and exits with code 1.  When every requested name is
    registered, the passes are resolved, one per name, and nothing is
    raised. *)
Theorem unknown_pass_reported (cl : cmdline) :
  let names := args_passes (namespace_of E cl) in
  ((∃ name, name ∈ names ∧ name ∉ registered) →
     ∃ before name after,
       names = before ++ name :: after
       ∧ Forall (λ name, name ∈ registered) before
       ∧ (name ∉ registered)
       ∧ let message := name +:+ " is not a pass, try one of these: "
                             +:+ py_str_list registered in
         main E cl initial_state =
           (Raises (Error message),
            mk_state [] (cl_verbose cl) PoolExecutor [])
         ∧ run E (Parsed cl) =
             (Output <$> (Cprint message "red" stderr
                            :: traceback (cl_verbose cl) api_Error (Error message)),
              Some 1))
  ∧ ((∀ name, name ∈ names → name ∈ registered) →
     ∃ passes, pass_name <$> passes = names
               ∧ (∀ pass_, pass_ ∈ passes → pass_ ∈ Pass_get_all E)
               ∧ ∀ st, resolve_passes E names st = (Returns passes, st)).
Proof.
  intros names. split.
  - intros Hex. apply Exists_exists in Hex.
    destruct (get_passes_unregistered names Hex)
      as (before & name & after & Hnames & Hbefore & Hbad & Hget).
    exists before, name, after. split_and!; [done..|]. intros message.
    assert (Hmain : main E cl initial_state =
              (Raises (Error message), mk_state [] (cl_verbose cl) PoolExecutor [])).
    { rewrite main_eq. by rewrite (main_setup_unknown _ _ name Hget). }
    split; [done|]. rewrite run_Parsed, Hmain.
    change (isinstance (Error message) SystemExit) with false. simpl.
    unfold excepthook, traceback. simpl. by destruct (cl_verbose cl).
  - intros Hall.
    destruct (get_passes_registered names) as (passes & Hget & Hnames & Hin).
    { by apply Forall_forall. }
    exists passes. split_and!; [done|by apply Forall_forall|].
    intros st. unfold resolve_passes. by rewrite Hget.
Qed.


(** ** The calls of a run *)

(** The calls among the events of the process are those of [main]. *)
Lemma run_call (cl : cmdline) (ev : event) :
  ev ∈ (run E (Parsed cl)).1 → is_call ev = true →
  ev ∈ events (main E cl initial_state).2.
Proof.
  rewrite run_Parsed.
  destruct (main E cl initial_state) as [[[]|e|code] st]; simpl; try done.
  destruct (isinstance e SystemExit); simpl;
    intros [Hin|Hin]%elem_of_app Hcall; try done;
    apply list_elem_of_fmap in Hin as (o & -> & _); discriminate.
Qed.

(** C10. Whatever the run, [rank] is called with [n] equal to the integer
    given with [-n] on the command line, and to 50 when [-n] was not
    given. *)
Theorem rank_n_default_50 (cl : cmdline) (seen : list Submission)
    (subs archive_subs : list ref) (ignored_files : gset string)
    (pass_ : Pass) (n : Z) :
  CallRank seen subs archive_subs ignored_files pass_ n ∈ (run E (Parsed cl)).1 →
  n = match cl_n cl with
      | Some given => given
      | None => 50
      end.
Proof.
  intros Hin%run_call; [|done].
  destruct (main_events cl) as [_ [Hnone|Hsome]].
  - rewrite Forall_forall in Hnone. by apply Hnone in Hin.
  - destruct Hsome as (passes & first & st0 & subs' & archive_subs' & ignored_subs
                       & ignored_files' & st1 & _ & _ & _ & _ & Hall & _).
    rewrite Forall_forall in Hall. apply Hall in Hin. simpl in Hin.
    destruct Hin as (_ & _ & _ & _ & _ & ->). by destruct (cl_n cl).
Qed.

(** C2, amended.  The path and the files of a submission are the same for
    [compare] as they were for [rank], but the preprocessor is not: in
    the store that a call to [compare] is given, every submission carries
    the composed preprocessor of the pass compared, assigned in place
    before the call; the pass is an argument of the call as well. *)
Theorem preprocessor_set_in_place (cl : cmdline) (built seen : list Submission)
    (subs archive_subs : list ref) (ignored_files ignored_files' : gset string)
    (first pass_ : Pass) (n : Z) (scores : Scores) :
  CallRank built subs archive_subs ignored_files first n ∈ (run E (Parsed cl)).1 →
  CallCompare seen scores ignored_files' pass_ ∈ (run E (Parsed cl)).1 →
  seen = setattr_preprocessor (mk_Preprocessor (pass_preprocessors pass_)) <$> built
  ∧ ∀ r sub, built !! r = Some sub →
      ∃ sub', seen !! r = Some sub'
              ∧ sub_path sub' = sub_path sub
              ∧ sub_files sub' = sub_files sub
              ∧ sub_preprocessor sub' = mk_Preprocessor (pass_preprocessors pass_).
Proof.
  intros Hrank%run_call Hcompare%run_call; [|done..].
  assert (Hseen : seen = setattr_preprocessor
                           (mk_Preprocessor (pass_preprocessors pass_)) <$> built).
  { destruct (main_events cl) as [_ [Hnone|Hsome]].
    { rewrite Forall_forall in Hnone. by apply Hnone in Hrank. }
    destruct Hsome as (passes & first' & st0 & subs' & archive_subs' & ignored_subs
                       & ignored_files0 & st1 & _ & _ & _ & Hseq & Hall & _).
    rewrite Forall_forall in Hall.
    apply Hall in Hrank, Hcompare. simpl in Hrank, Hcompare.
    destruct Hrank as (-> & _). destruct Hcompare as (-> & _).
    apply set_preprocessors_all. intros r Hr. rewrite Hseq.
    apply elem_of_seq. lia. }
  split; [done|]. intros r sub Hsub. subst seen.
  eexists. rewrite list_lookup_fmap, Hsub. done.
Qed.


(** ** The results handed to the renderer *)

Lemma dict_get_set (d : list (Pass * Results)) (k k' : Pass) (v : Results) :
  dict_get (dict_set d k v) k' =
  if String.eqb (pass_name k) (pass_name k') then Some v else dict_get d k'.
Proof.
  induction d as [|[k0 v0] d IH]; simpl; [done|].
  destruct (String.eqb (pass_name k0) (pass_name k)) eqn:H0k; simpl.
  - apply String.eqb_eq in H0k. rewrite H0k.
    by destruct (String.eqb (pass_name k) (pass_name k')).
  - rewrite IH. destruct (String.eqb (pass_name k0) (pass_name k')) eqn:H0k'; [|done].
    destruct (String.eqb (pass_name k) (pass_name k')) eqn:Hkk'; [|done].
    apply String.eqb_eq in H0k', Hkk'.
    rewrite <- Hkk' in H0k'. apply String.eqb_eq in H0k'. congruence.
Qed.

(** Once the pairs are all stored, a pass reads back its result, provided
    the pairs give one result per pass name. *)
Lemma dict_get_stored (pairs : list (Pass * Results)) (d : list (Pass * Results))
    (pass_ : Pass) (res : Results) :
  (pass_, res) ∈ pairs ∨ dict_get d pass_ = Some res →
  (∀ pass_' res', (pass_', res') ∈ pairs →
                  pass_name pass_' = pass_name pass_ → res' = res) →
  dict_get (foldl (λ d pr, dict_set d pr.1 pr.2) d pairs) pass_ = Some res.
Proof.
  revert d. induction pairs as [|[k v] pairs IH]; intros d Hin Hone; simpl.
  - destruct Hin as [Hin|Hin]; [inversion Hin|done].
  - apply IH.
    + rewrite dict_get_set.
      destruct (String.eqb (pass_name k) (pass_name pass_)) eqn:Hk.
      * right. f_equal. apply (Hone k v); [by left|by apply String.eqb_eq].
      * destruct Hin as [[Heq|Hin]%elem_of_cons|Hin]; [|by left|by right].
        injection Heq as <- <-. by rewrite String.eqb_refl in Hk.
    + intros k' v' Hin'. apply Hone. by right.
Qed.

Lemma get_passes_inr (names : list string) (passes : list Pass) :
  get_passes E names = inr passes →
  pass_name <$> passes = names
  ∧ ∀ pass_, pass_ ∈ passes → Pass_get E (pass_name pass_) = inr pass_.
Proof.
  revert passes. induction names as [|name names IH]; intros passes; simpl.
  - intros [= <-]. split; [done|]. intros p Hin. inversion Hin.
  - destruct (Pass_get E name) as [e|p] eqn:Hp; [discriminate|].
    destruct (get_passes E names) as [e|passes'] eqn:Hget; [discriminate|].
    intros [= <-]. destruct (IH _ eq_refl) as [Hnames Hin].
    pose proof (Pass_get_inr _ _ Hp) as [_ Hname].
    split; [by rewrite fmap_cons, Hname, Hnames|].
    intros q [->|Hq]%elem_of_cons; [by rewrite Hname | by apply Hin].
Qed.

Lemma Forall2_zip_elem {A B} (P : A → B → Prop) (l : list A) (k : list B) :
  Forall2 P l k →
  (∀ a b, (a, b) ∈ zip l k → P a b)
  ∧ (∀ a, a ∈ l → ∃ b, (a, b) ∈ zip l k).
Proof.
  induction 1 as [|a b l k Hab _ [IH1 IH2]]; simpl.
  - split; intros ? Hin; [intros Hin'; inversion Hin' | inversion Hin].
  - split.
    + intros a' b' [[= -> ->]|Hin]%elem_of_cons; [done|by apply IH1].
    + intros a' [->|Hin]%elem_of_cons.
      * exists b. by left.
      * destruct (IH2 a' Hin) as [b' Hb']. exists b'. by right.
Qed.


(** C4. In a run that [main] completes, the collaborators are called as
    follows and not otherwise: [rank] once, with the first of the
    requested passes and [args.n]; then [compare] once for each requested
    pass, in the order requested, on the scores that [rank] returned;
    then [render] once, with a dict in which every requested pass reads
    the results that [compare] returned for it. *)
Theorem rank_once_compare_every_pass (cl : cmdline) (st : state) :
  let args := namespace_of E cl in
  main E cl initial_state = (Returns (), st) →
  ∃ passes first rest built executor subs archive_subs ignored_files scores d,
    let store (pass_ : Pass) :=
      setattr_preprocessor (mk_Preprocessor (pass_preprocessors pass_)) <$> built in
    get_passes E (args_passes args) = inr passes
    ∧ pass_name <$> passes = args_passes args
    ∧ passes = first :: rest
    ∧ calls (events st) =
        CallRank built subs archive_subs ignored_files first (args_n args)
        :: ((λ pass_, CallCompare (store pass_) scores ignored_files pass_) <$> passes)
        ++ [CallRender d (args_output args)]
    ∧ api_rank E built executor subs archive_subs ignored_files first (args_n args)
      = inr scores
    ∧ ∀ pass_, pass_ ∈ passes →
        ∃ res, api_compare E (store pass_) executor scores ignored_files pass_
               = inr res
               ∧ dict_get d pass_ = Some res.
Proof.
  intros args H. rewrite main_eq in H. fold args in H. clearbody args.
  destruct (main_setup_state args initial_state) as (_ & Hobj0 & new0 & Hev0 & Hnew0).
  destruct (main_setup E args initial_state) as [[[passes first]|e|code] st0] eqn:Hsetup;
    try discriminate.
  simpl in Hobj0, Hev0.
  apply main_setup_Returns in Hsetup as [Hget Hhead].
  destruct (get_passes_inr _ _ Hget) as [Hnames Hone].
  destruct (profiler_error E (args_profile args)) as [e|]; [discriminate|].
  rewrite main_body_eq in H.
  set (pre := mk_Preprocessor (pass_preprocessors first)) in *.
  set (st0' := add_events (enter_events (args_profile args)) st0) in *.
  assert (Hcalls1 : calls (events st0') = calls (events st0)).
  { subst st0'. simpl. rewrite calls_app.
    unfold enter_events. destruct (args_profile args); simpl; by rewrite app_nil_r. }
  assert (Hobj1 : objects st0' = []) by done.
  clearbody st0'.
  pose proof (steady_calls (collect E (factory_of cl) args pre) st0'
                (steady_collect _ _ _)) as Hcalls2.
  destruct (collect E (factory_of cl) args pre st0')
    as [[[[[subs archive_subs] ignored_subs] ignored_files]|e|code] st1] eqn:Hcollect;
    [|by destruct (statistics_error E (args_profile args))..].
  simpl in Hcalls2.
  destruct (collect_Returns _ _ _ _ _ _ _ _ _ Hcollect) as (Hseq & _ & _).
  rewrite Hobj1 in Hseq. simpl in Hseq. rewrite Nat.sub_0_r in Hseq.
  case_bool_decide; [by destruct (statistics_error E (args_profile args))|].
  destruct (rank_compare_render E args passes first subs archive_subs
              ignored_subs ignored_files st1) as [[index|e|code] st2] eqn:Hrcr;
    [|by destruct (statistics_error E (args_profile args))..].
  destruct (statistics_error E (args_profile args)) as [e|]; [discriminate|].
  apply rank_compare_render_Returns in Hrcr
    as (scores & results & d & Hrank & Hall & Hd & Hrender & Hcalls3).
  injection H as <-.
  assert (Hcalls4 : calls (events (add_events (leave_events E (args_profile args)
                                                 ++ [done_event E index]) st2))
                    = calls (events st2)).
  { simpl. rewrite !calls_app. unfold leave_events, statistics_events.
    destruct (args_profile args); simpl; by rewrite app_nil_r. }
  assert (Hstore : ∀ pass_ : Pass,
            set_preprocessors (mk_Preprocessor (pass_preprocessors pass_))
                              (subs ++ archive_subs ++ ignored_subs) (objects st1)
            = setattr_preprocessor (mk_Preprocessor (pass_preprocessors pass_))
                <$> objects st1).
  { intros p. apply set_preprocessors_all. intros r Hr. rewrite Hseq.
    apply elem_of_seq. lia. }
  destruct passes as [|first' rest]; [discriminate|]. injection Hhead as ->.
  exists (first :: rest), first, rest, (objects st1), (api_Executor st1), subs,
         archive_subs, ignored_files, scores, d.
  cbv zeta. split_and!; [done..| | done |].
  - transitivity (calls (events st2)); [exact Hcalls4|].
    rewrite Hcalls3, Hcalls2, Hcalls1, Hev0.
    rewrite (calls_no_call new0 Hnew0).
    rewrite (list_fmap_ext _
               (λ pass_, CallCompare
                  (setattr_preprocessor (mk_Preprocessor (pass_preprocessors pass_))
                     <$> objects st1) scores ignored_files pass_) (first :: rest)).
    + done.
    + intros _ p _. by rewrite Hstore.
  - intros p Hp. apply Forall2_zip_elem in Hall as [Hzip Hsome].
    destruct (Hsome p Hp) as [res Hres]. exists res.
    pose proof (Hzip _ _ Hres) as Hcompare. simpl in Hcompare.
    rewrite Hstore in Hcompare. split; [done|].
    rewrite Hd. apply dict_get_stored; [by left|].
    intros p' res' Hin' Hname.
    pose proof (Hzip _ _ Hin') as Hcompare'. simpl in Hcompare'.
    assert (p' = p) as ->.
    { assert (Hp' : p' ∈ first :: rest) by (by eapply elem_of_zip_l).
      apply Hone in Hp, Hp'. rewrite Hname in Hp'. congruence. }
    rewrite Hstore in Hcompare'. congruence.
Qed.


(** ** Errors and exit codes *)

(** C5, amended.  The hook reports by class.  A domain error (of the
    class [_api.Error] or [lib50.Error], or of a subclass) that carries a
    message is reported by that message alone; a [FileNotFoundError] by
    the name of the file followed by " not found"; any other [Exception],
    and [KeyboardInterrupt], by the fixed message.  In each of these
    cases the traceback follows exactly when [excepthook.verbose] is set,
    and the hook exits with code 1.  Any other [BaseException] is let go
    by the hook, which writes nothing and returns.  For an exception that
    [main] raises, [excepthook.verbose] is the [-v] option of the command
    line: the process writes what the hook writes and exits with the
    code of the hook, and with code 1 when the hook returns; the hook is
    not called for a [SystemExit], which ends the process itself. *)
Theorem errors_reported_by_class :
  (∀ (verbose : bool) (cls : pyclass) (e : exc),
     let domain := (issubclass cls api_Error || issubclass cls lib50_Error)
                   && negb (bool_decide (exc_args e = [])) in
     let tb := if verbose then [PrintException cls e] else [] in
     (domain = true →
        excepthook verbose cls e = (Cprint (exc_str e) "red" stderr :: tb, Some 1))
     ∧ (domain = false → cls = FileNotFoundError →
        excepthook verbose cls e =
          (Cprint (py_format_opt (exc_filename e) +:+ " not found") "red" stderr
             :: tb, Some 1))
     ∧ (domain = false → cls ≠ FileNotFoundError →
        issubclass cls Exception || isinstance e KeyboardInterrupt = true →
        excepthook verbose cls e = (Cprint sorry_message "red" stderr :: tb, Some 1))
     ∧ (domain = false → cls ≠ FileNotFoundError →
        issubclass cls Exception || isinstance e KeyboardInterrupt = false →
        excepthook verbose cls e = ([], None)))
  ∧ (∀ (cl : cmdline) (e : exc) (st : state),
       main E cl initial_state = (Raises e, st) →
       (isinstance e Exception || isinstance e KeyboardInterrupt = true →
        run E (Parsed cl) =
          (events st ++ (Output <$> (excepthook (cl_verbose cl) (exc_type e) e).1),
           (excepthook (cl_verbose cl) (exc_type e) e).2))
       ∧ run E (Parsed cl) =
           if isinstance e SystemExit then
             (events st ++ (Output <$> (handle_system_exit e).1),
              Some (handle_system_exit e).2)
           else
             (events st
                ++ (Output <$> (excepthook (cl_verbose cl) (exc_type e) e).1),
              Some (default 1 (excepthook (cl_verbose cl) (exc_type e) e).2))).
Proof.
  split.
  - intros verbose cls e. apply excepthook_cases.
  - intros cl e st Hmain. rewrite run_Parsed.
    destruct (main_events cl) as [Hv _]. rewrite Hmain in *. simpl in Hv.
    rewrite Hv. split; [|done].
    intros He. unfold isinstance.
    rewrite (Exception_not_SystemExit (exc_type e) He).
    by rewrite (excepthook_reported (cl_verbose cl) (exc_type e) e He).
Qed.

(** C6. A command line that the parser rejects ends the process with
    code 2; an exception raised by [main], of a class derived from
    [Exception] or a [KeyboardInterrupt], ends it with code 1; the two
    codes differ. *)
Theorem exit_codes_distinct (cl : cmdline) (message : string) (e : exc)
    (st : state) :
  main E cl initial_state = (Raises e, st) →
  isinstance e Exception || isinstance e KeyboardInterrupt = true →
  (run E (UsageError message)).2 = Some 2
  ∧ (run E (Parsed cl)).2 = Some 1
  ∧ (run E (UsageError message)).2 ≠ (run E (Parsed cl)).2.
Proof.
  intros Hmain He.
  assert (H1 : (run E (Parsed cl)).2 = Some 1).
  { rewrite run_Parsed, Hmain. unfold isinstance.
    rewrite (Exception_not_SystemExit (exc_type e) He). simpl.
    by rewrite (excepthook_reported _ (exc_type e) e He). }
  split; [done|]. split; [done|]. by rewrite H1.
Qed.

End Run.

(** * Further properties of the driver *)

(** ** Classes *)

Lemma mro_self (c : pyclass) : c ∈ mro c.
Proof. destruct c; by left. Qed.

Lemma mro_trans (c d x : pyclass) : d ∈ mro c → x ∈ mro d → x ∈ mro c.
Proof.
  induction c; simpl; intros Hd Hx;
    try (repeat (apply elem_of_cons in Hd as [->|Hd]);
         try (by inversion Hd); simpl in Hx;
         repeat (apply elem_of_cons in Hx as [->|Hx]);
         try (by inversion Hx);
         repeat (first [by left | right]); fail).
  apply elem_of_cons in Hd as [->|Hd]; [exact Hx|]. right. by apply IHc.
Qed.

(** [issubclass] is transitive. *)
Lemma issubclass_trans (c d x : pyclass) :
  issubclass c d = true → issubclass d x = true → issubclass c x = true.
Proof.
  unfold issubclass. rewrite !bool_decide_eq_true. intros. by eapply mro_trans.
Qed.

(** X1. A domain error raised without arguments is not reported as a domain
    error: the hook writes the fixed message, as for an unexpected
    exception, and exits with code 1. *)
Theorem domain_error_without_message (verbose : bool) (cls : pyclass) (e : exc) :
  issubclass cls api_Error || issubclass cls lib50_Error = true →
  exc_args e = [] →
  excepthook verbose cls e =
    (Cprint sorry_message "red" stderr
       :: (if verbose then [PrintException cls e] else []),
     Some 1).
Proof.
  intros Hdomain Hargs.
  assert (Hexc : issubclass cls Exception = true).
  { apply orb_true_iff in Hdomain as [H|H];
      (eapply issubclass_trans; [exact H|reflexivity]). }
  assert (Hnot : cls ≠ FileNotFoundError).
  { intros ->. by apply orb_true_iff in Hdomain as [H|H]. }
  destruct (excepthook_cases verbose cls e) as (_ & _ & Hother & _).
  apply Hother; [|done|by rewrite Hexc].
  rewrite Hargs. by rewrite bool_decide_eq_true_2, andb_false_r.
Qed.

(** X2. Only [FileNotFoundError] itself is reported by the name of the file:
    for a class derived from it (and not from the domain errors) the hook
    writes the fixed message. *)
Theorem file_not_found_subclass_generic (verbose : bool) (cls : pyclass) (e : exc) :
  issubclass cls FileNotFoundError = true →
  cls ≠ FileNotFoundError →
  issubclass cls api_Error || issubclass cls lib50_Error = false →
  excepthook verbose cls e =
    (Cprint sorry_message "red" stderr
       :: (if verbose then [PrintException cls e] else []),
     Some 1).
Proof.
  intros Hsub Hnot Hdomain.
  assert (Hexc : issubclass cls Exception = true).
  { eapply issubclass_trans; [exact Hsub|reflexivity]. }
  destruct (excepthook_cases verbose cls e) as (_ & _ & Hother & _).
  apply Hother; [by rewrite Hdomain|done|by rewrite Hexc].
Qed.

(** ** The composed preprocessor, the patterns, the listing *)

Section Pure.

Context {Tokens Scores Results : Type}.
Variable E : @Env Tokens Scores Results.

(** X3. The composed preprocessor applies its functions in the order of
    the list, each to the result of the one before: the preprocessor of
    no function returns the tokens as they are; the one of a single
    function [f] returns [f tokens]; the one of [f] followed by more
    functions is the one of these applied to [f tokens]; and the one of
    two lists joined is the one of the first list, then the one of the
    second on its result. *)
Theorem Preprocessor_call_app (f : Tokens → Tokens)
    (first_ones then_ones : list (Tokens → Tokens)) (tokens : Tokens) :
  Preprocessor_call (mk_Preprocessor []) tokens = tokens
  ∧ Preprocessor_call (mk_Preprocessor [f]) tokens = f tokens
  ∧ Preprocessor_call (mk_Preprocessor (f :: then_ones)) tokens =
      Preprocessor_call (mk_Preprocessor then_ones) (f tokens)
  ∧ Preprocessor_call (mk_Preprocessor (first_ones ++ then_ones)) tokens =
      Preprocessor_call (mk_Preprocessor then_ones)
        (Preprocessor_call (mk_Preprocessor first_ones) tokens).
Proof.
  unfold Preprocessor_call. simpl. split_and!; try reflexivity.
  by rewrite foldl_app.
Qed.

Lemma IncludeExcludeAction_call_patterns (self : SubmissionFactory)
    (action : PatternType * list string) :
  patterns (IncludeExcludeAction_call self action) =
  patterns self ++ (mk_FilePattern action.1 <$> action.2).
Proof.
  destruct action as [type values]. unfold IncludeExcludeAction_call. simpl.
  revert self. induction values as [|v values IH]; intros self; simpl.
  - by rewrite app_nil_r.
  - rewrite IH. destruct type; simpl; by rewrite <- app_assoc.
Qed.

(** X4. The factory holds the patterns of all [-i] and [-x] options in the
    order in which they stand on the command line, each with the type of
    its option. *)
Theorem factory_patterns_in_order (cl : cmdline) :
  patterns (factory_of cl) =
  flat_map (λ action, mk_FilePattern action.1 <$> action.2) (cl_patterns cl).
Proof.
  unfold factory_of.
  assert (H : ∀ actions self,
            patterns (foldl IncludeExcludeAction_call self actions) =
            patterns self
              ++ flat_map (λ action, mk_FilePattern action.1 <$> action.2) actions).
  { induction actions as [|action actions IH]; intros self; simpl.
    - by rewrite app_nil_r.
    - by rewrite IH, IncludeExcludeAction_call_patterns, <- app_assoc. }
  by rewrite H.
Qed.

Lemma String_length_app (s1 s2 : string) :
  String.length (s1 +:+ s2) = (String.length s1 + String.length s2)%nat.
Proof.
  induction s1 as [|c s1 IH]; [done|].
  change (S (String.length (s1 +:+ s2))
          = S (String.length s1 + String.length s2)).
  by rewrite IH.
Qed.

(** X5. When [textwrap.wrap] keeps its lines within the width asked for,
    every line of the listing is the name of a registered pass or a line
    of description, indented by four spaces and no longer than 80
    characters; every registered pass has its name printed; the listing
    ends the run with code 0. *)
Theorem listing_fits_80_columns (wrap : string → nat → list string) :
  (∀ text width line, line ∈ wrap text width → (String.length line ≤ width)%nat) →
  (∀ o, o ∈ (ListAction_call wrap E).1 →
     ∃ text, o = PyPrint text
       ∧ (text ∈ registered E
          ∨ (String.length text ≤ 80)%nat
            ∧ ∃ line, text = indentation +:+ line))
  ∧ (∀ name, name ∈ registered E → PyPrint name ∈ (ListAction_call wrap E).1)
  ∧ (ListAction_call wrap E).2 = Some 0.
Proof.
  intros Hwrap. unfold ListAction_call, registered. simpl. split_and!; [| |done].
  - intros o Hin. apply list_elem_of_In, in_flat_map in Hin as (p & Hp & Hin).
    apply list_elem_of_In in Hp, Hin.
    apply elem_of_cons in Hin as [->|Hin].
    + eexists. split; [done|]. left. apply list_elem_of_fmap. eauto.
    + apply list_elem_of_fmap in Hin as (line & -> & Hline).
      eexists. split; [done|]. right. split; [|eauto].
      apply Hwrap in Hline. rewrite String_length_app. simpl in *. lia.
  - intros name (p & -> & Hp)%list_elem_of_fmap.
    apply list_elem_of_In, in_flat_map. exists p.
    split; [by apply list_elem_of_In|]. by left.
Qed.

(** ** Exceptions that [_get] does not swallow *)

Lemma decodable_files_raises (root : Path) (before after : list string)
    (file_path : string) (e : exc) :
  (∀ f e', f ∈ before → open_read E (Path_join root f) = Some e' →
           isinstance e' UnicodeDecodeError = true) →
  open_read E (Path_join root file_path) = Some e →
  isinstance e UnicodeDecodeError = false →
  decodable_files E root (before ++ file_path :: after) = inl e.
Proof.
  intros Hbefore Hread Hother.
  induction before as [|f before IH]; simpl.
  - by rewrite Hread, Hother.
  - rewrite IH; [|intros g e' Hin; apply Hbefore; by right].
    destruct (open_read E (Path_join root f)) as [e'|] eqn:Hf; [|done].
    by rewrite (Hbefore f e'); [|by left|].
Qed.

(** X6. An exception other than [UnicodeDecodeError] raised while a file of a
    submission is opened or read is not a reason to skip the file: [_get]
    raises it, the first one met, whatever the other files are. *)
Theorem get_propagates_read_error (self : SubmissionFactory) (path root : Path)
    (preprocessor : Preprocessor) (before after : list string)
    (file_path : string) (e : exc) :
  discover E self path = inr (root, before ++ file_path :: after) →
  (∀ f e', f ∈ before → open_read E (Path_join root f) = Some e' →
           isinstance e' UnicodeDecodeError = true) →
  open_read E (Path_join root file_path) = Some e →
  isinstance e UnicodeDecodeError = false →
  SubmissionFactory__get E self path preprocessor = inl e.
Proof.
  intros Hdisc Hbefore Hread Hother. unfold SubmissionFactory__get.
  by rewrite Hdisc, (decodable_files_raises root before after file_path e).
Qed.

End Pure.

(** ** More on [get_all] *)

Section More.

Context {Tokens Scores Results : Type}.
Variable E : @Env Tokens Scores Results.

Local Abbreviation M := (@M Tokens Scores Results).
Local Abbreviation state := (@state Tokens Scores Results).
Local Abbreviation event := (@event Tokens Scores Results).
Local Abbreviation Submission := (@Submission Tokens).
Local Abbreviation Preprocessor := (@Preprocessor Tokens).
Local Abbreviation Pass := (@Pass Tokens).
Local Abbreviation prompt := (prompt E).
Local Abbreviation add_events := (@add_events Tokens Scores Results).

Ltac run_in H := repeat (rewrite bind_eq in H; simpl in H).
Ltac run_goal := repeat (rewrite bind_eq; simpl).

(** When the loop of [get_all] returns, no path raised anything but the
    domain error. *)
Lemma get_all_from_Returns_ok (self : SubmissionFactory) (paths : list Path)
    (preprocessor : Preprocessor) (subs subs' : list ref) (st st' : state) :
  get_all_from E self paths preprocessor subs st = (Returns subs', st') →
  ∀ path e, path ∈ paths →
    SubmissionFactory__get E self path preprocessor = inl e →
    isinstance e api_Error = true.
Proof.
  revert subs st. induction paths as [|path0 rest IH]; intros subs st H path e Hin Hget.
  { inversion Hin. }
  simpl in H. apply elem_of_cons in Hin as [->|Hin].
  - rewrite Hget in H. by destruct (isinstance e api_Error).
  - destruct (SubmissionFactory__get E self path0 preprocessor) as [e0|sub].
    + destruct (isinstance e0 api_Error); [by eapply IH|discriminate].
    + rewrite bind_eq in H.
      destruct (set_add E sub subs st) as [[subs1|e1|code] st1]; try discriminate.
      by eapply IH.
Qed.

(** X7. [get_all] starts from an empty set each time it is called: when it
    returns, the submissions it adds to the store are the same whatever
    the store holds already, be it the submissions of these very paths. *)
Theorem get_all_independent_of_store (self : SubmissionFactory)
    (paths : list Path) (preprocessor : Preprocessor) (st : state)
    (subs : list ref) (st1 : state) :
  SubmissionFactory_get_all E self paths preprocessor st = (Returns subs, st1) →
  ∃ news,
    ∀ st', SubmissionFactory_get_all E self paths preprocessor st' =
             (Returns (seq (length (objects st')) (length news)),
              with_objects (objects st' ++ news) st').
Proof.
  unfold SubmissionFactory_get_all. intros H.
  pose proof (get_all_from_Returns_ok _ _ _ _ _ _ _ H) as Hok.
  exists (kept E self preprocessor paths []). intros st'.
  rewrite (get_all_from_returns E self paths preprocessor [] st'); [done| |done].
  intros r Hin. inversion Hin.
Qed.

(** X8. [get_all] raises what the first path raises that is neither built nor
    dropped: the paths after it are not looked at. *)
Theorem get_all_raises_first_error (self : SubmissionFactory)
    (before after : list Path) (path : Path) (preprocessor : Preprocessor)
    (e : exc) (st : state) :
  (∀ path' e', path' ∈ before →
     SubmissionFactory__get E self path' preprocessor = inl e' →
     isinstance e' api_Error = true) →
  SubmissionFactory__get E self path preprocessor = inl e →
  isinstance e api_Error = false →
  ∃ st', SubmissionFactory_get_all E self (before ++ path :: after) preprocessor st
         = (Raises e, st')
         ∧ events st' = events st.
Proof.
  intros Hbefore Hget Hother. unfold SubmissionFactory_get_all.
  rewrite get_all_from_app, bind_eq.
  rewrite (get_all_from_returns E self before preprocessor [] st); [| |done].
  - simpl. rewrite Hget, Hother. eexists. split; [done|]. done.
  - intros r Hin. inversion Hin.
Qed.

(** ** The output path *)

(** Lines 265-268: the calls made, and what they raise. *)
Lemma remove_output_eq (output : Path) (st : state) :
  remove_output E output st =
  (match removal_error E output with
   | None => Returns ()
   | Some e => Raises e
   end,
   add_events (removal E output) st).
Proof.
  unfold remove_output, removal_error, removal, add_events, emit.
  rewrite bind_eq. simpl.
  destruct (os_remove E output) as [e|]; [|done].
  destruct (isinstance e IsADirectoryError); [|done].
  rewrite bind_eq. simpl. rewrite <- app_assoc.
  by destruct (shutil_rmtree E output).
Qed.

(** Lines 256-271, case by case. *)
Lemma clear_output_cases (output : Path) (st : state) :
  clear_output E output st =
  match output_entry E output, input_line E with
  | None, _ => (Returns (), st)
  | Some _, Some resp =>
      if accepted resp then
        (match removal_error E output with
         | None => Returns ()
         | Some e => Raises e
         end,
         add_events (prompt output :: removal E output) st)
      else
        (SysExit 1,
         add_events [prompt output; Output (PyPrint "Quitting...")] st)
  | Some _, None =>
      (SysExit 1,
       add_events [prompt output; Output (PyPrint EmptyString);
                   Output (PyPrint "Quitting...")] st)
  end.
Proof.
  unfold clear_output, prompt.
  destruct (output_entry E output) as [what|]; [|done].
  destruct (input_line E) as [resp|]; run_goal.
  - destruct (accepted resp).
    + rewrite remove_output_eq. unfold add_events. simpl.
      by rewrite <- app_assoc.
    + run_goal. unfold sys_exit, add_events. simpl. by rewrite <- !app_assoc.
  - unfold sys_exit, add_events. simpl. by rewrite <- !app_assoc.
Qed.

(** Lines 235-271 once the passes are resolved. *)
Lemma main_setup_resolved (args : Namespace) (st : state) (first : Pass)
    (rest : list Pass) :
  get_passes E (args_passes args) = inr (first :: rest) →
  main_setup E args st =
    let st1 := mk_state (objects st) (args_verbose args)
                 (if args_profile args || args_debug args
                  then FauxExecutor else api_Executor st)
                 (events st) in
    match clear_output E (args_output args) st1 with
    | (Returns _, st2) => (Returns (first :: rest, first), st2)
    | (Raises e, st2) => (Raises e, st2)
    | (SysExit code, st2) => (SysExit code, st2)
    end.
Proof.
  intros Hget. unfold main_setup, resolve_passes. rewrite Hget. run_goal.
  destruct (args_profile args || args_debug args); simpl; rewrite bind_eq;
    by destruct (clear_output E (args_output args) _) as [[[]|?|?] ?].
Qed.

(** X9. When the output path exists and the user does not agree to its
    removal (the reply is neither empty nor starts with y or Y, or the
    input is at its end), the run prints "Quitting..." and ends with
    code 1: nothing is removed, no submission is read, no collaborator is
    called. *)
Theorem declined_removal_quits (cl : cmdline) (first : Pass) (rest : list Pass)
    (what : entry) :
  let args := namespace_of E cl in
  get_passes E (args_passes args) = inr (first :: rest) →
  output_entry E (args_output args) = Some what →
  match input_line E with
  | Some resp => accepted resp = false
  | None => True
  end →
  run E (Parsed cl) =
    ([prompt (args_output args)]
       ++ match input_line E with
          | Some _ => []
          | None => [Output (PyPrint EmptyString)]
          end
       ++ [Output (PyPrint "Quitting...")],
     Some 1).
Proof.
  intros args Hget Hentry Hresp. rewrite run_Parsed, main_eq. fold args.
  rewrite (main_setup_resolved _ _ _ _ Hget). cbv zeta.
  rewrite clear_output_cases, Hentry.
  destruct (input_line E) as [resp|]; [rewrite Hresp|]; reflexivity.
Qed.

(** ** The [with] statement *)

Ltac steady_step :=
  first
    [ apply steady_ret | apply steady_raise | apply steady_sys_exit
    | apply steady_lift | apply steady_get_state | apply steady_set_objects
    | apply steady_set_Executor | apply steady_get_all_from
    | apply steady_emit; [try done]
    | apply steady_leaving
    | apply steady_bind; [|intros ?]
    | match goal with
      | |- steady _ (match ?x with _ => _ end) => destruct x
      end ].

Ltac steady := repeat steady_step.

Lemma steady_compare_passes_body (passes : list Pass) (all_subs : list ref)
    (scores : Scores) (ignored_files : gset string) (d : list (Pass * Results)) :
  steady (λ ev, body_event ev = true)
         (compare_passes E passes all_subs scores ignored_files d).
Proof.
  revert d. induction passes as [|pass_ rest IH]; intros d; simpl.
  - apply steady_ret.
  - unfold call_compare. steady. apply IH.
Qed.

Lemma steady_main_body (self : SubmissionFactory) (args : Namespace)
    (passes : list Pass) (first : Pass) (preprocessor : Preprocessor) :
  steady (λ ev, body_event ev = true)
         (main_body E self args passes first preprocessor).
Proof.
  unfold main_body, collect, SubmissionFactory_get_all, rank_compare_render,
    call_rank, call_render.
  steady; try apply steady_compare_passes_body; steady.
Qed.

Lemma never_exits_bind {A B} (m : M A) (f : A → M B) :
  never_exits m → (∀ a, never_exits (f a)) → never_exits (m ≫= f).
Proof.
  intros Hm Hf st code. rewrite bind_eq. specialize (Hm st).
  destruct (m st) as [[a|e|code'] st1]; simpl in *; [apply Hf|done|].
  by destruct (Hm code').
Qed.

Lemma never_exits_lift {A} (r : exc + A) : never_exits (lift r : M A).
Proof. by destruct r. Qed.

Lemma never_exits_get_all_from (self : SubmissionFactory) (paths : list Path)
    (preprocessor : Preprocessor) (subs : list ref) :
  never_exits (get_all_from E self paths preprocessor subs).
Proof.
  revert subs. induction paths as [|path rest IH]; intros subs; simpl; [done|].
  destruct (SubmissionFactory__get E self path preprocessor) as [e|sub].
  - by destruct (isinstance e api_Error).
  - apply never_exits_bind; [|done]. intros st code. unfold set_add.
    run_goal. by destruct (set_mem E (objects st) sub subs).
Qed.

Ltac never_exits :=
  repeat first
    [ apply never_exits_lift | apply never_exits_get_all_from
    | apply never_exits_bind; [|intros ?]
    | done ].

Lemma never_exits_compare_passes (passes : list Pass) (all_subs : list ref)
    (scores : Scores) (ignored_files : gset string) (d : list (Pass * Results)) :
  never_exits (compare_passes E passes all_subs scores ignored_files d).
Proof.
  revert d. induction passes as [|pass_ rest IH]; intros d; simpl; [done|].
  unfold call_compare. never_exits.
Qed.

Lemma never_exits_main_body (self : SubmissionFactory) (args : Namespace)
    (passes : list Pass) (first : Pass) (preprocessor : Preprocessor) :
  never_exits (main_body E self args passes first preprocessor).
Proof.
  unfold main_body, collect, SubmissionFactory_get_all, rank_compare_render,
    call_rank, call_render.
  never_exits.
  match goal with a : _ * _ |- _ => destruct a as [[[? ?] ?] ?] end.
  case_bool_decide; [done|]. never_exits.
  apply never_exits_compare_passes.
Qed.

(** When lines 235-271 do not return, [main] ends as they do. *)
Lemma main_not_set_up (cl : cmdline) (st : state) :
  match main_setup E (namespace_of E cl) st with
  | (Returns _, _) => True
  | (Raises e, st0) => main E cl st = (Raises e, st0)
  | (SysExit code, st0) => main E cl st = (SysExit code, st0)
  end.
Proof.
  rewrite main_eq. by destruct (main_setup E _ st) as [[[]|?|?] ?].
Qed.

(** [main] once lines 235-271 have returned. *)
Lemma with_statement_events (cl : cmdline) (passes : list Pass)
    (first : Pass) (st0 : state) :
  let args := namespace_of E cl in
  main_setup E args initial_state = (Returns (passes, first), st0) →
  match profiler_error E (args_profile args) with
  | Some e => main E cl initial_state = (Raises e, st0)
  | None =>
      ∃ body tail,
        events (main E cl initial_state).2 =
          events st0 ++ enter_events (args_profile args) ++ body
                     ++ ProgressExit :: tail
        ∧ Forall (λ ev, body_event ev = true) body
        ∧ match statistics_error E (args_profile args) with
          | Some e => (main E cl initial_state).1 = Raises e ∧ tail = []
          | None =>
              match (main E cl initial_state).1 with
              | Returns _ =>
                  ∃ index, tail = statistics_events E (args_profile args)
                                    ++ [done_event E index]
              | Raises _ => tail = statistics_events E (args_profile args)
              | SysExit _ => False
              end
          end
  end.
Proof.
  intros args Hsetup. rewrite main_eq. fold args. rewrite Hsetup.
  destruct (profiler_error E (args_profile args)) as [e|]; [done|].
  set (st1 := add_events (enter_events (args_profile args)) st0).
  destruct (steady_emits _ (main_body E (factory_of cl) args passes first
              (mk_Preprocessor (pass_preprocessors first))) st1
              (steady_main_body _ _ _ _ _)) as (_ & body & Hev & Hbody).
  pose proof (never_exits_main_body (factory_of cl) args passes first
                (mk_Preprocessor (pass_preprocessors first)) st1) as Hexit.
  destruct (main_body E (factory_of cl) args passes first _ st1)
    as [o st2]; cbn [fst snd] in Hev, Hexit.
  assert (Hevents : ∀ tail,
            events (add_events (ProgressExit :: tail) st2) =
            events st0 ++ enter_events (args_profile args) ++ body
                       ++ ProgressExit :: tail).
  { intros tail. simpl. rewrite Hev. subst st1. simpl. by rewrite <- !app_assoc. }
  destruct (statistics_error E (args_profile args)) as [e|].
  { exists body, []. by split_and!; [apply Hevents|..]. }
  destruct o as [index|e|code]; cbn [fst snd].
  - exists body, (statistics_events E (args_profile args) ++ [done_event E index]).
    split_and!; [apply Hevents|done|by exists index].
  - exists body, (statistics_events E (args_profile args)).
    by split_and!; [apply Hevents|..].
  - by destruct (Hexit code).
Qed.

(** X10. Once lines 235-271 have returned, the run comes to the [with]
    statement.  With [--profile], when the profiler cannot be started
    ([line_profiler] is not installed) [main] raises what the import
    raises: nothing is entered and nothing more is done.  Otherwise the
    profiler (with [--profile]) and the progress bar are entered, and the
    progress bar is left however the body ends; in between are progress
    reports and calls to the collaborators only.  After the progress bar
    the profiler writes its statistics: when that fails, [main] raises
    what it raises; when not, the message "Done! ..." follows exactly
    when [main] returns, and [main] does not end in [sys.exit]. *)
Theorem with_statement_always_left (cl : cmdline) (passes : list Pass)
    (first : Pass) (st0 : state) :
  let args := namespace_of E cl in
  main_setup E args initial_state = (Returns (passes, first), st0) →
  match profiler_error E (args_profile args) with
  | Some e => main E cl initial_state = (Raises e, st0)
  | None =>
      ∃ body tail,
        events (main E cl initial_state).2 =
          events st0 ++ enter_events (args_profile args) ++ body
                     ++ ProgressExit :: tail
        ∧ Forall (λ ev, body_event ev = true) body
        ∧ match statistics_error E (args_profile args) with
          | Some e => (main E cl initial_state).1 = Raises e ∧ tail = []
          | None =>
              match (main E cl initial_state).1 with
              | Returns _ =>
                  ∃ index, tail = statistics_events E (args_profile args)
                                    ++ [done_event E index]
              | Raises _ => tail = statistics_events E (args_profile args)
              | SysExit _ => False
              end
          end
  end.
Proof. apply with_statement_events. Qed.

(** ** Exit codes, and what a run removes *)

(** What lines 235-271 add to the events. *)
Lemma main_setup_events (args : Namespace) :
  events (main_setup E args initial_state).2 =
  match get_passes E (args_passes args) with
  | inr (_ :: _) =>
      match output_entry E (args_output args), input_line E with
      | None, _ => []
      | Some _, Some resp =>
          if accepted resp then
            prompt (args_output args) :: removal E (args_output args)
          else [prompt (args_output args); Output (PyPrint "Quitting...")]
      | Some _, None =>
          [prompt (args_output args); Output (PyPrint EmptyString);
           Output (PyPrint "Quitting...")]
      end
  | _ => []
  end.
Proof.
  destruct (get_passes E (args_passes args)) as [e|[|first rest]] eqn:Hget.
  - unfold main_setup, resolve_passes. rewrite Hget. run_goal.
    destruct (isinstance e KeyError); [destruct (exc_args e)|]; done.
  - unfold main_setup, resolve_passes. rewrite Hget. by run_goal.
  - rewrite (main_setup_resolved _ _ _ _ Hget). cbv zeta.
    rewrite clear_output_cases.
    destruct (output_entry E (args_output args)) as [what|]; [|done].
    destruct (input_line E) as [resp|]; [destruct (accepted resp)|]; try done.
    by destruct (removal_error E (args_output args)).
Qed.

(** Every [sys.exit] of [main] has the code 1. *)
Lemma main_setup_exit_code (args : Namespace) (st st' : state) (code : Z) :
  main_setup E args st = (SysExit code, st') → code = 1.
Proof.
  destruct (get_passes E (args_passes args)) as [e|[|first rest]] eqn:Hget.
  - unfold main_setup, resolve_passes. rewrite Hget. run_goal.
    destruct (isinstance e KeyError); [destruct (exc_args e)|]; done.
  - unfold main_setup, resolve_passes. rewrite Hget. by run_goal.
  - rewrite (main_setup_resolved _ _ _ _ Hget). cbv zeta.
    rewrite clear_output_cases.
    destruct (output_entry E (args_output args)) as [what|]; [|done].
    destruct (input_line E) as [resp|]; [destruct (accepted resp)|];
      try congruence.
    by destruct (removal_error E (args_output args)).
Qed.

Lemma main_exit_code (cl : cmdline) (code : Z) (st : state) :
  main E cl initial_state = (SysExit code, st) → code = 1.
Proof.
  intros Hmain.
  pose proof (main_not_set_up cl initial_state) as Hnot.
  destruct (main_setup E (namespace_of E cl) initial_state)
    as [[[passes first]|e'|code'] st0] eqn:Hsetup.
  - pose proof (with_statement_events cl passes first st0 Hsetup) as Hwith.
    cbv zeta in Hwith.
    destruct (profiler_error E _) as [e|]; [congruence|].
    destruct Hwith as (body & tail & _ & _ & Htail).
    rewrite Hmain in Htail.
    by destruct (statistics_error E _) as [e|]; [destruct Htail|].
  - congruence.
  - apply main_setup_exit_code in Hsetup. congruence.
Qed.

(** The events of [main] are those of lines 235-271, then events that are
    no prompt, no [print] and no removal. *)
Lemma main_events_after_setup (cl : cmdline) :
  ∃ later,
    events (main E cl initial_state).2 =
      events (main_setup E (namespace_of E cl) initial_state).2 ++ later
    ∧ Forall (λ ev, setup_event ev = false) later.
Proof.
  pose proof (main_not_set_up cl initial_state) as Hnot.
  destruct (main_setup E (namespace_of E cl) initial_state)
    as [[[passes first]|e|code] st0] eqn:Hsetup.
  - pose proof (with_statement_events cl passes first st0 Hsetup) as Hwith.
    cbv zeta in Hwith.
    destruct (profiler_error E _) as [e|].
    { rewrite Hwith. exists []. by rewrite app_nil_r. }
    destruct Hwith as (body & tail & -> & Hbody & Htail).
    eexists. split; [done|].
    assert (Hstats : Forall (λ ev : event, setup_event ev = false)
                       (statistics_events E (args_profile (namespace_of E cl)))).
    { unfold statistics_events. by destruct (args_profile _); repeat constructor. }
    apply Forall_app; split; [|apply Forall_app; split].
    + unfold enter_events. by destruct (args_profile _); repeat constructor.
    + eapply Forall_impl; [exact Hbody|]. by intros [].
    + constructor; [done|].
      destruct (statistics_error E _) as [e|]; [by destruct Htail as [_ ->]|].
      destruct (main E cl initial_state).1; [|by subst|done].
      destruct Htail as [index ->]. apply Forall_app. split; [done|].
      by repeat constructor.
  - rewrite Hnot. exists []. by rewrite app_nil_r.
  - rewrite Hnot. exists []. by rewrite app_nil_r.
Qed.

(** The events of the process are those of lines 235-271 and, after them,
    events that are no prompt, no [print] and no removal. *)
Lemma run_events_after_setup (cl : cmdline) :
  ∃ later,
    (run E (Parsed cl)).1 =
      events (main_setup E (namespace_of E cl) initial_state).2 ++ later
    ∧ Forall (λ ev, setup_event ev = false) later.
Proof.
  destruct (main_events_after_setup cl) as (later & Hmain & Hlater).
  rewrite run_Parsed.
  destruct (main E cl initial_state) as [[[]|e|code] st]; cbn [fst snd] in *;
    [by exists later| |by exists later].
  assert (Hout : ∀ out : list output,
            Forall (λ o, match o with PyPrint _ => False | _ => True end) out →
            Forall (λ ev : event, setup_event ev = false) (Output <$> out)).
  { intros out Hout. apply Forall_fmap. eapply Forall_impl; [exact Hout|].
    by intros []. }
  destruct (isinstance e SystemExit); cbn [fst];
    (eexists; rewrite Hmain, <- app_assoc; split; [done|]);
    (apply Forall_app; split; [done|]); apply Hout.
  - unfold handle_system_exit.
    destruct (exc_args e) as [|[]]; try (destruct l); by repeat constructor.
  - unfold excepthook.
    repeat (match goal with
            | |- context [if ?b then _ else _] => destruct b
            end); by repeat constructor.
Qed.

(** X11. The exit code of the process.  It is 2 when the parser reports a
    usage error and 0 when the parser ends the run itself or [main]
    returns.  When [main] ends in [sys.exit] the code is 1, the only code
    [main] exits with.  When [main] raises a [SystemExit] (one that a
    collaborator raised) the interpreter ends the process with the status
    of the code that the exception carries, without calling the hook.
    For any other exception the code is 1, whether the hook ends the
    process or returns and leaves it to the interpreter.  So, in a run
    in which no collaborator raises [SystemExit], the code is 2 exactly
    for a usage error, 0 exactly when the parser ends the run or [main]
    returns, and 1 exactly when [main] does not return. *)
Theorem exit_code_of_run (p : parsed) :
  (run E p).2 =
    Some match p with
         | UsageError _ => 2
         | ParserExit => 0
         | Parsed cl =>
             match (main E cl initial_state).1 with
             | Returns _ => 0
             | SysExit _ => 1
             | Raises e =>
                 if isinstance e SystemExit then (handle_system_exit e).2 else 1
             end
         end
  ∧ ((∀ cl e, p = Parsed cl → (main E cl initial_state).1 = Raises e →
              isinstance e SystemExit = false) →
     ((run E p).2 = Some 2 ↔ ∃ message, p = UsageError message)
     ∧ ((run E p).2 = Some 0 ↔
          p = ParserExit
          ∨ ∃ cl st, p = Parsed cl ∧ main E cl initial_state = (Returns (), st))
     ∧ ((run E p).2 = Some 1 ↔
          ∃ cl, p = Parsed cl
                ∧ ∀ st, main E cl initial_state ≠ (Returns (), st))).
Proof.
  assert (Hcode : (run E p).2 =
    Some match p with
         | UsageError _ => 2
         | ParserExit => 0
         | Parsed cl =>
             match (main E cl initial_state).1 with
             | Returns _ => 0
             | SysExit _ => 1
             | Raises e =>
                 if isinstance e SystemExit then (handle_system_exit e).2 else 1
             end
         end).
  { destruct p as [message| |cl]; [done..|]. rewrite run_Parsed.
    pose proof (main_exit_code cl) as Hexit.
    destruct (main E cl initial_state) as [[[]|e|code] st]; cbn [fst snd].
    - done.
    - destruct (isinstance e SystemExit); [done|]. cbn [snd]. f_equal.
      unfold excepthook.
      repeat (match goal with
              | |- context [if ?b then _ else _] => destruct b
              end); done.
    - by rewrite (Hexit code st eq_refl). }
  split; [exact Hcode|]. intros Hno. rewrite Hcode. clear Hcode.
  destruct p as [message| |cl].
  - split_and!; (split; [intros [=]|]).
    + by exists message.
    + by intros _.
    + intros [[=]|(? & ? & [=] & _)].
    + intros (? & [=] & _).
  - split_and!; (split; [intros [=]|]).
    + intros (? & [=]).
    + by left.
    + by intros _.
    + intros (? & [=] & _).
  - specialize (Hno cl).
    destruct (main E cl initial_state) as [[[]|e|code] st] eqn:Hmain; cbn [fst] in *.
    + split_and!; (split; [intros [=]|]).
      * intros (? & [=]).
      * right. by exists cl, st.
      * by intros _.
      * by intros (? & [= <-] & Hnot); destruct (Hnot st).
    + rewrite (Hno e eq_refl eq_refl).
      split_and!; (split; [intros [=]|]).
      * intros (? & [=]).
      * intros [[=]|(? & ? & [= <-] & Hret)]. congruence.
      * exists cl. split; [done|]. intros st'. congruence.
      * by intros _.
    + split_and!; (split; [intros [=]|]).
      * intros (? & [=]).
      * intros [[=]|(? & ? & [= <-] & Hret)]. congruence.
      * exists cl. split; [done|]. intros st'. congruence.
      * by intros _.
Qed.

(** X12. A run removes nothing but what is at [args.output], and only
    when it has asked and the reply was empty or began with y or Y.  The
    run then starts with the question, followed by the call of
    [os.remove] on [args.output], whatever stands there; [shutil.rmtree]
    is called only on [args.output], right after [os.remove] has raised
    [IsADirectoryError]. *)
Theorem removal_only_by_consent (cl : cmdline) (p : Path) :
  let args := namespace_of E cl in
  let evs := (run E (Parsed cl)).1 in
  (OsRemove p ∈ evs →
     p = args_output args
     ∧ is_Some (output_entry E p)
     ∧ (∃ resp, input_line E = Some resp ∧ accepted resp = true)
     ∧ ∃ rest, evs = prompt p :: OsRemove p :: rest)
  ∧ (ShutilRmtree p ∈ evs →
     p = args_output args
     ∧ is_Some (output_entry E p)
     ∧ (∃ resp, input_line E = Some resp ∧ accepted resp = true)
     ∧ (∃ e, os_remove E p = Some e ∧ isinstance e IsADirectoryError = true)
     ∧ ∃ rest, evs = prompt p :: OsRemove p :: ShutilRmtree p :: rest).
Proof.
  intros args evs.
  destruct (run_events_after_setup cl) as (later & Hevs & Hlater).
  fold args evs in Hevs. clearbody evs.
  rewrite (main_setup_events args) in Hevs. clearbody args.
  assert (Hin : ∀ ev setup, setup_event ev = true → evs = setup ++ later →
                  ev ∈ evs → ev ∈ setup).
  { intros ev setup Hkind -> [Hev|Hev]%elem_of_app; [done|].
    rewrite Forall_forall in Hlater. apply Hlater in Hev. congruence. }
  assert (Hgen : ∀ ev, ev = OsRemove p ∨ ev = ShutilRmtree p → ev ∈ evs →
            p = args_output args
            ∧ is_Some (output_entry E p)
            ∧ (∃ resp, input_line E = Some resp ∧ accepted resp = true)
            ∧ evs = prompt p :: removal E p ++ later
            ∧ ev ∈ removal E p).
  { intros ev Hev Hmem.
    assert (Hkind : setup_event ev = true) by (by destruct Hev as [->| ->]).
    pose proof (Hin ev _ Hkind Hevs Hmem) as Hsetup.
    destruct (get_passes E (args_passes args)) as [e|[|first rest]];
      [by apply elem_of_nil in Hsetup..|].
    destruct (output_entry E (args_output args)) as [what|] eqn:Hentry;
      [|by apply elem_of_nil in Hsetup].
    destruct (input_line E) as [resp|]; [destruct (accepted resp) eqn:Hacc|].
    - apply elem_of_cons in Hsetup as [->|Hsetup];
        [by destruct Hev as [Hev|Hev]|].
      assert (p = args_output args) as ->.
      { unfold removal in Hsetup.
        apply elem_of_cons in Hsetup as [->|Hsetup].
        - by destruct Hev as [[= ->]|[=]].
        - destruct (os_remove E (args_output args)) as [e|];
            [|by apply elem_of_nil in Hsetup].
          destruct (isinstance e IsADirectoryError);
            [|by apply elem_of_nil in Hsetup].
          apply list_elem_of_singleton in Hsetup as ->.
          by destruct Hev as [[=]|[= ->]]. }
      rewrite Hentry. split_and!; [done|by eexists|by eauto|done|done].
    - repeat (apply elem_of_cons in Hsetup as [->|Hsetup];
              [by destruct Hev as [Hev|Hev]|]).
      by apply elem_of_nil in Hsetup.
    - repeat (apply elem_of_cons in Hsetup as [->|Hsetup];
              [by destruct Hev as [Hev|Hev]|]).
      by apply elem_of_nil in Hsetup. }
  split; intros Hmem.
  - destruct (Hgen _ (or_introl eq_refl) Hmem) as (-> & Hentry & Hresp & Hrun & _).
    split_and!; [done..|]. rewrite Hrun. unfold removal. simpl. by eexists.
  - destruct (Hgen _ (or_intror eq_refl) Hmem)
      as (-> & Hentry & Hresp & Hrun & Hrm).
    unfold removal in Hrm, Hrun.
    apply elem_of_cons in Hrm as [[=]|Hrm].
    destruct (os_remove E (args_output args)) as [e|];
      [|by apply elem_of_nil in Hrm].
    destruct (isinstance e IsADirectoryError) eqn:Hdir;
      [|by apply elem_of_nil in Hrm].
    split_and!; [done..|by exists e|]. rewrite Hrun. simpl. by eexists.
Qed.

(** ** What the collaborators are given *)

Lemma files_of_seq (before news after : list Submission) :
  files_of (before ++ news ++ after) (seq (length before) (length news))
  = list_to_set (flat_map sub_files news).
Proof.
  unfold files_of. f_equal. revert before.
  induction news as [|sub news IH]; intros before; simpl; [done|].
  rewrite lookup_app_r, Nat.sub_diag by lia. simpl. f_equal.
  specialize (IH (before ++ [sub])).
  rewrite length_app, Nat.add_1_r, <- app_assoc in IH. exact IH.
Qed.

(** When the three sets are collected, the store has gained, set after
    set, the submissions [kept] of the paths of each: every call of
    [get_all] starts from an empty set. *)
Lemma collect_kept (self : SubmissionFactory) (args : Namespace)
    (preprocessor : Preprocessor) (st st' : state)
    (subs archive_subs ignored_subs : list ref) (ignored_files : gset string) :
  collect E self args preprocessor st =
    (Returns (subs, archive_subs, ignored_subs, ignored_files), st') →
  let regular := kept E self preprocessor (args_submissions args) [] in
  let archive := kept E self preprocessor (args_archive args) [] in
  let distro := kept E self preprocessor (args_distro args) [] in
  subs = seq (length (objects st)) (length regular)
  ∧ archive_subs = seq (length (objects st) + length regular) (length archive)
  ∧ ignored_subs = seq (length (objects st) + length regular + length archive)
                       (length distro)
  ∧ ignored_files = list_to_set (flat_map sub_files distro)
  ∧ st' = add_events [ProgressUpdate 33; ProgressUpdate 33]
            (with_objects (objects st ++ regular ++ archive ++ distro) st).
Proof.
  intros H regular archive distro. unfold collect, SubmissionFactory_get_all in H.
  assert (Hnil : ∀ n r, r ∈ @nil ref → (r < n)%nat) by (intros ?? Hin; inversion Hin).
  rewrite bind_eq in H.
  destruct (get_all_from E self (args_submissions args) preprocessor [] st)
    as [[subs1|e|code] st1] eqn:H1; try discriminate.
  pose proof (get_all_from_Returns_ok _ _ _ _ _ _ _ H1) as Hok1.
  rewrite (get_all_from_returns E self _ preprocessor [] st (Hnil _) Hok1) in H1.
  injection H1 as <- <-. fold regular in H. run_in H.
  match type of H with
  | context [get_all_from E self (args_archive args) preprocessor [] ?s] =>
      destruct (get_all_from E self (args_archive args) preprocessor [] s)
        as [[subs2|e|code] st2] eqn:H2; try discriminate;
      pose proof (get_all_from_Returns_ok _ _ _ _ _ _ _ H2) as Hok2;
      rewrite (get_all_from_returns E self _ preprocessor [] s (Hnil _) Hok2) in H2
  end.
  injection H2 as <- <-. fold archive in H. simpl in H. run_in H.
  match type of H with
  | context [get_all_from E self (args_distro args) preprocessor [] ?s] =>
      destruct (get_all_from E self (args_distro args) preprocessor [] s)
        as [[subs3|e|code] st3] eqn:H3; try discriminate;
      pose proof (get_all_from_Returns_ok _ _ _ _ _ _ _ H3) as Hok3;
      rewrite (get_all_from_returns E self _ preprocessor [] s (Hnil _) Hok3) in H3
  end.
  injection H3 as <- <-. fold distro in H. simpl in H.
  injection H as <- <- <- <- <-. simpl.
  rewrite !length_app.
  split_and!; [done..| |].
  - rewrite <- !length_app.
    pose proof (files_of_seq ((objects st ++ regular) ++ archive) distro []) as Hf.
    by rewrite app_nil_r in Hf.
  - unfold add_events, with_objects. simpl. by rewrite <- !app_assoc.
Qed.

(** The state in which lines 235-271 leave the run when they return. *)
Lemma main_setup_Returns_state (args : Namespace) (passes : list Pass)
    (first : Pass) (st0 : state) :
  main_setup E args initial_state = (Returns (passes, first), st0) →
  objects st0 = []
  ∧ excepthook_verbose st0 = args_verbose args
  ∧ api_Executor st0 = (if args_profile args || args_debug args
                        then FauxExecutor else PoolExecutor)
  ∧ events st0 = cleared E (args_output args)
  ∧ ∃ rest, passes = first :: rest
            ∧ get_passes E (args_passes args) = inr (first :: rest).
Proof.
  intros H.
  destruct (main_setup_Returns E _ _ _ _ _ H) as [Hget Hhead].
  destruct passes as [|first' rest]; [discriminate|]. injection Hhead as ->.
  rewrite (main_setup_resolved _ _ _ _ Hget) in H. cbv zeta in H.
  rewrite clear_output_cases in H. unfold cleared.
  destruct (output_entry E (args_output args)) as [what|].
  - destruct (input_line E) as [resp|]; [|discriminate].
    destruct (accepted resp); [|discriminate].
    destruct (removal_error E (args_output args)); [discriminate|].
    injection H as <-. simpl. split_and!; [done..|]. by exists rest.
  - injection H as <-. simpl. split_and!; [done..|]. by exists rest.
Qed.

(** Every call to [rank] or [compare] of a run is made from the store
    that holds the submissions kept of the three lists of paths, with the
    executor that [--profile] and [--debug] choose. *)
Lemma run_call_kept (cl : cmdline) (ev : event) :
  let args := namespace_of E cl in
  ev ∈ (run E (Parsed cl)).1 → is_call ev = true →
  ∃ first rest,
    let pre := mk_Preprocessor (pass_preprocessors first) in
    let regular := kept E (factory_of cl) pre (args_submissions args) [] in
    let archive := kept E (factory_of cl) pre (args_archive args) [] in
    let distro := kept E (factory_of cl) pre (args_distro args) [] in
    get_passes E (args_passes args) = inr (first :: rest)
    ∧ (2 ≤ length regular + length archive)%nat
    ∧ call_as_driven E (regular ++ archive ++ distro)
        (if args_profile args || args_debug args
         then FauxExecutor else PoolExecutor)
        (seq 0 (length regular)) (seq (length regular) (length archive))
        (seq (length regular + length archive) (length distro))
        (list_to_set (flat_map sub_files distro))
        (first :: rest) first (args_n args) ev.
Proof.
  intros args Hin Hcall. apply run_call in Hin; [|done].
  destruct (main_events E cl) as [_ [Hnone|Hsome]].
  { rewrite Forall_forall in Hnone. apply Hnone in Hin.
    unfold no_call in Hin. congruence. }
  fold args in Hsome.
  destruct Hsome as (passes & first & st0 & subs & archive_subs & ignored_subs
                     & ignored_files & st1 & Hsetup & Hcollect & Htwo & _
                     & Hall & _).
  destruct (main_setup_Returns_state _ _ _ _ Hsetup)
    as (Hobj & _ & Hexec & _ & rest & -> & Hget).
  apply collect_kept in Hcollect as (-> & -> & -> & -> & ->).
  simpl in *. rewrite Hobj in *. simpl in *.
  rewrite Hexec in Hall. rewrite !length_seq in Htwo.
  rewrite Forall_forall in Hall. apply Hall in Hin.
  by exists first, rest.
Qed.

(** X13. Whatever the run, [rank] is given the submissions built from the
    paths of the command line and no others: the store holds those kept
    of the submission paths, then those of the archive paths, then those
    of the distribution paths, each list deduplicated on its own; the two
    sets given are the first two of these, at least two submissions in
    all; the ignored files are the files of the distribution submissions
    (none without [-d]).  Each submission was built by [_get] from one
    of the paths, with the preprocessors of the first requested pass,
    which is the pass given to [rank], and holds at least one file. *)
Theorem rank_given_what_was_built (cl : cmdline) (seen : list Submission)
    (subs archive_subs : list ref) (ignored_files : gset string)
    (pass_ : Pass) (n : Z) :
  let args := namespace_of E cl in
  let pre := mk_Preprocessor (pass_preprocessors pass_) in
  let regular := kept E (factory_of cl) pre (args_submissions args) [] in
  let archive := kept E (factory_of cl) pre (args_archive args) [] in
  let distro := kept E (factory_of cl) pre (args_distro args) [] in
  CallRank seen subs archive_subs ignored_files pass_ n ∈ (run E (Parsed cl)).1 →
  (∃ rest, get_passes E (args_passes args) = inr (pass_ :: rest))
  ∧ seen = regular ++ archive ++ distro
  ∧ subs = seq 0 (length regular)
  ∧ archive_subs = seq (length regular) (length archive)
  ∧ (2 ≤ length regular + length archive)%nat
  ∧ ignored_files = list_to_set (flat_map sub_files distro)
  ∧ (cl_distro cl = None → ignored_files = ∅)
  ∧ ∀ sub, sub ∈ seen →
      sub_files sub ≠ []
      ∧ sub_preprocessor sub = pre
      ∧ ∃ path, path ∈ args_submissions args ++ args_archive args
                         ++ args_distro args
                ∧ SubmissionFactory__get E (factory_of cl) path pre = inr sub.
Proof.
  intros args pre regular archive distro Hin.
  destruct (run_call_kept cl _ Hin eq_refl)
    as (first & rest & Hget & Htwo & Hev).
  simpl in Hev. destruct Hev as (-> & -> & -> & -> & <- & _).
  fold args pre regular archive distro in Htwo |- *.
  split_and!; [by exists rest|done..| |].
  - intros Hnone. subst distro. unfold args, namespace_of. simpl.
    by rewrite Hnone.
  - intros sub Hsub.
    assert (Hpath : ∃ path, path ∈ args_submissions args ++ args_archive args
                                   ++ args_distro args
                  ∧ SubmissionFactory__get E (factory_of cl) path pre = inr sub).
    { rewrite !elem_of_app in Hsub.
      destruct Hsub as [Hsub|[Hsub|Hsub]];
        apply kept_built in Hsub as (path & Hpath & Hbuilt);
        exists path; rewrite !elem_of_app; auto. }
    destruct Hpath as (path & Hpath & Hbuilt).
    destruct (get_inr E _ _ _ _ Hbuilt) as (root & included & files & _ & _ & Hne & ->).
    simpl. split_and!; [|done|by exists path].
    intros Hnil. apply Hne. apply Permutation_nil_r.
    rewrite <- Hnil. symmetry. apply sorted_Permutation.
Qed.

(** X14. Whatever the run, the scores that [compare] is given are those that
    [rank] returned for the first requested pass, computed with the
    serial executor when [--profile] or [--debug] was given and with the
    pool otherwise ([--profile] implies [--debug]); the pass compared is
    one of those requested. *)
Theorem compare_given_scores_of_rank (cl : cmdline) (seen : list Submission)
    (scores : Scores) (ignored_files : gset string) (pass_ : Pass) :
  let args := namespace_of E cl in
  CallCompare seen scores ignored_files pass_ ∈ (run E (Parsed cl)).1 →
  ∃ first rest,
    let pre := mk_Preprocessor (pass_preprocessors first) in
    let regular := kept E (factory_of cl) pre (args_submissions args) [] in
    let archive := kept E (factory_of cl) pre (args_archive args) [] in
    let distro := kept E (factory_of cl) pre (args_distro args) [] in
    get_passes E (args_passes args) = inr (first :: rest)
    ∧ pass_ ∈ first :: rest
    ∧ ignored_files = list_to_set (flat_map sub_files distro)
    ∧ api_rank E (regular ++ archive ++ distro)
               (if cl_profile cl || cl_debug cl then FauxExecutor else PoolExecutor)
               (seq 0 (length regular)) (seq (length regular) (length archive))
               ignored_files first (args_n args)
      = inr scores.
Proof.
  intros args Hin.
  destruct (run_call_kept cl _ Hin eq_refl)
    as (first & rest & Hget & Htwo & Hev).
  simpl in Hev. destruct Hev as (_ & Hrank & -> & Hpass).
  by exists first, rest.
Qed.

(** ** Too few submissions *)

(** A path whose construction raises contributes nothing to the
    submissions kept. *)
Lemma kept_skip (self : SubmissionFactory) (preprocessor : Preprocessor)
    (before after : list Path) (path : Path) (held : list Submission) (e : exc) :
  SubmissionFactory__get E self path preprocessor = inl e →
  kept E self preprocessor (before ++ path :: after) held =
  kept E self preprocessor (before ++ after) held.
Proof.
  intros Hget. revert held. induction before as [|path0 before IH]; intros held; simpl.
  - by rewrite Hget.
  - destruct (SubmissionFactory__get E self path0 preprocessor) as [e0|sub]; [done|].
    destruct (existsb _ held); [done|]. by rewrite IH.
Qed.

(** When every path builds or raises the domain error, the three sets are
    collected: they hold the submissions kept of each list of paths. *)
Lemma collect_returns (self : SubmissionFactory) (args : Namespace)
    (preprocessor : Preprocessor) (st : state) :
  (∀ path e,
     path ∈ args_submissions args ++ args_archive args ++ args_distro args →
     SubmissionFactory__get E self path preprocessor = inl e →
     isinstance e api_Error = true) →
  let regular := kept E self preprocessor (args_submissions args) [] in
  let archive := kept E self preprocessor (args_archive args) [] in
  let distro := kept E self preprocessor (args_distro args) [] in
  collect E self args preprocessor st =
    (Returns (seq (length (objects st)) (length regular),
              seq (length (objects st) + length regular) (length archive),
              seq (length (objects st) + length regular + length archive)
                  (length distro),
              list_to_set (flat_map sub_files distro)),
     add_events [ProgressUpdate 33; ProgressUpdate 33]
       (with_objects (objects st ++ regular ++ archive ++ distro) st)).
Proof.
  intros Hok regular archive distro.
  assert (Hnil : ∀ n r, r ∈ @nil ref → (r < n)%nat) by (intros ?? Hin; inversion Hin).
  assert (H1 : ∀ path e, path ∈ args_submissions args →
            SubmissionFactory__get E self path preprocessor = inl e →
            isinstance e api_Error = true).
  { intros path e Hin. apply Hok. rewrite !elem_of_app. auto. }
  assert (H2 : ∀ path e, path ∈ args_archive args →
            SubmissionFactory__get E self path preprocessor = inl e →
            isinstance e api_Error = true).
  { intros path e Hin. apply Hok. rewrite !elem_of_app. auto. }
  assert (H3 : ∀ path e, path ∈ args_distro args →
            SubmissionFactory__get E self path preprocessor = inl e →
            isinstance e api_Error = true).
  { intros path e Hin. apply Hok. rewrite !elem_of_app. auto. }
  destruct (collect E self args preprocessor st)
    as [[[[[subs archive_subs] ignored_subs] ignored_files]|e|code] st'] eqn:Hcollect.
  - by apply collect_kept in Hcollect as (-> & -> & -> & -> & ->).
  - exfalso. unfold collect, SubmissionFactory_get_all in Hcollect.
    rewrite bind_eq, (get_all_from_returns E self _ preprocessor [] st (Hnil _) H1)
      in Hcollect.
    run_in Hcollect.
    rewrite (get_all_from_returns E self _ preprocessor [] _ (Hnil _) H2) in Hcollect.
    run_in Hcollect.
    by rewrite (get_all_from_returns E self _ preprocessor [] _ (Hnil _) H3)
      in Hcollect.
  - exfalso. unfold collect, SubmissionFactory_get_all in Hcollect.
    rewrite bind_eq, (get_all_from_returns E self _ preprocessor [] st (Hnil _) H1)
      in Hcollect.
    run_in Hcollect.
    rewrite (get_all_from_returns E self _ preprocessor [] _ (Hnil _) H2) in Hcollect.
    run_in Hcollect.
    by rewrite (get_all_from_returns E self _ preprocessor [] _ (Hnil _) H3)
      in Hcollect.
Qed.

(** C1. A path under which no file decodes is dropped: [get_all] goes on
    as if the path had not been given, and the submissions kept are the
    same with the path as without it.  Take a run that has resolved its
    passes and cleared the output path, in which every path given (a
    submission, an archive or a distribution path) builds a submission or
    raises the domain error, and in which the profiler, if asked for,
    starts and writes its statistics.  The submissions that remain are
    those kept of the submission paths and of the archive paths, each
    built from one of these paths.  The run ends in the error "At least
    two non-empty submissions are required for a comparison." if and
    only if fewer than two of them remain: it has then called no
    collaborator, and the process writes the message and exits with
    code 1.  With two or more, [rank] is called on them. *)
Theorem too_few_submissions_abort (cl : cmdline) :
  let args := namespace_of E cl in
  let self := factory_of cl in
  (∀ preprocessor before path after root included,
     discover E self path = inr (root, included) →
     decodable_files E root included = inr [] →
     (∀ st,
        SubmissionFactory_get_all E self (before ++ path :: after) preprocessor st =
        SubmissionFactory_get_all E self (before ++ after) preprocessor st)
     ∧ ∀ held,
         kept E self preprocessor (before ++ path :: after) held =
         kept E self preprocessor (before ++ after) held)
  ∧ (∀ passes first st0,
       main_setup E args initial_state = (Returns (passes, first), st0) →
       let pre := mk_Preprocessor (pass_preprocessors first) in
       let regular := kept E self pre (args_submissions args) [] in
       let archive := kept E self pre (args_archive args) [] in
       let distro := kept E self pre (args_distro args) [] in
       (∀ path e,
          path ∈ args_submissions args ++ args_archive args ++ args_distro args →
          SubmissionFactory__get E self path pre = inl e →
          isinstance e api_Error = true) →
       profiler_error E (args_profile args) = None →
       statistics_error E (args_profile args) = None →
       let st' :=
         add_events (enter_events (args_profile args)
                       ++ [ProgressUpdate 33; ProgressUpdate 33]
                       ++ leave_events E (args_profile args))
                    (with_objects (regular ++ archive ++ distro) st0) in
       ((length regular + length archive < 2)%nat ↔
          main E cl initial_state = (Raises (Error too_few), st'))
       ∧ Forall no_call (events st')
       ∧ ((length regular + length archive < 2)%nat →
            run E (Parsed cl) =
              (events st'
                 ++ (Output <$> (Cprint too_few "red" stderr
                                   :: traceback (args_verbose args) api_Error
                                                (Error too_few))),
               Some 1))
       ∧ ((2 ≤ length regular + length archive)%nat →
            CallRank (regular ++ archive ++ distro)
                     (seq 0 (length regular))
                     (seq (length regular) (length archive))
                     (list_to_set (flat_map sub_files distro))
                     first (args_n args)
            ∈ events (main E cl initial_state).2)
       ∧ (∀ sub, sub ∈ regular ++ archive →
            ∃ path, path ∈ args_submissions args ++ args_archive args
                    ∧ SubmissionFactory__get E self path pre = inr sub)).
Proof.
  intros args self. split.
  { intros preprocessor before path after root included Hdisc Hnone.
    pose proof (get_empty E self path root included preprocessor Hdisc Hnone)
      as Hget.
    split.
    - intros st.
      by apply (get_all_skip E self before after path preprocessor _ st Hget).
    - intros held. by eapply kept_skip. }
  intros passes first st0 Hsetup pre regular archive distro Hok Hprof Hstat st'.
  destruct (main_setup_Returns_state _ _ _ _ Hsetup)
    as (Hobj & Hverb & Hexec & Hcleared & rest & -> & Hget).
  set (st1 := add_events [ProgressUpdate 33; ProgressUpdate 33]
                (with_objects (regular ++ archive ++ distro)
                   (add_events (enter_events (args_profile args)) st0))).
  assert (Hst' : st' = add_events (leave_events E (args_profile args)) st1).
  { subst st' st1. unfold add_events, with_objects. simpl.
    by rewrite <- !app_assoc. }
  assert (Hmain : main E cl initial_state =
            if bool_decide (length regular + length archive < 2)%nat
            then (Raises (Error too_few), st')
            else
              let (o, st2) :=
                rank_compare_render E args (first :: rest) first
                  (seq 0 (length regular)) (seq (length regular) (length archive))
                  (seq (length regular + length archive) (length distro))
                  (list_to_set (flat_map sub_files distro)) st1 in
              match o with
              | Returns index =>
                  (Returns (),
                   add_events (leave_events E (args_profile args)
                                 ++ [done_event E index]) st2)
              | Raises e =>
                  (Raises e, add_events (leave_events E (args_profile args)) st2)
              | SysExit code =>
                  (SysExit code, add_events (leave_events E (args_profile args)) st2)
              end).
  { rewrite main_eq. fold args self. rewrite Hsetup, Hprof, main_body_eq.
    rewrite (collect_returns self args _ _ Hok).
    fold pre regular archive distro. cbn [objects add_events]. rewrite Hobj.
    cbn [app length Nat.add]. rewrite !length_seq. fold st1.
    case_bool_decide.
    - by rewrite Hstat, Hst'.
    - destruct (rank_compare_render E args _ first _ _ _ _ st1) as [o st2].
      by rewrite Hstat. }
  clearbody args self.
  assert (Hquiet : Forall no_call (events st')).
  { subst st'. simpl. rewrite Hcleared.
    apply Forall_app. split.
    - unfold cleared, removal.
      destruct (output_entry E (args_output args)); [|done].
      destruct (os_remove E (args_output args)) as [e0|];
        [destruct (isinstance e0 IsADirectoryError)|]; by repeat constructor.
    - unfold enter_events, leave_events, statistics_events.
      destruct (args_profile args); by repeat constructor. }
  assert (Hreached : (2 ≤ length regular + length archive)%nat →
            CallRank (regular ++ archive ++ distro)
                     (seq 0 (length regular))
                     (seq (length regular) (length archive))
                     (list_to_set (flat_map sub_files distro))
                     first (args_n args)
            ∈ events (main E cl initial_state).2).
  { intros Hmany. rewrite Hmain, bool_decide_eq_false_2 by lia.
    pose proof (rank_compare_render_emits E args (first :: rest) first
                  (seq 0 (length regular)) (seq (length regular) (length archive))
                  (seq (length regular + length archive) (length distro))
                  (list_to_set (flat_map sub_files distro)) st1)
      as (_ & new & Hev & _ & Hrank).
    destruct (rank_compare_render E args _ first _ _ _ _ st1) as [[index|e|code] st2];
      cbn [snd] in Hev |- *; simpl; rewrite Hev;
      apply elem_of_app; left; apply elem_of_app; right; exact Hrank. }
  split_and!; [|done| |done|].
  - split.
    + intros Hfew. by rewrite Hmain, bool_decide_eq_true_2.
    + intros Hraised.
      destruct (decide (length regular + length archive < 2)%nat) as [|Hmany];
        [done|].
      assert (Hin := Hreached ltac:(lia)). rewrite Hraised in Hin. simpl in Hin.
      rewrite Forall_forall in Hquiet. by apply Hquiet in Hin.
  - intros Hfew. rewrite run_Parsed, Hmain, bool_decide_eq_true_2 by done.
    change (isinstance (Error too_few) SystemExit) with false. cbn iota.
    assert (Hv : excepthook_verbose st' = args_verbose args) by done.
    rewrite Hv. unfold excepthook, traceback. simpl.
    by destruct (args_verbose args).
  - intros sub [Hsub|Hsub]%elem_of_app;
      apply kept_built in Hsub as (path & Hpath & Hbuilt);
      exists path; rewrite elem_of_app; auto.
Qed.

(** ** A run that completes *)

(** When the loop over the passes returns: what it did, event by event. *)
Lemma compare_passes_trace (passes : list Pass) (all_subs : list ref)
    (scores : Scores) (ignored_files : gset string)
    (d d' : list (Pass * Results)) (st st' : state) :
  compare_passes E passes all_subs scores ignored_files d st = (Returns d', st') →
  ∃ results,
    Forall2 (λ pass_ res,
               api_compare E
                 (set_preprocessors (mk_Preprocessor (pass_preprocessors pass_))
                                    all_subs (objects st))
                 (api_Executor st) scores ignored_files pass_ = inr res)
            passes results
    ∧ d' = foldl (λ d pr, dict_set d pr.1 pr.2) d (zip passes results)
    ∧ events st' =
        events st ++
        flat_map (λ pass_,
                    [ProgressNew ("Comparing (" +:+ pass_name pass_ +:+ ")");
                     CallCompare
                       (set_preprocessors (mk_Preprocessor (pass_preprocessors pass_))
                                          all_subs (objects st))
                       scores ignored_files pass_]) passes.
Proof.
  revert d st. induction passes as [|pass_ rest IH]; intros d st H; simpl in H.
  - injection H as <- <-. exists []. split_and!; [constructor|done|by rewrite app_nil_r].
  - unfold call_compare in H. run_in H.
    destruct (api_compare E _ _ scores ignored_files pass_) as [e|res] eqn:Hres;
      simpl in H; [discriminate|].
    apply IH in H as (results & Hall & -> & Hevents). simpl in *.
    exists (res :: results). split_and!.
    + constructor; [done|].
      eapply Forall2_impl; [exact Hall|]. intros p r. simpl.
      by rewrite set_preprocessors_twice.
    + done.
    + rewrite Hevents, <- !app_assoc. simpl. do 3 f_equal.
      apply flat_map_ext. intros p. by rewrite set_preprocessors_twice.
Qed.

(** When lines 287-303 return: what they did, event by event. *)
Lemma rank_compare_render_trace (args : Namespace) (passes : list Pass)
    (first : Pass) (subs archive_subs ignored_subs : list ref)
    (ignored_files : gset string) (st st' : state) (index : Path) :
  rank_compare_render E args passes first subs archive_subs ignored_subs
                      ignored_files st = (Returns index, st') →
  let store pass_ :=
    set_preprocessors (mk_Preprocessor (pass_preprocessors pass_))
                      (subs ++ archive_subs ++ ignored_subs) (objects st) in
  ∃ scores results,
    let d := foldl (λ d pr, dict_set d pr.1 pr.2) [] (zip passes results) in
    api_rank E (objects st) (api_Executor st) subs archive_subs ignored_files
             first (args_n args) = inr scores
    ∧ Forall2 (λ pass_ res,
                 api_compare E (store pass_) (api_Executor st) scores
                             ignored_files pass_ = inr res) passes results
    ∧ renderer_render E d (args_output args) = inr index
    ∧ events st' =
        events st
        ++ [ProgressNew ("Scoring (" +:+ pass_name first +:+ ")");
            CallRank (objects st) subs archive_subs ignored_files first (args_n args)]
        ++ flat_map (λ pass_,
                       [ProgressNew ("Comparing (" +:+ pass_name pass_ +:+ ")");
                        CallCompare (store pass_) scores ignored_files pass_])
                    passes
        ++ [ProgressNew "Rendering"; CallRender d (args_output args)].
Proof.
  intros H store. unfold rank_compare_render, call_rank, call_render in H. run_in H.
  destruct (api_rank E _ _ subs archive_subs ignored_files first (args_n args))
    as [e|scores] eqn:Hrank; simpl in H; [discriminate|].
  rewrite bind_eq in H.
  destruct (compare_passes E passes _ scores ignored_files [] _)
    as [[d|e|code] st2] eqn:Hloop; try discriminate.
  apply compare_passes_trace in Hloop as (results & Hall & -> & Hevents).
  simpl in *. run_in H.
  destruct (renderer_render E _ (args_output args)) as [e|index'] eqn:Hrender;
    simpl in H; [discriminate|].
  injection H as <- <-. simpl.
  exists scores, results. split_and!; [done..|].
  rewrite Hevents, <- !app_assoc. done.
Qed.

(** A run that [main] completes, from the first line to the last. *)
Lemma main_Returns_trace (cl : cmdline) (st : state) :
  let args := namespace_of E cl in
  main E cl initial_state = (Returns (), st) →
  ∃ first rest scores results index,
    let passes := first :: rest in
    let pre := mk_Preprocessor (pass_preprocessors first) in
    let regular := kept E (factory_of cl) pre (args_submissions args) [] in
    let archive := kept E (factory_of cl) pre (args_archive args) [] in
    let distro := kept E (factory_of cl) pre (args_distro args) [] in
    let built := regular ++ archive ++ distro in
    let subs := seq 0 (length regular) in
    let archive_subs := seq (length regular) (length archive) in
    let ignored_files : gset string := list_to_set (flat_map sub_files distro) in
    let executor := if args_profile args || args_debug args
                    then FauxExecutor else PoolExecutor in
    let store (pass_ : Pass) :=
      setattr_preprocessor (mk_Preprocessor (pass_preprocessors pass_)) <$> built in
    let d := foldl (λ d pr, dict_set d pr.1 pr.2) [] (zip passes results) in
    get_passes E (args_passes args) = inr passes
    ∧ (2 ≤ length regular + length archive)%nat
    ∧ api_rank E built executor subs archive_subs ignored_files first (args_n args)
      = inr scores
    ∧ Forall2 (λ pass_ res,
                 api_compare E (store pass_) executor scores ignored_files pass_
                 = inr res) passes results
    ∧ renderer_render E d (args_output args) = inr index
    ∧ events st =
        cleared E (args_output args)
        ++ enter_events (args_profile args)
        ++ [ProgressUpdate 33; ProgressUpdate 33;
            ProgressNew ("Scoring (" +:+ pass_name first +:+ ")");
            CallRank built subs archive_subs ignored_files first (args_n args)]
        ++ flat_map (λ pass_,
                       [ProgressNew ("Comparing (" +:+ pass_name pass_ +:+ ")");
                        CallCompare (store pass_) scores ignored_files pass_])
                    passes
        ++ [ProgressNew "Rendering"; CallRender d (args_output args)]
        ++ leave_events E (args_profile args)
        ++ [done_event E index].
Proof.
  intros args H. rewrite main_eq in H. fold args in H. clearbody args.
  destruct (main_setup E args initial_state) as [[[passes first]|e|code] st0] eqn:Hsetup;
    try discriminate.
  destruct (main_setup_Returns_state _ _ _ _ Hsetup)
    as (Hobj & _ & Hexec & Hcleared & rest & -> & Hget).
  destruct (profiler_error E (args_profile args)) as [e|]; [discriminate|].
  rewrite main_body_eq in H.
  destruct (collect E (factory_of cl) args _ _)
    as [[[[[subs archive_subs] ignored_subs] ignored_files]|e|code] st1] eqn:Hcollect;
    [|by destruct (statistics_error E (args_profile args))..].
  apply collect_kept in Hcollect as (-> & -> & -> & -> & ->).
  simpl in H. rewrite Hobj in H. simpl in H.
  case_bool_decide as Hfew;
    [by destruct (statistics_error E (args_profile args))|].
  rewrite !length_seq in Hfew.
  destruct (rank_compare_render E args _ first _ _ _ _ _)
    as [[index|e|code] st2] eqn:Hrcr;
    [|by destruct (statistics_error E (args_profile args))..].
  destruct (statistics_error E (args_profile args)) as [e|]; [discriminate|].
  apply rank_compare_render_trace in Hrcr
    as (scores & results & Hrank & Hall & Hrender & Hevents).
  cbv zeta in Hrender, Hevents.
  cbn [objects api_Executor events add_events with_objects]
    in Hrank, Hall, Hrender, Hevents.
  rewrite Hexec in Hrank, Hall.
  injection H as <-.
  set (pre := mk_Preprocessor (pass_preprocessors first)) in *.
  set (regular := kept E (factory_of cl) pre (args_submissions args) []) in *.
  set (archive := kept E (factory_of cl) pre (args_archive args) []) in *.
  set (distro := kept E (factory_of cl) pre (args_distro args) []) in *.
  assert (Hstore : ∀ pass_ : Pass,
            set_preprocessors (mk_Preprocessor (pass_preprocessors pass_))
              (seq 0 (length regular) ++ seq (length regular) (length archive)
               ++ seq (length regular + length archive) (length distro))
              (regular ++ archive ++ distro)
            = setattr_preprocessor (mk_Preprocessor (pass_preprocessors pass_))
                <$> (regular ++ archive ++ distro)).
  { intros p. apply set_preprocessors_all. intros r Hr.
    rewrite !length_app in Hr. rewrite !elem_of_app, !elem_of_seq. lia. }
  rewrite (flat_map_ext _
             (λ pass_,
                [ProgressNew ("Comparing (" +:+ pass_name pass_ +:+ ")");
                 CallCompare
                   (setattr_preprocessor (mk_Preprocessor (pass_preprocessors pass_))
                      <$> regular ++ archive ++ distro)
                   scores (list_to_set (flat_map sub_files distro)) pass_]))
    in Hevents by (intros p; by rewrite Hstore).
  exists first, rest, scores, results, index. cbv zeta.
  fold pre regular archive distro.
  split_and!; [done|lia|done| |done|].
  - eapply Forall2_impl; [exact Hall|]. intros p r. simpl. by rewrite Hstore.
  - cbn [events add_events snd]. rewrite Hevents, Hcleared.
    by rewrite <- !app_assoc.
Qed.

(** X15. A run that [main] completes, from the first line to the last:
    what stands at [args.output] is removed after the question; the
    profiler (with [--profile]) and the progress bar "Preparing" are
    entered; the submissions are collected, with two updates of 33 of the
    bar; the bar reads "Scoring (<first pass>)" and [rank] is called on
    the store as built; for every requested pass in turn the bar reads
    "Comparing (<pass>)" and [compare] is called on the store in which
    every submission carries the preprocessors of that pass; the bar
    reads "Rendering" and [render] is called; the bar and the profiler
    are left; the last message names the path that [render] returned; the
    exit code is 0. *)
Theorem completed_run_trace (cl : cmdline) (st : state) :
  let args := namespace_of E cl in
  main E cl initial_state = (Returns (), st) →
  ∃ first rest scores results index,
    let passes := first :: rest in
    let pre := mk_Preprocessor (pass_preprocessors first) in
    let regular := kept E (factory_of cl) pre (args_submissions args) [] in
    let archive := kept E (factory_of cl) pre (args_archive args) [] in
    let distro := kept E (factory_of cl) pre (args_distro args) [] in
    let built := regular ++ archive ++ distro in
    let subs := seq 0 (length regular) in
    let archive_subs := seq (length regular) (length archive) in
    let ignored_files : gset string := list_to_set (flat_map sub_files distro) in
    let store (pass_ : Pass) :=
      setattr_preprocessor (mk_Preprocessor (pass_preprocessors pass_)) <$> built in
    let d := foldl (λ d pr, dict_set d pr.1 pr.2) [] (zip passes results) in
    get_passes E (args_passes args) = inr passes
    ∧ length results = length passes
    ∧ renderer_render E d (args_output args) = inr index
    ∧ run E (Parsed cl) =
        (cleared E (args_output args)
           ++ enter_events (args_profile args)
           ++ [ProgressUpdate 33; ProgressUpdate 33;
               ProgressNew ("Scoring (" +:+ pass_name first +:+ ")");
               CallRank built subs archive_subs ignored_files first (args_n args)]
           ++ flat_map (λ pass_,
                          [ProgressNew ("Comparing (" +:+ pass_name pass_ +:+ ")");
                           CallCompare (store pass_) scores ignored_files pass_])
                       passes
           ++ [ProgressNew "Rendering"; CallRender d (args_output args)]
           ++ leave_events E (args_profile args)
           ++ [done_event E index],
         Some 0).
Proof.
  intros args H.
  destruct (main_Returns_trace cl st H)
    as (first & rest & scores & results & index & Hget & _ & _ & Hall & Hrender
        & Hevents).
  exists first, rest, scores, results, index. cbv zeta.
  split_and!; [done| |done|].
  - symmetry. by eapply Forall2_length.
  - rewrite run_Parsed, H. by rewrite Hevents.
Qed.

(** ** The dict handed to [render] *)

Lemma dict_set_keys (d : list (Pass * Results)) (k : Pass) (v : Results) :
  (dict_set d k v).*1 =
  if bool_decide (pass_name k ∈ pass_name <$> d.*1) then d.*1 else d.*1 ++ [k].
Proof.
  induction d as [|[k0 v0] d IH]; csimpl; [done|].
  destruct (String.eqb (pass_name k0) (pass_name k)) eqn:Heq; csimpl.
  - apply String.eqb_eq in Heq. rewrite bool_decide_eq_true_2; [done|].
    rewrite Heq. by left.
  - apply String.eqb_neq in Heq. rewrite IH.
    rewrite (bool_decide_ext (pass_name k ∈ pass_name k0 :: (pass_name <$> d.*1))
                             (pass_name k ∈ pass_name <$> d.*1)).
    + by case_bool_decide.
    + rewrite elem_of_cons. split; [intros [?|?]; [congruence|done] | auto].
Qed.

(** The keys of the dict once the pairs are stored: no name twice; no
    key that was not set; every name set; and, when no name is set twice,
    the keys in the order they were set. *)
Lemma dict_keys_foldl (pairs : list (Pass * Results)) (d : list (Pass * Results)) :
  let d' := foldl (λ d pr, dict_set d pr.1 pr.2) d pairs in
  (NoDup (pass_name <$> d.*1) → NoDup (pass_name <$> d'.*1))
  ∧ (∀ p, p ∈ d'.*1 → p ∈ d.*1 ∨ p ∈ pairs.*1)
  ∧ (∀ name, name ∈ pass_name <$> (d.*1 ++ pairs.*1) → name ∈ pass_name <$> d'.*1)
  ∧ (NoDup (pass_name <$> (d.*1 ++ pairs.*1)) → d'.*1 = d.*1 ++ pairs.*1).
Proof.
  revert d. induction pairs as [|[k v] pairs IH]; intros d; cbn [foldl].
  - cbv zeta. csimpl. rewrite app_nil_r. split_and!; auto.
  - destruct (IH (dict_set d k v)) as (IH1 & IH2 & IH3 & IH4). clear IH.
    cbv zeta in *. cbn [fst snd] in *. rewrite dict_set_keys in *.
    csimpl.
    case_bool_decide as Hk.
    + split_and!.
      * done.
      * intros p [?|?]%IH2; [by left|right; by right].
      * intros name Hname. apply IH3.
        rewrite fmap_app in *. csimpl in Hname.
        rewrite elem_of_app, elem_of_cons in Hname. rewrite elem_of_app.
        destruct Hname as [?|[->|?]]; auto.
      * intros Hnodup. rewrite fmap_app in Hnodup. csimpl in Hnodup.
        apply NoDup_app in Hnodup as (_ & Hdisj & _).
        destruct (Hdisj _ Hk). by left.
    + split_and!.
      * intros Hnodup. apply IH1. rewrite fmap_app. csimpl.
        apply NoDup_app. split_and!; [done| |apply NoDup_singleton].
        intros name Hname Heq%list_elem_of_singleton. by subst name.
      * intros p [[?|Hp%list_elem_of_singleton]%elem_of_app|?]%IH2;
          [by left|right; subst p; by left|right; by right].
      * intros name Hname. apply IH3.
        by rewrite <- app_assoc.
      * intros Hnodup. rewrite <- app_assoc in IH4. by apply IH4.
Qed.

(** X16. In a run that [main] completes, the dict that [render] is given has
    one entry for every pass requested and no other, one only for a pass
    requested more than once, and its entries stand in the order of the
    request when no pass is requested twice; the destination is
    [args.output]. *)
Theorem render_given_one_entry_per_pass (cl : cmdline) (st : state)
    (d : list (Pass * Results)) (dest : Path) :
  let args := namespace_of E cl in
  main E cl initial_state = (Returns (), st) →
  CallRender d dest ∈ (run E (Parsed cl)).1 →
  ∃ passes,
    get_passes E (args_passes args) = inr passes
    ∧ dest = args_output args
    ∧ NoDup (pass_name <$> d.*1)
    ∧ (∀ pass_, pass_ ∈ d.*1 ↔ pass_ ∈ passes)
    ∧ (NoDup (args_passes args) → d.*1 = passes).
Proof.
  intros args H Hin.
  destruct (main_Returns_trace cl st H)
    as (first & rest & scores & results & index & Hget & _ & _ & Hall & _
        & Hevents).
  fold args in Hget, Hall, Hevents. cbv zeta in Hall, Hevents.
  rewrite run_Parsed, H in Hin. cbn [fst] in Hin. rewrite Hevents in Hin.
  clear Hevents H. clearbody args.
  assert (Hfst : (zip (first :: rest) results).*1 = first :: rest).
  { apply fst_zip. apply Forall2_length in Hall. lia. }
  set (passes := first :: rest) in *.
  destruct (get_passes_inr E _ _ Hget) as [Hnames Hone].
  set (d0 := foldl (λ d pr, dict_set d pr.1 pr.2) [] (zip passes results)) in *.
  assert (d = d0 ∧ dest = args_output args) as [-> ->].
  { rewrite !elem_of_app in Hin.
    destruct Hin as [Hin|[Hin|[Hin|[Hin|[Hin|[Hin|Hin]]]]]].
    - unfold cleared, removal in Hin.
      destruct (output_entry E (args_output args)) as [what|];
        [|by apply elem_of_nil in Hin].
      destruct (os_remove E (args_output args)) as [e|];
        [destruct (isinstance e IsADirectoryError)|];
        repeat (apply elem_of_cons in Hin as [Hin|Hin]; [discriminate Hin|]);
        by apply elem_of_nil in Hin.
    - unfold enter_events in Hin. destruct (args_profile args); simpl in Hin;
        repeat (apply elem_of_cons in Hin as [Hin|Hin]; [discriminate Hin|]);
        by apply elem_of_nil in Hin.
    - repeat (apply elem_of_cons in Hin as [Hin|Hin]; [discriminate Hin|]).
      by apply elem_of_nil in Hin.
    - apply list_elem_of_In, in_flat_map in Hin as (p & _ & Hin).
      apply list_elem_of_In in Hin.
      repeat (apply elem_of_cons in Hin as [Hin|Hin]; [discriminate Hin|]).
      by apply elem_of_nil in Hin.
    - apply elem_of_cons in Hin as [Hin|Hin]; [discriminate Hin|].
      apply elem_of_cons in Hin as [Hin|Hin]; [by injection Hin as -> ->|].
      by apply elem_of_nil in Hin.
    - unfold leave_events, statistics_events in Hin.
      destruct (args_profile args); simpl in Hin;
        repeat (apply elem_of_cons in Hin as [Hin|Hin]; [discriminate Hin|]);
        by apply elem_of_nil in Hin.
    - apply list_elem_of_singleton in Hin. discriminate Hin. }
  pose proof (dict_keys_foldl (zip passes results) []) as K.
  cbv zeta in K. fold d0 in K. rewrite Hfst in K.
  clearbody d0 passes. csimpl in K. destruct K as (K1 & K2 & K3 & K4).
  exists passes. split_and!; [done..| | |].
  - apply K1. constructor.
  - intros p. split.
    + intros [Hp|Hp]%K2; [inversion Hp|done].
    + intros Hp.
      assert (Hname : pass_name p ∈ pass_name <$> d0.*1).
      { apply K3. apply list_elem_of_fmap. by exists p. }
      apply list_elem_of_fmap in Hname as (q & Hname & Hq).
      assert (Hq' : q ∈ passes).
      { apply K2 in Hq as [Hq|Hq]; [inversion Hq|done]. }
      apply Hone in Hp, Hq'. rewrite Hname in Hp.
      assert (p = q) as -> by congruence. done.
  - rewrite <- Hnames. apply K4.
Qed.

End More.

(** * The sample run *)

(** ** Two calls of the sample run *)

Lemma sample_rank_event :
  CallRank sample_built [0; 1; 2]%nat [] sample_ignored sample_structure 50
  ∈ (run sample_env (Parsed sample_cl)).1.
Proof. apply (list_elem_of_lookup_2 _ 4%nat). vm_compute. reflexivity. Qed.

Lemma sample_compare_event :
  CallCompare
    (setattr_preprocessor (mk_Preprocessor (pass_preprocessors sample_text))
       <$> sample_built)
    [(0%nat, 1%nat, 50)] sample_ignored sample_text
  ∈ (run sample_env (Parsed sample_cl)).1.
Proof. apply (list_elem_of_lookup_2 _ 8%nat). vm_compute. reflexivity. Qed.

(** ** Submissions *)

(** The submission built from [bob]: two files, sorted, none twice. *)
Lemma get_files_sorted_decodable_witness :
  let pre := mk_Preprocessor (pass_preprocessors sample_structure) in
  let sub := mk_Submission ["bob"] ["hello.py"; "util.py"] pre in
  SubmissionFactory__get sample_env SubmissionFactory_init ["bob"] pre = inr sub
  ∧ StronglySorted String.le (sub_files sub)
  ∧ NoDup (sub_files sub).
Proof.
  intros pre sub.
  assert (Hget : SubmissionFactory__get sample_env SubmissionFactory_init ["bob"] pre
                 = inr sub) by (vm_compute; reflexivity).
  split; [exact Hget|].
  destruct (get_files_sorted_decodable sample_env _ _ _ _ Hget)
    as (root & included & _ & _ & _ & _ & Hsorted & Hnodup).
  by split.
Defined.

(** [carol.py] is a regular file: a submission of one file, rooted at the
    working directory, though [*.md] is excluded. *)
Lemma get_regular_file_witness :
  is_file sample_env ["carol.py"] = true
  ∧ SubmissionFactory__get sample_env (factory_of sample_cl) ["carol.py"]
                           (mk_Preprocessor []) =
      inr (mk_Submission [] ["carol.py"] (mk_Preprocessor [])).
Proof.
  split; [reflexivity|].
  destruct (get_regular_file sample_env (factory_of sample_cl) ["carol.py"]
              (mk_Preprocessor []) eq_refl) as [Hget _].
  rewrite Hget. reflexivity.
Defined.

(** The path [nope] does not exist: [get_all] raises [FileNotFoundError]
    and returns no set. *)
Lemma get_all_missing_path_raises : ¬ drops_every_failing_path sample_env.
Proof.
  intros H.
  destruct (H SubmissionFactory_init [["alice"]; ["nope"]; ["bob"]]
              (mk_Preprocessor []) initial_state) as (subs & st' & Hret).
  vm_compute in Hret. discriminate Hret.
Qed.

(** [alice] twice, [empty] and [carol.py]: [get_all] returns a set. *)
Lemma get_all_one_per_submission_witness :
  ∃ subs news,
    SubmissionFactory_get_all sample_env SubmissionFactory_init
      [["alice"]; ["empty"]; ["alice"]; ["carol.py"]] (mk_Preprocessor [])
      initial_state
    = (Returns subs, with_objects news initial_state)
    ∧ NoDup subs.
Proof.
  destruct (get_all_one_per_submission sample_env SubmissionFactory_init
              [["alice"]; ["empty"]; ["alice"]; ["carol.py"]] (mk_Preprocessor [])
              initial_state)
    as (subs & news & Hget & Hnodup & _).
  - intros sub. apply bool_decide_eq_true. done.
  - intros a b. apply bool_decide_ext. intuition congruence.
  - intros path e Hin Hget.
    repeat (apply elem_of_cons in Hin as [->|Hin]);
      [vm_compute in Hget; try discriminate Hget; injection Hget as <-; reflexivity..|].
    inversion Hin.
  - exists subs, news. split; [exact Hget | exact Hnodup].
Defined.

(** [compare50 alice empty]: [empty] is dropped, one submission is left,
    the run ends in the error and the process with code 1. *)
Lemma too_few_submissions_abort_witness :
  let pre := mk_Preprocessor (pass_preprocessors sample_structure) in
  SubmissionFactory_get_all sample_env (factory_of few_cl)
    ([] ++ ["empty"] :: [["alice"]]) pre initial_state
  = SubmissionFactory_get_all sample_env (factory_of few_cl)
      ([] ++ [["alice"]]) pre initial_state
  ∧ kept sample_env (factory_of few_cl) pre [["alice"]; ["empty"]] []
    = [mk_Submission ["alice"] ["hello.py"] pre]
  ∧ (main sample_env few_cl initial_state).1 = Raises (Error too_few)
  ∧ (run sample_env (Parsed few_cl)).2 = Some 1.
Proof.
  intros pre.
  pose proof (too_few_submissions_abort sample_env few_cl) as H.
  cbv zeta in H. destruct H as [Hdrop Habort].
  split.
  { apply (Hdrop pre [] ["empty"] [["alice"]] ["empty"] ["a.bin"]);
      vm_compute; reflexivity. }
  split; [vm_compute; reflexivity|].
  destruct (Habort sample_passes sample_structure
              (main_setup sample_env (namespace_of sample_env few_cl)
                 initial_state).2)
    as (Hiff & _ & Hrun & _).
  - vm_compute. reflexivity.
  - intros path e Hin Hget. simpl in Hin.
    repeat (apply elem_of_cons in Hin as [->|Hin]);
      [vm_compute in Hget; try discriminate Hget; injection Hget as <-;
       reflexivity..|].
    inversion Hin.
  - reflexivity.
  - reflexivity.
  - assert (Hfew : (length (kept sample_env (factory_of few_cl) pre
                              (args_submissions (namespace_of sample_env few_cl)) [])
                    + length (kept sample_env (factory_of few_cl) pre
                                (args_archive (namespace_of sample_env few_cl)) [])
                    < 2)%nat).
    { apply Nat.ltb_lt. vm_compute. reflexivity. }
    split.
    + by rewrite (proj1 Hiff Hfew).
    + by rewrite (Hrun Hfew).
Defined.

(** ** Passes *)

(** [-p structure txt] fails on [txt]; [-p structure text] resolves. *)
Lemma unknown_pass_reported_witness :
  (∃ name, name ∈ args_passes (namespace_of sample_env wrong_pass_cl)
           ∧ name ∉ registered sample_env)
  ∧ (run sample_env (Parsed wrong_pass_cl)).2 = Some 1
  ∧ (∀ name, name ∈ args_passes (namespace_of sample_env sample_cl) →
             name ∈ registered sample_env)
  ∧ ∃ passes : list (@Pass (list nat)),
      pass_name <$> passes = ["structure"; "text"].
Proof.
  assert (Hbad : ∃ name, name ∈ args_passes (namespace_of sample_env wrong_pass_cl)
                         ∧ name ∉ registered sample_env).
  { exists "txt". split; [by right; left|].
    apply (bool_decide_unpack ("txt" ∉ registered sample_env)). vm_compute. exact I. }
  assert (Hgood : ∀ name, name ∈ args_passes (namespace_of sample_env sample_cl) →
                          name ∈ registered sample_env).
  { intros name Hin. simpl in Hin.
    repeat (apply elem_of_cons in Hin as [->|Hin]).
    - by left.
    - right. by left.
    - inversion Hin. }
  split; [exact Hbad|].
  destruct (unknown_pass_reported sample_env wrong_pass_cl) as [Hunknown _].
  destruct (Hunknown Hbad) as (before & name & after & _ & _ & _ & _ & Hrun).
  split; [by rewrite Hrun|]. split; [exact Hgood|].
  destruct (unknown_pass_reported sample_env sample_cl) as [_ Hknown].
  destruct (Hknown Hgood) as (passes & Hnames & _).
  exists passes. exact Hnames.
Defined.

(** The sample run completes with four calls: one to [rank], two to
    [compare], one to [render]. *)
Lemma rank_once_compare_every_pass_witness :
  main sample_env sample_cl initial_state
  = (Returns (), (main sample_env sample_cl initial_state).2)
  ∧ length (calls (events (main sample_env sample_cl initial_state).2)) = 4%nat.
Proof.
  assert (Hmain : main sample_env sample_cl initial_state
                  = (Returns (), (main sample_env sample_cl initial_state).2))
    by (vm_compute; reflexivity).
  split; [exact Hmain|].
  destruct (rank_once_compare_every_pass sample_env sample_cl _ Hmain)
    as (passes & first & rest & built & executor & subs & archive_subs
        & ignored_files & scores & d & Hget & _ & _ & Hcalls & _).
  rewrite Hcalls. simpl. rewrite length_app, length_fmap. simpl.
  assert (passes = [sample_structure; sample_text]) as ->.
  { vm_compute in Hget. by injection Hget as <-. }
  reflexivity.
Defined.

(** Without [-n], [rank] is called with 50. *)
Lemma rank_n_default_50_witness :
  CallRank sample_built [0; 1; 2]%nat [] sample_ignored sample_structure 50
  ∈ (run sample_env (Parsed sample_cl)).1
  ∧ 50 = match cl_n sample_cl with Some given => given | None => 50 end.
Proof.
  split; [exact sample_rank_event|].
  exact (rank_n_default_50 sample_env sample_cl _ _ _ _ _ _ sample_rank_event).
Defined.

(** For the pass [text], [compare] is given the submissions with the
    preprocessor of [text]. *)
Lemma preprocessor_set_in_place_witness :
  ∃ seen scores,
    CallCompare seen scores sample_ignored sample_text
    ∈ (run sample_env (Parsed sample_cl)).1
    ∧ seen = setattr_preprocessor (mk_Preprocessor (pass_preprocessors sample_text))
               <$> sample_built.
Proof.
  eexists _, _. split; [exact sample_compare_event|].
  exact (proj1 (preprocessor_set_in_place sample_env sample_cl _ _ _ _ _ _ _ _ _ _
                  sample_rank_event sample_compare_event)).
Defined.

(** And these are not the submissions as [rank] was given them: on the
    tokens 1, 2, 3 the preprocessor of the first submission gave 3, 2
    then, and gives 3, 2, 1 now. *)
Lemma submissions_assigned_in_place :
  ¬ submissions_never_assigned (run sample_env (Parsed sample_cl)).1.
Proof.
  intros H.
  pose proof (H _ _ _ _ _ _ _ _ _ _ sample_rank_event sample_compare_event) as Heq.
  apply (f_equal (λ objs,
           (λ sub, Preprocessor_call (sub_preprocessor sub) [1; 2; 3]%nat)
             <$> objs !! 0%nat))
    in Heq.
  vm_compute in Heq. discriminate Heq.
Qed.

(** ** Errors *)

(** A [FileNotFoundError] is no domain error, and is not reported by the
    fixed message. *)
Lemma file_not_found_reported_apart : ¬ reports_in_two_classes.
Proof.
  intros H.
  specialize (H false FileNotFoundError
                (mk_exc FileNotFoundError [PyInt 2; PyStr "No such file or directory"]
                        (Some "nope"))).
  vm_compute in H. discriminate H.
Qed.

(** [compare50 alice nope bob] ends with code 1 on a [FileNotFoundError];
    in verbose mode the domain error is followed by its traceback. *)
Lemma errors_reported_by_class_witness :
  (∃ e st, main sample_env missing_cl initial_state = (Raises e, st)
           ∧ exc_type e = FileNotFoundError)
  ∧ (run sample_env (Parsed missing_cl)).2 = Some 1
  ∧ excepthook true api_Error (Error too_few)
    = ([Cprint too_few "red" stderr; PrintException api_Error (Error too_few)],
       Some 1).
Proof.
  assert (Hmain : main sample_env missing_cl initial_state
                  = (Raises (mk_exc FileNotFoundError
                               [PyInt 2; PyStr "No such file or directory"] (Some "nope")),
                     (main sample_env missing_cl initial_state).2))
    by (vm_compute; reflexivity).
  destruct (errors_reported_by_class sample_env) as [Hhook Hrun].
  split; [eexists _, _; split; [exact Hmain|reflexivity]|].
  split.
  - destruct (Hrun missing_cl _ _ Hmain) as [Hreported _].
    rewrite Hreported; reflexivity.
  - destruct (Hhook true api_Error (Error too_few)) as [Hdomain _].
    apply Hdomain. reflexivity.
Defined.

(** A usage error ends with code 2, the unknown pass with code 1. *)
Lemma exit_codes_distinct_witness :
  (run sample_env (UsageError "the following arguments are required: submissions")).2
    = Some 2
  ∧ (run sample_env (Parsed wrong_pass_cl)).2 = Some 1.
Proof.
  destruct (exit_codes_distinct sample_env wrong_pass_cl
              "the following arguments are required: submissions"
              (Error (not_a_pass sample_env "txt"))
              (mk_state [] true PoolExecutor []))
    as (H2 & H1 & _); [vm_compute; reflexivity | reflexivity |].
  by split.
Defined.

(** ** More on the hook, the factory and the listing *)

(** [_api.Error()] raised without a message. *)
Lemma domain_error_without_message_witness :
  excepthook false api_Error (mk_exc api_Error [] None)
  = ([Cprint sorry_message "red" stderr], Some 1).
Proof.
  apply (domain_error_without_message false api_Error (mk_exc api_Error [] None));
    reflexivity.
Defined.

(** A class derived from [FileNotFoundError] is no [FileNotFoundError]
    for the hook. *)
Lemma file_not_found_subclass_generic_witness :
  issubclass sample_missing_class FileNotFoundError = true
  ∧ excepthook true sample_missing_class
      (mk_exc sample_missing_class [PyInt 2] (Some "compare50.yml"))
    = ([Cprint sorry_message "red" stderr;
        PrintException sample_missing_class
          (mk_exc sample_missing_class [PyInt 2] (Some "compare50.yml"))],
       Some 1).
Proof.
  split; [reflexivity|].
  apply (file_not_found_subclass_generic true sample_missing_class);
    [reflexivity | discriminate | reflexivity].
Defined.

Lemma take_chars_length (n : nat) (s : string) :
  (String.length (take_chars n s) ≤ n)%nat.
Proof.
  revert s. induction n as [|n IH]; intros [|c s]; simpl; try lia.
  specialize (IH s). lia.
Qed.

(** The listing of the three passes of the sample. *)
Lemma listing_fits_80_columns_witness :
  (∀ text width line, line ∈ sample_wrap text width →
                      (String.length line ≤ width)%nat)
  ∧ PyPrint "structure" ∈ (ListAction_call sample_wrap sample_env).1
  ∧ (ListAction_call sample_wrap sample_env).2 = Some 0.
Proof.
  assert (Hwrap : ∀ text width line, line ∈ sample_wrap text width →
                                     (String.length line ≤ width)%nat).
  { intros text width line Hin. apply list_elem_of_singleton in Hin.
    subst line. apply take_chars_length. }
  split; [exact Hwrap|].
  destruct (listing_fits_80_columns sample_env sample_wrap Hwrap)
    as (_ & Hnames & Hcode).
  split; [|exact Hcode]. apply Hnames. by left.
Defined.

(** [bob/util.py] may not be read: [_get] raises [PermissionError]. *)
Lemma get_propagates_read_error_witness :
  SubmissionFactory__get sample_env_locked SubmissionFactory_init ["bob"]
                         (mk_Preprocessor [])
  = inl sample_denied.
Proof.
  apply (get_propagates_read_error sample_env_locked SubmissionFactory_init
           ["bob"] ["bob"] (mk_Preprocessor []) [] ["hello.py"] "util.py"
           sample_denied).
  - vm_compute. reflexivity.
  - intros f e' Hin. inversion Hin.
  - reflexivity.
  - reflexivity.
Defined.

(** [get_all] on [alice] and [bob], first on an empty store, then on the
    store of the sample run, which holds their submissions already: two
    submissions are added again. *)
Lemma get_all_independent_of_store_witness :
  ∃ news,
    SubmissionFactory_get_all sample_env SubmissionFactory_init
      [["alice"]; ["bob"]] (mk_Preprocessor [])
      (with_objects sample_built initial_state)
    = (Returns (seq 4 (length news)),
       with_objects (sample_built ++ news) initial_state).
Proof.
  assert (H : SubmissionFactory_get_all sample_env SubmissionFactory_init
                [["alice"]; ["bob"]] (mk_Preprocessor []) initial_state
              = (Returns [0; 1]%nat,
                 (SubmissionFactory_get_all sample_env SubmissionFactory_init
                    [["alice"]; ["bob"]] (mk_Preprocessor []) initial_state).2))
    by (vm_compute; reflexivity).
  destruct (get_all_independent_of_store sample_env _ _ _ _ _ _ H) as [news Hnews].
  exists news. apply (Hnews (with_objects sample_built initial_state)).
Defined.

(** [alice nope bob]: [nope] does not exist. *)
Lemma get_all_raises_first_error_witness :
  ∃ st',
    SubmissionFactory_get_all sample_env SubmissionFactory_init
      ([["alice"]] ++ ["nope"] :: [["bob"]]) (mk_Preprocessor []) initial_state
    = (Raises (mk_exc FileNotFoundError [PyInt 2; PyStr "No such file or directory"]
                      (Some "nope")), st')
    ∧ events st' = [].
Proof.
  apply (get_all_raises_first_error sample_env SubmissionFactory_init
           [["alice"]] [["bob"]] ["nope"] (mk_Preprocessor [])).
  - intros path' e' Hin Hget. apply list_elem_of_singleton in Hin. subst path'.
    vm_compute in Hget. discriminate Hget.
  - vm_compute. reflexivity.
  - reflexivity.
Defined.

(** ** More runs *)

(** A directory stands at [results] and the reply is n. *)
Lemma declined_removal_quits_witness :
  run (sample_env_results (Some "n")) (Parsed sample_cl)
  = ([prompt (sample_env_results (Some "n")) ["results"];
      Output (PyPrint "Quitting...")], Some 1).
Proof.
  apply (declined_removal_quits (sample_env_results (Some "n")) sample_cl
           sample_structure [sample_text] Directory);
    vm_compute; reflexivity.
Defined.

Lemma sample_removal_event :
  ShutilRmtree ["results"]
  ∈ (run (sample_env_results (Some "Y")) (Parsed sample_cl)).1.
Proof. apply (list_elem_of_lookup_2 _ 2%nat). vm_compute. reflexivity. Qed.

(** The reply is Y: after the question [os.remove] is called, raises
    [IsADirectoryError], and [shutil.rmtree] removes the directory. *)
Lemma removal_only_by_consent_witness :
  ShutilRmtree ["results"]
  ∈ (run (sample_env_results (Some "Y")) (Parsed sample_cl)).1
  ∧ ∃ rest,
      (run (sample_env_results (Some "Y")) (Parsed sample_cl)).1
      = prompt (sample_env_results (Some "Y")) ["results"]
          :: OsRemove ["results"] :: ShutilRmtree ["results"] :: rest.
Proof.
  split; [exact sample_removal_event|].
  pose proof (removal_only_by_consent (sample_env_results (Some "Y")) sample_cl
                ["results"]) as H.
  cbv zeta in H. destruct H as [_ H].
  exact (proj2 (proj2 (proj2 (proj2 (H sample_removal_event))))).
Defined.

(** [compare50 alice empty] raises in the body of the [with] statement:
    the progress bar is left all the same, and no message follows.
    [compare50 alice bob --profile] where [line_profiler] is not
    installed: [main] raises what the import raises. *)
Lemma with_statement_always_left_witness :
  ((main sample_env few_cl initial_state).1 = Raises (Error too_few)
   ∧ ∃ body,
       events (main sample_env few_cl initial_state).2
       = [ProgressBar "Preparing"] ++ body ++ [ProgressExit])
  ∧ main sample_env profile_cl initial_state
    = (Raises sample_no_profiler, mk_state [] false FauxExecutor []).
Proof.
  split.
  - assert (Hmain : (main sample_env few_cl initial_state).1
                    = Raises (Error too_few))
      by (vm_compute; reflexivity).
    split; [exact Hmain|].
    pose proof (with_statement_always_left sample_env few_cl sample_passes
                  sample_structure
                  (main_setup sample_env (namespace_of sample_env few_cl)
                     initial_state).2) as H.
    cbv zeta in H.
    destruct H as (body & tail & Hev & _ & Htail); [vm_compute; reflexivity|].
    change (statistics_error sample_env
              (args_profile (namespace_of sample_env few_cl)))
      with (@None exc) in Htail.
    rewrite Hmain in Htail. subst tail. exists body. rewrite Hev. reflexivity.
  - apply (with_statement_always_left sample_env profile_cl sample_passes
             sample_structure (mk_state [] false FauxExecutor [])).
    vm_compute. reflexivity.
Defined.

(** The exit codes of three runs of the sample: a usage error, the
    sample run, and [--profile] without [line_profiler], where [main]
    raises an exception that is no [SystemExit] and does not return. *)
Lemma exit_code_of_run_witness :
  (run sample_env (UsageError "the following arguments are required: submissions")).2
  = Some 2
  ∧ (run sample_env (Parsed sample_cl)).2 = Some 0
  ∧ (run sample_env (Parsed profile_cl)).2 = Some 1
  ∧ (∀ cl e, Parsed profile_cl = Parsed cl →
             (main sample_env cl initial_state).1 = Raises e →
             isinstance e SystemExit = false)
  ∧ ((run sample_env (Parsed profile_cl)).2 = Some 1 ↔
       ∃ cl, Parsed profile_cl = Parsed cl
             ∧ ∀ st, main sample_env cl initial_state ≠ (Returns (), st)).
Proof.
  assert (Hno : ∀ cl e, Parsed profile_cl = Parsed cl →
                  (main sample_env cl initial_state).1 = Raises e →
                  isinstance e SystemExit = false).
  { intros cl e [= <-] Hmain. vm_compute in Hmain.
    injection Hmain as <-. reflexivity. }
  split_and!; [| | |exact Hno|
    exact (proj2 (proj2 (proj2 (exit_code_of_run sample_env (Parsed profile_cl))
                           Hno)))].
  - exact (proj1 (exit_code_of_run sample_env
                    (UsageError
                       "the following arguments are required: submissions"))).
  - etrans; [exact (proj1 (exit_code_of_run sample_env (Parsed sample_cl)))|].
    vm_compute. reflexivity.
  - etrans; [exact (proj1 (exit_code_of_run sample_env (Parsed profile_cl)))|].
    vm_compute. reflexivity.
Defined.

(** The store of the sample run holds the submissions of [alice], [bob]
    and [carol.py], then that of [distro], whose file is ignored. *)
Lemma rank_given_what_was_built_witness :
  CallRank sample_built [0; 1; 2]%nat [] sample_ignored sample_structure 50
  ∈ (run sample_env (Parsed sample_cl)).1
  ∧ sample_built =
      kept sample_env (factory_of sample_cl)
           (mk_Preprocessor (pass_preprocessors sample_structure))
           [["alice"]; ["bob"]; ["empty"]; ["alice"]; ["carol.py"]] []
      ++ [] ++
      kept sample_env (factory_of sample_cl)
           (mk_Preprocessor (pass_preprocessors sample_structure))
           [["distro"]] [].
Proof.
  split; [exact sample_rank_event|].
  pose proof (rank_given_what_was_built sample_env sample_cl _ _ _ _ _ _
                sample_rank_event) as H.
  cbv zeta in H. destruct H as (_ & Hseen & _). exact Hseen.
Defined.

(** The pass [text] is compared on the scores of the pass [structure]. *)
Lemma compare_given_scores_of_rank_witness :
  ∃ first rest,
    get_passes sample_env (args_passes (namespace_of sample_env sample_cl))
    = inr (first :: rest)
    ∧ sample_text ∈ first :: rest.
Proof.
  pose proof (compare_given_scores_of_rank sample_env sample_cl _ _ _ _
                sample_compare_event) as H.
  cbv zeta in H. destruct H as (first & rest & Hget & Hin & _).
  by exists first, rest.
Defined.

(** The sample run with a directory at [results] and the reply Y. *)
Lemma completed_run_trace_witness :
  (run (sample_env_results (Some "Y")) (Parsed sample_cl)).2 = Some 0
  ∧ cleared (sample_env_results (Some "Y"))
            (args_output (namespace_of (sample_env_results (Some "Y")) sample_cl))
    = [prompt (sample_env_results (Some "Y")) ["results"];
       OsRemove ["results"]; ShutilRmtree ["results"]].
Proof.
  split; [|reflexivity].
  assert (Hmain : main (sample_env_results (Some "Y")) sample_cl initial_state
                  = (Returns (),
                     (main (sample_env_results (Some "Y")) sample_cl
                        initial_state).2))
    by (vm_compute; reflexivity).
  pose proof (completed_run_trace (sample_env_results (Some "Y")) sample_cl _ Hmain)
    as H.
  cbv zeta in H.
  destruct H as (first & rest & scores & results & index & _ & _ & _ & Hrun).
  by rewrite Hrun.
Defined.

Lemma sample_render_event :
  CallRender sample_results ["results"] ∈ (run sample_env (Parsed sample_cl)).1.
Proof. apply (list_elem_of_lookup_2 _ 10%nat). vm_compute. reflexivity. Qed.

(** The dict of the sample run has the two passes requested, in order. *)
Lemma render_given_one_entry_per_pass_witness :
  CallRender sample_results ["results"] ∈ (run sample_env (Parsed sample_cl)).1
  ∧ NoDup (pass_name <$> sample_results.*1)
  ∧ get_passes sample_env (args_passes (namespace_of sample_env sample_cl))
    = inr sample_results.*1.
Proof.
  split; [exact sample_render_event|].
  assert (Hmain : main sample_env sample_cl initial_state
                  = (Returns (), (main sample_env sample_cl initial_state).2))
    by (vm_compute; reflexivity).
  pose proof (render_given_one_entry_per_pass sample_env sample_cl _ _ _ Hmain
                sample_render_event) as H.
  cbv zeta in H. destruct H as (passes & Hget & _ & Hnodup & _ & Horder).
  split; [exact Hnodup|].
  rewrite Horder; [exact Hget|].
  apply (bool_decide_unpack _). vm_compute. exact I.
Defined.
